(** * Push attestation records of the keylime verifier

    A shallow embedding of [keylime/models/verifier/push_attestation.py]
    (class [PushAttestation]) and the properties of its lifecycle
    operations: creation with capability negotiation, reception of
    evidence, verification, and the queries over the attestation table. *)

From Stdlib Require Import ZArith String List Bool Lia Ascii.
From Stdlib Require Import Sorting.Sorted.
From Stdlib.Strings Require Byte.
Import ListNotations.
Local Open Scope string_scope.
Local Open Scope Z_scope.

(** ** Exceptions

    Python exceptions raised by the model are results of a sum type. *)

Inductive exn : Type :=
| ValueError (msg : string)
| TypeError (msg : string)
| AttributeError (msg : string).

Definition result (A : Type) : Type := (exn + A)%type.

Definition ret {A : Type} (a : A) : result A := inr a.
Definition raise {A : Type} (e : exn) : result A := inl e.
Definition bind {A B : Type} (c : result A) (k : A -> result B) : result B :=
  match c with
  | inl e => inl e
  | inr a => k a
  end.

Notation "x <- c ;; k" := (bind c (fun x => k))
  (at level 61, c at next level, right associativity).

(** ** Field types *)

(** [OneOf("waiting", "received", "verified", "failed")] *)
Inductive Status : Type := waiting | received | verified | failed.

(** The values [_set_failure_type] assigns to [failure_type]. *)
Inductive FailureType : Type :=
| quote_authentication
| log_authentication
| policy_violation.

Definition Status_eqb (a b : Status) : bool :=
  match a, b with
  | waiting, waiting | received, received
  | verified, verified | failed, failed => true
  | _, _ => false
  end.

Definition FailureType_eqb (a b : FailureType) : bool :=
  match a, b with
  | quote_authentication, quote_authentication
  | log_authentication, log_authentication
  | policy_violation, policy_violation => true
  | _, _ => false
  end.

(** Timestamps are seconds on the UTC time line; a [timedelta] is a number
    of seconds.  [timedelta days seconds] is Python's
    [timedelta(days, seconds)], whose first positional argument is days. *)
Definition Timestamp : Type := Z.

Definition timedelta (days seconds : Z) : Z := days * 86400 + seconds.

(** [Nonce.generate(bits)] draws [bits / 8] bytes from the random source. *)
Definition Nonce : Type := list Byte.byte.

Definition Nonce_generate (bits : Z) (rnd : nat -> Byte.byte) : Nonce :=
  map rnd (seq 0 (Z.to_nat (bits / 8))).

(** ** The schema

    The fields declared by [_schema], grouped by their Python type. *)

Inductive int_field : Type :=
| index | starting_ima_offset | quoted_ima_entries_count.

Inductive time_field : Type :=
| boottime | nonce_created_at | nonce_expires_at | evidence_received_at.

Inductive str_field : Type :=
| agent_id | hash_alg | enc_alg | sign_alg
| tpm_quote | ima_entries | mb_entries.

Inductive list_field : Type :=
| supported_enc_algs | supported_hash_algs | supported_sign_algs.

Definition int_field_eqb (a b : int_field) : bool :=
  match a, b with
  | index, index | starting_ima_offset, starting_ima_offset
  | quoted_ima_entries_count, quoted_ima_entries_count => true
  | _, _ => false
  end.

Definition time_field_eqb (a b : time_field) : bool :=
  match a, b with
  | boottime, boottime | nonce_created_at, nonce_created_at
  | nonce_expires_at, nonce_expires_at
  | evidence_received_at, evidence_received_at => true
  | _, _ => false
  end.

Definition str_field_eqb (a b : str_field) : bool :=
  match a, b with
  | agent_id, agent_id | hash_alg, hash_alg | enc_alg, enc_alg
  | sign_alg, sign_alg | tpm_quote, tpm_quote
  | ima_entries, ima_entries | mb_entries, mb_entries => true
  | _, _ => false
  end.

Definition list_field_eqb (a b : list_field) : bool :=
  match a, b with
  | supported_enc_algs, supported_enc_algs
  | supported_hash_algs, supported_hash_algs
  | supported_sign_algs, supported_sign_algs => true
  | _, _ => false
  end.

Definition int_field_name (f : int_field) : string :=
  match f with
  | index => "index"
  | starting_ima_offset => "starting_ima_offset"
  | quoted_ima_entries_count => "quoted_ima_entries_count"
  end.

Definition time_field_name (f : time_field) : string :=
  match f with
  | boottime => "boottime"
  | nonce_created_at => "nonce_created_at"
  | nonce_expires_at => "nonce_expires_at"
  | evidence_received_at => "evidence_received_at"
  end.

Definition str_field_name (f : str_field) : string :=
  match f with
  | agent_id => "agent_id"
  | hash_alg => "hash_alg"
  | enc_alg => "enc_alg"
  | sign_alg => "sign_alg"
  | tpm_quote => "tpm_quote"
  | ima_entries => "ima_entries"
  | mb_entries => "mb_entries"
  end.

Definition list_field_name (f : list_field) : string :=
  match f with
  | supported_enc_algs => "supported_enc_algs"
  | supported_hash_algs => "supported_hash_algs"
  | supported_sign_algs => "supported_sign_algs"
  end.

(** [cls._field("failure_type", OneOf("quote_authentication",
    "policy_violation"), nullable=True)]: the values the column admits. *)
Definition failure_type_permitted : list FailureType :=
  [quote_authentication; policy_violation].

(** A dictionary of field values ([committed], [changes], [values]); an
    absent key and the value [None] are both [None]. *)
Record Fields : Type := mkFields {
  ints : int_field -> option Z;
  times : time_field -> option Timestamp;
  strs : str_field -> option string;
  lists : list_field -> option (list string);
  status : option Status;
  failure_type : option FailureType;
  nonce : option Nonce
}.

Definition no_fields : Fields :=
  {| ints := fun _ => None; times := fun _ => None; strs := fun _ => None;
     lists := fun _ => None; status := None; failure_type := None;
     nonce := None |}.

Definition upd {K V : Type} (eqb : K -> K -> bool) (k : K) (v : V)
    (m : K -> V) : K -> V :=
  fun k' => if eqb k k' then v else m k'.

Definition overlay {K V : Type} (top bottom : K -> option V) : K -> option V :=
  fun k => match top k with Some v => Some v | None => bottom k end.

Definition or_else {V : Type} (top bottom : option V) : option V :=
  match top with Some v => Some v | None => bottom end.

Definition set_int (f : int_field) (v : option Z) (d : Fields) : Fields :=
  {| ints := upd int_field_eqb f v (ints d); times := times d;
     strs := strs d; lists := lists d; status := status d;
     failure_type := failure_type d; nonce := nonce d |}.

Definition set_time (f : time_field) (v : Timestamp) (d : Fields) : Fields :=
  {| ints := ints d; times := upd time_field_eqb f (Some v) (times d);
     strs := strs d; lists := lists d; status := status d;
     failure_type := failure_type d; nonce := nonce d |}.

Definition set_str (f : str_field) (v : string) (d : Fields) : Fields :=
  {| ints := ints d; times := times d;
     strs := upd str_field_eqb f (Some v) (strs d); lists := lists d;
     status := status d; failure_type := failure_type d; nonce := nonce d |}.

Definition set_list (f : list_field) (v : list string) (d : Fields) : Fields :=
  {| ints := ints d; times := times d; strs := strs d;
     lists := upd list_field_eqb f (Some v) (lists d); status := status d;
     failure_type := failure_type d; nonce := nonce d |}.

Definition set_status (v : Status) (d : Fields) : Fields :=
  {| ints := ints d; times := times d; strs := strs d; lists := lists d;
     status := Some v; failure_type := failure_type d; nonce := nonce d |}.

Definition set_failure_type (v : FailureType) (d : Fields) : Fields :=
  {| ints := ints d; times := times d; strs := strs d; lists := lists d;
     status := status d; failure_type := Some v; nonce := nonce d |}.

Definition set_nonce (v : Nonce) (d : Fields) : Fields :=
  {| ints := ints d; times := times d; strs := strs d; lists := lists d;
     status := status d; failure_type := failure_type d; nonce := Some v |}.

(** ** Configuration and collaborators *)

(** The options read with [config.getint("verifier", ...)]. *)
Record Config : Type := mkConfig {
  nonce_lifetime : Z;
  quote_interval : Z;
  verification_timeout : Z
}.

(** The columns of the agent record that [_clear_agent_fields] resets and
    that no other code of the model reads. *)
Inductive legacy_field : Type :=
| legacy_hash_alg | legacy_enc_alg | legacy_sign_alg
| operational_state | ima_sign_verification_keys | ima_pcr
| severity_level | last_event_id | supported_version | tpm_version
| last_received_quote | last_successful_attestation.

(** The verifier's agent record, as far as [PushAttestation] reads or
    writes it. *)
Module VerifierAgent.
Record t : Type := mk {
  agent_id : string;
  accept_tpm_hash_algs : list string;
  accept_tpm_encryption_algs : list string;
  accept_tpm_signing_algs : list string;
  accept_attestations : bool;
  learned_ima_keyrings : option string;
  ak_tpm : string;
  tpm_policy : string;
  next_ima_ml_entry : option Z;
  attestation_count : option Z;
  tpm_clockinfo : option string;
  pcr10 : option string;
  ima_pcrs : list Z;
  legacy : legacy_field -> option string
}.
End VerifierAgent.

(** The runtime (IMA) policy of an agent, once decoded; an agent without
    one has [None]. *)
Record RuntimePolicy : Type := mkRuntimePolicy {
  dm_policy : option string;
  verification_keys : string
}.

(** An event of a [Failure]; a failure is the list of its events and is
    true when it has one. *)
Record Event : Type := mkEvent {
  event_id : string;
  context : string
}.

Definition Failure : Type := list Event.

(** ** Model objects

    [BasicModel] and [PersistableModel] of [keylime.models.base] keep, for
    every object, the dictionary read from the database ([committed]), the
    pending assignments ([changes]) and the validation errors recorded per
    field ([errors], here in the order they were added).  An attribute is
    read from [changes] first and from [committed] otherwise. *)
Record PushAttestation : Type := mkAtt {
  committed : option Fields;
  changes : Fields;
  errors : list (string * string)
}.

Definition committed_fields (att : PushAttestation) : Fields :=
  match committed att with
  | Some c => c
  | None => no_fields
  end.

Definition values (att : PushAttestation) : Fields :=
  let c := committed_fields att in
  let d := changes att in
  {| ints := overlay (ints d) (ints c);
     times := overlay (times d) (times c);
     strs := overlay (strs d) (strs c);
     lists := overlay (lists d) (lists c);
     status := or_else (status d) (status c);
     failure_type := or_else (failure_type d) (failure_type c);
     nonce := or_else (nonce d) (nonce c) |}.

(** [PushAttestation.empty()] *)
Definition empty : PushAttestation :=
  {| committed := None; changes := no_fields; errors := [] |}.

(** An object built from a row of the table. *)
Definition fetched (row : Fields) : PushAttestation :=
  {| committed := Some row; changes := no_fields; errors := [] |}.

(** Truth values of Python objects. *)
Definition truthy_str (v : option string) : bool :=
  match v with
  | Some s => negb (String.eqb s "")
  | None => false
  end.

Definition truthy_int (v : option Z) : bool :=
  match v with
  | Some z => negb (z =? 0)
  | None => false
  end.

Definition truthy_nonce (v : option Nonce) : bool :=
  match v with
  | Some (_ :: _) => true
  | _ => false
  end.

Definition is_some {A : Type} (v : option A) : bool :=
  match v with
  | Some _ => true
  | None => false
  end.

(** The messages recorded for a field. *)
Definition errs (name : string) (es : list (string * string)) : list string :=
  map snd (filter (fun e => String.eqb (fst e) name) es).

Definition errors_on (name : string) (att : PushAttestation) : list string :=
  errs name (errors att).

(** Modelled from the spec: [changes_valid] of [keylime.models.base],
    which is not among the sources; no error is recorded. *)
Definition changes_valid (att : PushAttestation) : bool :=
  match errors att with
  | [] => true
  | _ :: _ => false
  end.

(** The message is already recorded for the field. *)
Definition recorded (name msg : string) (es : list (string * string))
    : bool :=
  existsb (fun e => String.eqb (fst e) name && String.eqb (snd e) msg) es.

(** Modelled from the spec: [_add_error(field, msg)] of
    [keylime.models.base]; the message joins those of the field unless it
    is among them already. *)
Definition _add_error (name msg : string) (att : PushAttestation)
    : PushAttestation :=
  if recorded name msg (errors att) then att
  else
    {| committed := committed att; changes := changes att;
       errors := (errors att ++ [(name, msg)])%list |}.

Definition clear_errors (name : string) (es : list (string * string))
    : list (string * string) :=
  filter (fun e => negb (String.eqb (fst e) name)) es.

(** Assigning to a field of a model goes through [BasicModel.change], which
    is not among the sources of [PushAttestation].  The assignment records
    the value in [changes]; whether it also discards the errors recorded
    earlier for that field is a parameter of the embedding.  The base
    class discards them ([ResetFieldErrors]); the properties that do not
    depend on it are stated for both. *)
Inductive ChangePolicy : Type :=
| ResetFieldErrors
| KeepErrors.

Definition on_change (policy : ChangePolicy) (name : string)
    (es : list (string * string)) : list (string * string) :=
  match policy with
  | ResetFieldErrors => clear_errors name es
  | KeepErrors => es
  end.

(** ** The attestation table *)

Definition Store : Type := list Fields.

Definition row_index (row : Fields) : option Z := ints row index.

(** Modelled from the spec: the ordering of a query of
    [keylime.models.base], which is not among the sources.  [a] sorts
    before [b] under [desc("index")]. *)
Definition index_above (a b : Fields) : bool :=
  match row_index a, row_index b with
  | Some i, Some j => j <? i
  | Some _, None => true
  | None, _ => false
  end.

(** Modelled from the spec: the first row of such a query under
    [_sort=desc("index")]. *)
Fixpoint first_desc_index (rows : list Fields) : option Fields :=
  match rows with
  | [] => None
  | r :: rest =>
      match first_desc_index rest with
      | None => Some r
      | Some best => if index_above best r then Some best else Some r
      end
  end.

(** Modelled from the spec: the query interface of [keylime.models.base]
    is not among the sources.  [PushAttestation.get(criteria...,
    _sort=desc("index"))] is the first of the rows that meet the criteria,
    in descending order of [index], the most recent one. *)
Definition get (criteria : Fields -> bool) (db : Store) : option Fields :=
  first_desc_index (filter criteria db).

(** Modelled from the spec: the criterion [agent_id=id] of such a query;
    a criterion whose value is [None] is dropped from the query, so that
    every row meets it. *)
Definition agent_is (id : option string) (row : Fields) : bool :=
  match id with
  | None => true
  | Some a =>
      match strs row agent_id with
      | Some b => String.eqb a b
      | None => false
      end
  end.

Definition status_is (s : Status) (row : Fields) : bool :=
  match status row with
  | Some s' => Status_eqb s' s
  | None => false
  end.

(** The two rows have the same primary key: [agent_id] and [index] are
    the fields that [_schema] declares with [primary_key=True]. *)
Definition same_key (a b : Fields) : bool :=
  match strs a agent_id, strs b agent_id with
  | Some x, Some y => String.eqb x y
  | _, _ => false
  end &&
  match row_index a, row_index b with
  | Some i, Some j => i =? j
  | _, _ => false
  end.

(** [get_last(agent_id)] *)
Definition get_last (db : Store) (id : option string) : option Fields :=
  get (agent_is id) db.

(** Modelled from the spec: [obj.delete()] of [keylime.models.base]; the
    row with the object's key leaves the table. *)
Definition delete (att : PushAttestation) (db : Store) : Store :=
  filter (fun row => negb (same_key (values att) row)) db.

(** Modelled from the spec: [PersistableModel.commit_changes] of
    [keylime.models.base] is not among the sources.  An object whose
    changes carry an error is refused and nothing is stored.  Otherwise an
    object that was never committed is inserted, which fails when its key
    exists, and a committed object overwrites the row with its key.
    Afterwards the object's [committed] dictionary holds its values. *)
Definition super_commit_changes (att : PushAttestation) (db : Store)
    : result (Store * PushAttestation) :=
  let row := values att in
  if negb (changes_valid att)
  then raise (ValueError "the changes of the record are not valid")
  else
    match committed att with
    | None =>
        if existsb (same_key row) db
        then raise (ValueError "ConflictError")
        else ret ((db ++ [row])%list, fetched row)
    | Some _ =>
        ret (map (fun r => if same_key row r then row else r) db,
             fetched row)
    end.

(** A field of any type, as named in the lists given to [cast_changes] and
    [validate_required]. *)
Inductive field : Type :=
| IntF (f : int_field)
| TimeF (f : time_field)
| StrF (f : str_field)
| ListF (f : list_field).

Definition field_name (fld : field) : string :=
  match fld with
  | IntF f => int_field_name f
  | TimeF f => time_field_name f
  | StrF f => str_field_name f
  | ListF f => list_field_name f
  end.

(** ** Properties computed from the values of a record *)

(** [next_ima_offset] *)
Definition next_ima_offset (v : Fields) : option Z :=
  match ints v starting_ima_offset, ints v quoted_ima_entries_count with
  | Some s, Some c => Some (s + c)
  | _, _ => None
  end.

Section Model.

Variable policy : ChangePolicy.
Variable cfg : Config.

(** *** Assignments *)

(** Modelled from the spec: [BasicModel.change] of [keylime.models.base];
    the assignment of a value that the type of the field admits. *)
Definition change (name : string) (set : Fields -> Fields)
    (att : PushAttestation) : PushAttestation :=
  {| committed := committed att;
     changes := set (changes att);
     errors := on_change policy name (errors att) |}.

(** Modelled from the spec: the assignment of an integer field.  The
    schema declares none of them nullable: assigning [None] to one
    records the error "cannot be null" on it. *)
Definition change_int (f : int_field) (v : option Z)
    (att : PushAttestation) : PushAttestation :=
  match v with
  | Some _ => change (int_field_name f) (set_int f v) att
  | None =>
      _add_error (int_field_name f) "cannot be null"
        (change (int_field_name f) (set_int f None) att)
  end.

Definition change_time (f : time_field) (v : Timestamp) :=
  change (time_field_name f) (set_time f v).

Definition change_str (f : str_field) (v : string) :=
  change (str_field_name f) (set_str f v).

Definition change_list (f : list_field) (v : list string) :=
  change (list_field_name f) (set_list f v).

Definition change_status (v : Status) :=
  change "status" (set_status v).

(** Modelled from the spec: the assignment of [failure_type].  The field
    takes the values that its [OneOf] type in [_schema] admits; the
    assignment of another value leaves the field as it is and records an
    error on it. *)
Definition change_failure_type (v : FailureType) (att : PushAttestation)
    : PushAttestation :=
  if existsb (FailureType_eqb v) failure_type_permitted
  then change "failure_type" (set_failure_type v) att
  else
    _add_error "failure_type" "is not a permitted value"
      (change "failure_type" (fun d => d) att).

Definition change_nonce (v : Nonce) :=
  change "nonce" (set_nonce v).

(** Modelled from the spec: [cast_changes(data, permitted)] of
    [keylime.models.base] is not among the sources.  Every permitted
    field that the request body [data] carries is assigned; the values of
    [data] already have the field's type. *)
Definition cast_change (data : Fields) (fld : field)
    (att : PushAttestation) : PushAttestation :=
  match fld with
  | IntF f =>
      match ints data f with
      | Some v => change_int f (Some v) att
      | None => att
      end
  | TimeF f =>
      match times data f with
      | Some v => change_time f v att
      | None => att
      end
  | StrF f =>
      match strs data f with
      | Some v => change_str f v att
      | None => att
      end
  | ListF f =>
      match lists data f with
      | Some v => change_list f v att
      | None => att
      end
  end.

Definition cast_changes (data : Fields) (permitted : list field)
    (att : PushAttestation) : PushAttestation :=
  fold_left (fun a fld => cast_change data fld a) permitted att.

(** A required field counts as missing when it has no value or an empty
    one. *)
Definition missing (v : Fields) (fld : field) : bool :=
  match fld with
  | IntF f => negb (is_some (ints v f))
  | TimeF f => negb (is_some (times v f))
  | StrF f => negb (truthy_str (strs v f))
  | ListF f =>
      match lists v f with
      | Some (_ :: _) => false
      | _ => true
      end
  end.

(** Modelled from the spec: [validate_required(fields)] of
    [keylime.models.base] is not among the sources.  An error is recorded
    on every listed field that is missing. *)
Definition validate_required (required : list field)
    (att : PushAttestation) : PushAttestation :=
  fold_left
    (fun a fld =>
       if missing (values a) fld
       then _add_error (field_name fld) "is required" a
       else a)
    required att.

(** *** Queries for earlier attestations *)

Definition index_below (bound : option Z) (row : Fields) : bool :=
  match row_index row, bound with
  | Some i, Some b => i <? b
  | _, _ => false
  end.

(** [or_(failure_type != "quote_authentication", failure_type == None)] *)
Definition not_quote_authentication (row : Fields) : bool :=
  match failure_type row with
  | Some ft => negb (FailureType_eqb ft quote_authentication)
  | None => true
  end.

(** [previous_authenticated_attestation], on first access. *)
Definition previous_authenticated_attestation (db : Store)
    (att : PushAttestation) : option Fields :=
  let v := values att in
  if negb (truthy_str (strs v agent_id)) then None
  else
    get (fun row =>
           agent_is (strs v agent_id) row
           && (status_is verified row || status_is failed row)
           && not_quote_authentication row
           && index_below (ints v index) row)
        db.

(** [previous_successful_attestation], on first access. *)
Definition previous_successful_attestation (db : Store)
    (att : PushAttestation) : option Fields :=
  let v := values att in
  if negb (truthy_str (strs v agent_id)) then None
  else
    get (fun row => agent_is (strs v agent_id) row && status_is verified row)
        db.

(** [previous_attestation], on first access. *)
Definition previous_attestation (db : Store)
    (att : PushAttestation) : option Fields :=
  let v := values att in
  if negb (truthy_str (strs v agent_id)) then None
  else get (agent_is (strs v agent_id)) db.

(** *** Creation *)

(** [_set_index] *)
Definition _set_index (db : Store) (att : PushAttestation)
    : result PushAttestation :=
  if truthy_int (ints (committed_fields att) index) then ret att
  else
    match get_last db (strs (values att) agent_id) with
    | Some last =>
        match row_index last with
        | Some i => ret (change_int index (Some (i + 1)) att)
        | None => raise (TypeError "unsupported operand type(s) for +")
        end
    | None => ret (change_int index (Some 0) att)
    end.

(** [_set_nonce] *)
Definition _set_nonce (rnd : nat -> Byte.byte) (att : PushAttestation)
    : PushAttestation :=
  match nonce (values att) with
  | None => change_nonce (Nonce_generate 128 rnd) att
  | Some _ => att
  end.

(** [_set_timestamps]; [now] is what [Timestamp.now()] returns. *)
Definition _set_timestamps (now : Timestamp) (att : PushAttestation)
    : PushAttestation :=
  let att1 :=
    if truthy_nonce (nonce (changes att))
    then
      let a := change_time nonce_created_at now att in
      change_time nonce_expires_at
        (now + timedelta (nonce_lifetime cfg) 0) a
    else att in
  if truthy_str (strs (changes att1) tpm_quote)
  then change_time evidence_received_at now att1
  else att1.

(** [_set_status] *)
Definition _set_status (att : PushAttestation) : PushAttestation :=
  let att1 :=
    if is_some (status (values att)) then att
    else change_status waiting att in
  if truthy_str (strs (changes att1) tpm_quote)
  then change_status received att1
  else att1.

(** [_set_ima_offset] *)
Definition _set_ima_offset (db : Store) (att : PushAttestation)
    : result PushAttestation :=
  match times (values att) boottime with
  | None => ret att
  | Some bt =>
      match previous_authenticated_attestation db att with
      | None => ret (change_int starting_ima_offset (Some 0) att)
      | Some prev =>
          match times prev boottime with
          | None => raise (TypeError "'>' not supported")
          | Some pbt =>
              if pbt <? bt
              then ret (change_int starting_ima_offset (Some 0) att)
              else if bt =? pbt
              then ret (change_int starting_ima_offset
                          (next_ima_offset prev) att)
              else if bt <? pbt
              then ret (_add_error "boottime"
                "must be equal to or greater than the boot time of last attestation"
                att)
              else ret att
          end
      end
  end.

(** One of the three loops of [_set_algs]:
    [for alg in accept: if alg in supported: self.f = alg; break
     else: self._add_error(f, msg)]. *)
Fixpoint select_alg (f : str_field) (msg : string) (accept : list string)
    (supported : option (list string)) (att : PushAttestation)
    : result PushAttestation :=
  match accept with
  | [] => ret att
  | alg :: rest =>
      match supported with
      | None => raise (TypeError "argument of type 'NoneType' is not iterable")
      | Some sup =>
          if existsb (String.eqb alg) sup
          then ret (change_str f alg att)
          else select_alg f msg rest supported
                 (_add_error (str_field_name f) msg att)
      end
  end.

Definition for_agent (msg : string) (agent : VerifierAgent.t) : string :=
  String.append msg
    (String.append " for agent '"
       (String.append (VerifierAgent.agent_id agent) "'")).

(** [_set_algs] *)
Definition _set_algs (data : Fields) (agent : VerifierAgent.t)
    (att : PushAttestation) : result PushAttestation :=
  a1 <- select_alg hash_alg
          (for_agent "does not contain any accepted hashing algorithm" agent)
          (VerifierAgent.accept_tpm_hash_algs agent)
          (lists data supported_hash_algs) att ;;
  a2 <- select_alg enc_alg
          (for_agent "supported_enc_alg not in list of accpeted_tpm_enc_algs"
             agent)
          (VerifierAgent.accept_tpm_encryption_algs agent)
          (lists data supported_enc_algs) a1 ;;
  select_alg sign_alg
    (for_agent "supported_sign_alg not in list of accpeted_tpm_sign_algs"
       agent)
    (VerifierAgent.accept_tpm_signing_algs agent)
    (lists data supported_sign_algs) a2.

(** [initialise] *)
Definition initialise (db : Store) (now : Timestamp) (id : string)
    (att : PushAttestation) : result PushAttestation :=
  if is_some (committed att)
  then raise (ValueError
                "Attestation object cannot be initialised once committed")
  else
    a <- _set_index db (change_str agent_id id att) ;;
    ret (_set_status (_set_timestamps now a)).

Definition capability_fields : list field :=
  [TimeF boottime; ListF supported_enc_algs; ListF supported_hash_algs;
   ListF supported_sign_algs].

(** [receive_capabilities] *)
Definition receive_capabilities (db : Store) (now : Timestamp)
    (rnd : nat -> Byte.byte) (data : Fields) (agent : VerifierAgent.t)
    (att : PushAttestation) : result PushAttestation :=
  if status_is waiting (committed_fields att)
  then raise (ValueError
    "Attestation object cannot be updated as it has already received agent capabilities")
  else
    let a := cast_changes data capability_fields att in
    let a := validate_required capability_fields a in
    let a := _set_nonce rnd a in
    a <- _set_ima_offset db a ;;
    a <- _set_algs data agent a ;;
    ret (_set_status (_set_timestamps now a)).

(** [create_from_agent] *)
Definition create_from_agent (db : Store) (now : Timestamp)
    (rnd : nat -> Byte.byte) (agent : VerifierAgent.t) (data : Fields)
    : result PushAttestation :=
  a <- initialise db now (VerifierAgent.agent_id agent) empty ;;
  a <- receive_capabilities db now rnd data agent a ;;
  if truthy_int (VerifierAgent.next_ima_ml_entry agent)
  then ret (change_int starting_ima_offset
              (VerifierAgent.next_ima_ml_entry agent) a)
  else ret a.

(** [create] *)
Definition create (db : Store) (now : Timestamp) (rnd : nat -> Byte.byte)
    (id : string) (agent : VerifierAgent.t) (data : Fields)
    : result PushAttestation :=
  match get_last db (Some id) with
  | None => create_from_agent db now rnd agent data
  | Some _ =>
      a <- initialise db now id empty ;;
      receive_capabilities db now rnd data agent a
  end.

Definition mid_creation_message (id : option string) : string :=
  String.append "An attestation for agent '"
    (String.append (match id with Some a => a | None => "None" end)
       "' was created while another was mid-creation").

(** [commit_changes] *)
Definition commit_changes (db : Store) (att : PushAttestation)
    : result (Store * PushAttestation) :=
  let v := values att in
  if status_is waiting v
  then
    match get_last db (strs v agent_id) with
    | Some last =>
        match row_index last, ints v index with
        | Some li, Some i =>
            if i <=? li
            then raise (ValueError (mid_creation_message (strs v agent_id)))
            else super_commit_changes att db
        | _, _ => raise (TypeError "'>=' not supported")
        end
    | None => super_commit_changes att db
    end
  else super_commit_changes att db.

(** *** Evidence *)

Definition newline : ascii := ascii_of_nat 10.

(** [s.split("\n")[0]] *)
Fixpoint first_line (s : string) : string :=
  match s with
  | EmptyString => EmptyString
  | String c rest =>
      if Ascii.eqb c newline then EmptyString
      else String c (first_line rest)
  end.

(** [sub in s] *)
Fixpoint contains (sub s : string) : bool :=
  String.prefix sub s ||
  match s with
  | EmptyString => false
  | String _ rest => contains sub rest
  end.

Definition option_Z_eqb (a b : option Z) : bool :=
  match a, b with
  | Some x, Some y => x =? y
  | None, None => true
  | _, _ => false
  end.

Definition or_empty (v : option string) : string :=
  match v with
  | Some s => s
  | None => EmptyString
  end.

(** [_validate_ima_entries] *)
Definition _validate_ima_entries (starting_ima_offset_received : option Z)
    (runtime_policy : option RuntimePolicy) (att : PushAttestation)
    : PushAttestation :=
  let a1 :=
    if is_some runtime_policy
       && negb (truthy_str (strs (values att) ima_entries))
    then _add_error "ima_entries" "is required by agent policy" att
    else att in
  let a2 :=
    if truthy_str (strs (values a1) ima_entries)
       && negb (is_some runtime_policy)
    then _add_error "ima_entries"
           "is not expected according to agent policy" a1
    else a1 in
  let a3 :=
    if negb (option_Z_eqb starting_ima_offset_received
               (ints (values a2) starting_ima_offset))
    then _add_error "starting_ima_offset"
           "is not the expected starting ima offset for this attestation" a2
    else a2 in
  if option_Z_eqb starting_ima_offset_received (Some 0)
  then
    let first_entry := first_line (or_empty (strs (values a3) ima_entries)) in
    if negb (contains "boot_aggregate" first_entry)
    then _add_error "ima_entries"
      "should start with a 'boot_aggregate' entry when the starting offset is 0"
      a3
    else a3
  else a3.

Definition evidence_fields : list field :=
  [StrF tpm_quote; StrF ima_entries; StrF mb_entries].

(** [receive_evidence] *)
Definition receive_evidence (now : Timestamp) (data : Fields)
    (runtime_policy : option RuntimePolicy) (att : PushAttestation)
    : result PushAttestation :=
  if status_is received (committed_fields att)
  then raise (ValueError
    "Attestation object cannot be updated as it has already received evidence")
  else
    let a := cast_changes data evidence_fields att in
    let a := validate_required
               [StrF tpm_quote; StrF hash_alg; StrF enc_alg; StrF sign_alg]
               a in
    let a := _validate_ima_entries (ints data starting_ima_offset)
               runtime_policy a in
    ret (_set_status (_set_timestamps now a)).

(** *** Verification *)

(** The failure type chosen by the loop of [_set_failure_type]: the first
    event that is a quote validation event, an invalid measured boot PCR
    or an IMA PCR mismatch decides; without one it is a policy
    violation. *)
Fixpoint classify (events : list Event) : FailureType :=
  match events with
  | [] => policy_violation
  | e :: rest =>
      if String.eqb (event_id e) "quote_validation.quote_validation"
      then quote_authentication
      else if String.prefix "measured_boot.invalid_pcr_" (event_id e)
      then log_authentication
      else if String.eqb (event_id e) "ima.pcr_mismatch"
      then log_authentication
      else classify rest
  end.

(** [_set_failure_type] *)
Definition _set_failure_type (failure : Failure) (att : PushAttestation)
    : PushAttestation :=
  match failure with
  | [] => att
  | _ :: _ => change_failure_type (classify failure) att
  end.

(** [decision_expected_by] and [next_attestation_expected_after] *)
Definition next_attestation_expected_after (v : Fields) : result Timestamp :=
  match or_else (times v evidence_received_at) (times v nonce_created_at) with
  | Some basis => ret (basis + timedelta 0 (quote_interval cfg))
  | None => raise (TypeError "unsupported operand type(s) for +")
  end.

Definition decision_expected_by (v : Fields) : result Timestamp :=
  match times v evidence_received_at with
  | Some basis => ret (basis + timedelta 0 (verification_timeout cfg))
  | None =>
      match times v nonce_created_at with
      | Some created =>
          ret (created + timedelta 0 (quote_interval cfg)
               + timedelta 0 (verification_timeout cfg))
      | None => raise (TypeError "unsupported operand type(s) for +")
      end
  end.

(** [accept_new_attestations_in]; the second [return] of the source
    adds two timestamps, which raises a [TypeError]. *)
Definition accept_new_attestations_in (db : Store) (now : Timestamp)
    (id : string) : result Z :=
  match get_last db (Some id) with
  | None => ret 0
  | Some last =>
      expected <- next_attestation_expected_after last ;;
      if now <? expected then ret (expected - now)
      else if status_is received last
      then
        decision <- decision_expected_by last ;;
        if now <=? decision
        then raise (TypeError
          "unsupported operand type(s) for +: 'Timestamp' and 'Timestamp'")
        else ret 0
      else ret 0
  end.

(** [cleanup_stale_priors] *)
Definition cleanup_stale_priors (db : Store) (now : Timestamp)
    (att : PushAttestation) : result Store :=
  match previous_attestation db att with
  | None => ret db
  | Some prev =>
      if status_is waiting prev then ret (delete (fetched prev) db)
      else if status_is received prev
      then
        decision <- decision_expected_by prev ;;
        if decision <? now then ret (delete (fetched prev) db) else ret db
      else ret db
  end.

(** *** Verification of the evidence

    The TPM adapter ([keylime.tpm.tpm_main.Tpm]), the IMA keyrings
    ([keylime.ima.file_signatures]) and the attestation state
    ([keylime.agentstates]) are collaborators of the model; what the
    model needs of them is abstract here. *)
Section Verification.

Variable ImaKeyrings : Type.
(** [ImaKeyrings()] of a new [AgentAttestState] *)
Variable new_keyrings : ImaKeyrings.
(** [ImaKeyrings.from_json]; [None] when there is nothing to load *)
Variable keyrings_from_json : option string -> option ImaKeyrings.
(** [ImaKeyrings.to_json] *)
Variable keyrings_to_json : ImaKeyrings -> string.
(** [set_tenant_keyring(ImaKeyring.from_string(policy_keys))] *)
Variable set_tenant_keyring : string -> ImaKeyrings -> ImaKeyrings.
(** [Tpm._tpm2_clock_info_from_quote(quote, False)] *)
Variable clock_info_from_quote : string -> string.
(** [Tpm.get_pcrs_from_quote(quote, False)] *)
Variable get_pcrs_from_quote : string -> list (Z * string).

Record AgentAttestState : Type := mkAttestState {
  st_boottime : option Timestamp;
  st_ima_dm_state : option string;
  st_ima_keyrings : ImaKeyrings;
  st_next_ima_ml_entry : option Z;
  st_tpm_clockinfo : option string;
  st_ima_pcrs : option (list (Z * option string));
  st_quote_progress : option (option Z * Z);
  st_tpm_state : option (option string * list (Z * string))
}.

(** [Tpm.check_quote(attest_state, nonce, pub_key, quote, ak_tpm,
    tpm_policy, ima_entries, runtime_policy, hash_alg, ima_keyrings,
    mb_entries, mb_policy, compressed, count)] with [pub_key = None] and
    [compressed = False]: the failure it reports and the attestation
    state as it leaves it. *)
Variable check_quote :
  AgentAttestState -> option Nonce -> option string -> string -> string ->
  option string -> option RuntimePolicy -> option string -> ImaKeyrings ->
  option string -> option string -> option Z ->
  Failure * AgentAttestState.

Definition or_None (v : option string) : option string :=
  if truthy_str v then v else None.

(** Modelled from the spec: the type [Binary] of [keylime.models.base] is
    not among the sources.  [Binary().render(value)] is the text form of
    the bytes of a binary field; [None] is no bytes and has none. *)
Definition Binary_render (v : option string) : result string :=
  match v with
  | Some b => ret b
  | None =>
      raise (TypeError "a bytes-like object is required, not 'NoneType'")
  end.

Fixpoint count_newlines (s : string) : Z :=
  match s with
  | EmptyString => 0
  | String c rest =>
      (if Ascii.eqb c newline then 1 else 0) + count_newlines rest
  end.

(** [received_ima_entries_count] *)
Definition received_ima_entries_count (v : Fields) : Z :=
  if truthy_str (strs v ima_entries)
  then count_newlines (or_empty (strs v ima_entries))
  else 0.

(** [tpm_clock_info] *)
Definition tpm_clock_info (v : Fields) : option string :=
  if truthy_str (strs v tpm_quote)
  then Some (clock_info_from_quote (or_empty (strs v tpm_quote)))
  else None.

(** [tpm_pcrs]; [None] stands for the [False] of the source. *)
Definition tpm_pcrs (v : Fields) : option (list (Z * string)) :=
  if truthy_str (strs v tpm_quote)
  then Some (get_pcrs_from_quote (or_empty (strs v tpm_quote)))
  else None.

Fixpoint pcr_get (num : Z) (pcrs : list (Z * string)) : option string :=
  match pcrs with
  | [] => None
  | (n, val) :: rest => if n =? num then Some val else pcr_get num rest
  end.

(** [ima_pcrs(agent)] *)
Definition ima_pcrs_of (v : Fields) (agent : VerifierAgent.t)
    : option (list (Z * option string)) :=
  match tpm_pcrs v with
  | Some ((_ :: _) as pcrs) =>
      Some (map (fun num => (num, pcr_get num pcrs))
              (VerifierAgent.ima_pcrs agent))
  | _ => None
  end.

Definition decided (v : Fields) : bool :=
  status_is verified v || status_is failed v.

Definition is_quote_authentication (v : Fields) : bool :=
  match failure_type v with
  | Some ft => FailureType_eqb ft quote_authentication
  | None => false
  end.

(** [attest_state(agent, runtime_policy)], on first access. *)
Definition attest_state (db : Store) (agent : VerifierAgent.t)
    (runtime_policy : option RuntimePolicy) (att : PushAttestation)
    : result AgentAttestState :=
  let v := values att in
  match runtime_policy with
  | None => raise (AttributeError "'NoneType' object has no attribute 'get'")
  | Some rp =>
      let learned :=
        if option_Z_eqb (ints v starting_ima_offset) (Some 0)
        then new_keyrings
        else
          match keyrings_from_json
                  (VerifierAgent.learned_ima_keyrings agent) with
          | Some k => k
          | None => new_keyrings
          end in
      let keyrings := set_tenant_keyring (verification_keys rp) learned in
      let progress :=
        if decided v
        then Some (ints v quoted_ima_entries_count,
                   received_ima_entries_count v)
        else None in
      if decided v && negb (is_quote_authentication v)
      then
        match tpm_pcrs v with
        | None => raise (AttributeError "'bool' object has no attribute 'items'")
        | Some pcrs =>
            ret {| st_boottime := times v boottime;
                   st_ima_dm_state := dm_policy rp;
                   st_ima_keyrings := keyrings;
                   st_next_ima_ml_entry := next_ima_offset v;
                   st_tpm_clockinfo := tpm_clock_info v;
                   st_ima_pcrs := ima_pcrs_of v agent;
                   st_quote_progress := progress;
                   st_tpm_state := Some (strs v hash_alg, pcrs) |}
        end
      else
        let prev := previous_authenticated_attestation db att in
        ret {| st_boottime := times v boottime;
               st_ima_dm_state := dm_policy rp;
               st_ima_keyrings := keyrings;
               st_next_ima_ml_entry := ints v starting_ima_offset;
               st_tpm_clockinfo :=
                 match prev with
                 | Some p => tpm_clock_info p
                 | None =>
                     if truthy_str (VerifierAgent.tpm_clockinfo agent)
                     then VerifierAgent.tpm_clockinfo agent
                     else None
                 end;
               st_ima_pcrs :=
                 match prev with
                 | Some p => ima_pcrs_of p agent
                 | None =>
                     if truthy_str (VerifierAgent.pcr10 agent)
                     then Some [(10, VerifierAgent.pcr10 agent)]
                     else None
                 end;
               st_quote_progress := progress;
               st_tpm_state := None |}
  end.

(** [_clear_agent_fields] *)
Definition _clear_agent_fields (db : Store) (att : PushAttestation)
    (agent : VerifierAgent.t) : VerifierAgent.t :=
  match get_last db (strs (values att) agent_id) with
  | Some _ => agent
  | None =>
      {| VerifierAgent.agent_id := VerifierAgent.agent_id agent;
         VerifierAgent.accept_tpm_hash_algs :=
           VerifierAgent.accept_tpm_hash_algs agent;
         VerifierAgent.accept_tpm_encryption_algs :=
           VerifierAgent.accept_tpm_encryption_algs agent;
         VerifierAgent.accept_tpm_signing_algs :=
           VerifierAgent.accept_tpm_signing_algs agent;
         VerifierAgent.accept_attestations :=
           VerifierAgent.accept_attestations agent;
         VerifierAgent.learned_ima_keyrings :=
           VerifierAgent.learned_ima_keyrings agent;
         VerifierAgent.ak_tpm := VerifierAgent.ak_tpm agent;
         VerifierAgent.tpm_policy := VerifierAgent.tpm_policy agent;
         VerifierAgent.next_ima_ml_entry := None;
         VerifierAgent.attestation_count := None;
         VerifierAgent.tpm_clockinfo := None;
         VerifierAgent.pcr10 := None;
         VerifierAgent.ima_pcrs := VerifierAgent.ima_pcrs agent;
         VerifierAgent.legacy := fun _ => None |}
  end.

Definition set_accept_attestations (b : bool) (agent : VerifierAgent.t)
    : VerifierAgent.t :=
  {| VerifierAgent.agent_id := VerifierAgent.agent_id agent;
     VerifierAgent.accept_tpm_hash_algs :=
       VerifierAgent.accept_tpm_hash_algs agent;
     VerifierAgent.accept_tpm_encryption_algs :=
       VerifierAgent.accept_tpm_encryption_algs agent;
     VerifierAgent.accept_tpm_signing_algs :=
       VerifierAgent.accept_tpm_signing_algs agent;
     VerifierAgent.accept_attestations := b;
     VerifierAgent.learned_ima_keyrings :=
       VerifierAgent.learned_ima_keyrings agent;
     VerifierAgent.ak_tpm := VerifierAgent.ak_tpm agent;
     VerifierAgent.tpm_policy := VerifierAgent.tpm_policy agent;
     VerifierAgent.next_ima_ml_entry :=
       VerifierAgent.next_ima_ml_entry agent;
     VerifierAgent.attestation_count :=
       VerifierAgent.attestation_count agent;
     VerifierAgent.tpm_clockinfo := VerifierAgent.tpm_clockinfo agent;
     VerifierAgent.pcr10 := VerifierAgent.pcr10 agent;
     VerifierAgent.ima_pcrs := VerifierAgent.ima_pcrs agent;
     VerifierAgent.legacy := VerifierAgent.legacy agent |}.

Definition set_learned_ima_keyrings (k : option string)
    (agent : VerifierAgent.t) : VerifierAgent.t :=
  {| VerifierAgent.agent_id := VerifierAgent.agent_id agent;
     VerifierAgent.accept_tpm_hash_algs :=
       VerifierAgent.accept_tpm_hash_algs agent;
     VerifierAgent.accept_tpm_encryption_algs :=
       VerifierAgent.accept_tpm_encryption_algs agent;
     VerifierAgent.accept_tpm_signing_algs :=
       VerifierAgent.accept_tpm_signing_algs agent;
     VerifierAgent.accept_attestations :=
       VerifierAgent.accept_attestations agent;
     VerifierAgent.learned_ima_keyrings := k;
     VerifierAgent.ak_tpm := VerifierAgent.ak_tpm agent;
     VerifierAgent.tpm_policy := VerifierAgent.tpm_policy agent;
     VerifierAgent.next_ima_ml_entry :=
       VerifierAgent.next_ima_ml_entry agent;
     VerifierAgent.attestation_count :=
       VerifierAgent.attestation_count agent;
     VerifierAgent.tpm_clockinfo := VerifierAgent.tpm_clockinfo agent;
     VerifierAgent.pcr10 := VerifierAgent.pcr10 agent;
     VerifierAgent.ima_pcrs := VerifierAgent.ima_pcrs agent;
     VerifierAgent.legacy := VerifierAgent.legacy agent |}.

(** The call of [check_quote] in [verify_evidence], on the attestation
    state built for the record, with the IMA entries and the rendered
    measured boot log as the first lines of [verify_evidence] prepare
    them. *)
Definition run_check_quote (db : Store)
    (runtime_policy : option RuntimePolicy) (mb_policy : option string)
    (agent : VerifierAgent.t) (att : PushAttestation)
    : result (Failure * AgentAttestState) :=
  let v := values att in
  rendered <- Binary_render (strs v mb_entries) ;;
  st <- attest_state db agent runtime_policy att ;;
  ret (check_quote st (nonce v) (strs v tpm_quote)
         (VerifierAgent.ak_tpm agent) (VerifierAgent.tpm_policy agent)
         (or_None (strs v ima_entries)) runtime_policy (strs v hash_alg)
         (st_ima_keyrings st) (or_None (Some rendered)) mb_policy
         (VerifierAgent.attestation_count agent)).

(** [verify_evidence]: the table, the record and the agent as the call
    leaves them.  The measured boot log is rendered before the record is
    looked at, so that a record without one raises whatever its state. *)
Definition verify_evidence (db : Store)
    (runtime_policy : option RuntimePolicy) (mb_policy : option string)
    (agent : VerifierAgent.t) (att : PushAttestation)
    : result (Store * PushAttestation * VerifierAgent.t) :=
  let v := values att in
  rendered <- Binary_render (strs v mb_entries) ;;
  if negb (changes_valid att)
  then raise (ValueError
    "Attestation object cannot be verified as it has pending changes with errors")
  else if decided v
  then raise (ValueError
    "Attestation object has already undergone verification")
  else
    checked <- run_check_quote db runtime_policy mb_policy agent att ;;
    let (failure, st) := checked in
    let agent1 := _clear_agent_fields db att agent in
    match st_next_ima_ml_entry st, ints v starting_ima_offset with
    | Some next, Some start =>
        let a := change_int quoted_ima_entries_count
                   (Some (next - start)) att in
        let a := change_status
                   (match failure with [] => verified | _ :: _ => failed end)
                   a in
        let agent2 :=
          set_accept_attestations (status_is verified (values a)) agent1 in
        let a := _set_failure_type failure a in
        let db1 :=
          if status_is verified (values a)
          then
            match previous_attestation db a with
            | Some prev =>
                if status_is verified prev
                   && negb (option_Z_eqb (ints prev starting_ima_offset)
                              (Some 0))
                then delete (fetched prev) db
                else db
            | None => db
            end
          else db in
        let agent3 :=
          if negb (is_quote_authentication (values a))
          then set_learned_ima_keyrings
                 (Some (keyrings_to_json (st_ima_keyrings st))) agent2
          else agent2 in
        committed <- commit_changes db1 a ;;
        ret (fst committed, snd committed, agent3)
    | _, _ => raise (TypeError "unsupported operand type(s) for -")
    end.

End Verification.

End Model.

Arguments AgentAttestState : clear implicits.
Arguments mkAttestState {ImaKeyrings}.
Arguments st_boottime {ImaKeyrings}.
Arguments st_ima_dm_state {ImaKeyrings}.
Arguments st_ima_keyrings {ImaKeyrings}.
Arguments st_next_ima_ml_entry {ImaKeyrings}.
Arguments st_tpm_clockinfo {ImaKeyrings}.
Arguments st_ima_pcrs {ImaKeyrings}.
Arguments st_quote_progress {ImaKeyrings}.
Arguments st_tpm_state {ImaKeyrings}.
Arguments run_check_quote {ImaKeyrings}.
Arguments verify_evidence policy {ImaKeyrings}.
Arguments attest_state {ImaKeyrings}.

(** The error of [_validate_ima_entries] for IMA entries that come without
    a runtime policy. *)
Definition not_expected : string * string :=
  ("ima_entries", "is not expected according to agent policy").

(** * Negotiation, as specified *)

(** The first algorithm of the agent's ordered list that the TPM supports. *)
Definition first_match (accept supported : list string) : option string :=
  find (fun alg => existsb (String.eqb alg) supported) accept.

(** The outcome of the negotiation of one family of algorithms on a record:
    with a common algorithm the first match is chosen and the field has no
    error; an error on the field means there is no common algorithm. *)
Definition negotiated (accept supported : list string) (f : str_field)
    (a : PushAttestation) : Prop :=
  ((exists x, In x accept /\ In x supported) ->
   exists alg,
     first_match accept supported = Some alg /\
     strs (values a) f = Some alg /\
     errors_on (str_field_name f) a = []) /\
  (errors_on (str_field_name f) a <> [] ->
   forall x, In x accept -> ~ In x supported).

(** * Scenarios

    Concrete agents, requests and tables on which the operations are
    evaluated. *)

(** Agent [a1], which prefers SHA-512 to SHA-256, with the given gate and
    the given next IMA entry left from pull mode. *)
Definition agent_with (gate : bool) (next : option Z) : VerifierAgent.t :=
  {| VerifierAgent.agent_id := "a1";
     VerifierAgent.accept_tpm_hash_algs := ["sha512"; "sha256"];
     VerifierAgent.accept_tpm_encryption_algs := ["rsa"];
     VerifierAgent.accept_tpm_signing_algs := ["rsassa"];
     VerifierAgent.accept_attestations := gate;
     VerifierAgent.learned_ima_keyrings := None;
     VerifierAgent.ak_tpm := "ak";
     VerifierAgent.tpm_policy := "{}";
     VerifierAgent.next_ima_ml_entry := next;
     VerifierAgent.attestation_count := None;
     VerifierAgent.tpm_clockinfo := None;
     VerifierAgent.pcr10 := None;
     VerifierAgent.ima_pcrs := [10];
     VerifierAgent.legacy := fun _ => None |}.

Definition agent_a1 : VerifierAgent.t := agent_with true None.

(** The same agent once gated off. *)
Definition agent_gated : VerifierAgent.t := agent_with false None.

(** The same agent coming from pull mode with 125 IMA entries verified. *)
Definition agent_migrated : VerifierAgent.t := agent_with true (Some 125).

(** The capabilities of scenario 1: boot at 1000, a TPM with SHA-256 and
    SHA-1, RSA and RSASSA. *)
Definition capabilities_1000 : Fields :=
  set_time boottime 1000
    (set_list supported_hash_algs ["sha256"; "sha1"]
       (set_list supported_enc_algs ["rsa"]
          (set_list supported_sign_algs ["rsassa"] no_fields))).

(** [nonce_lifetime = 5], [quote_interval = 60],
    [verification_timeout = 30]. *)
Definition config_5 : Config :=
  {| nonce_lifetime := 5; quote_interval := 60; verification_timeout := 30 |}.

Definition zero_bytes : nat -> Byte.byte := fun _ => Byte.x00.

(** A record of agent [a1] with the given index, status and IMA counters,
    booted at 1000, whose nonce was minted at [created] and expires at
    [expires]. *)
Definition attestation_row (i : Z) (s : Status) (offset : Z)
    (count : option Z) (created expires : Timestamp) : Fields :=
  set_str agent_id "a1"
    (set_int index (Some i)
       (set_status s
          (set_time boottime 1000
             (set_nonce (Nonce_generate 128 zero_bytes)
                (set_time nonce_created_at created
                   (set_time nonce_expires_at expires
                      (set_str hash_alg "sha256"
                         (set_str enc_alg "rsa"
                            (set_str sign_alg "rsassa"
                               (set_int starting_ima_offset (Some offset)
                                  (set_int quoted_ima_entries_count count
                                     no_fields))))))))))).

(** Scenario 6: a record created at time 0 whose nonce expires at 5. *)
Definition waiting_row : Fields := attestation_row 0 waiting 0 None 0 5.

(** Evidence for a record whose IMA log starts at offset 0. *)
Definition evidence_0 : Fields :=
  set_str tpm_quote "quote"
    (set_str ima_entries "10 0000 ima-ng sha256:0000 boot_aggregate"
       (set_int starting_ima_offset (Some 0) no_fields)).

Definition runtime_policy_0 : RuntimePolicy :=
  {| dm_policy := None; verification_keys := "" |}.

(** Scenario 3: record 0, verified with 125 IMA entries from offset 0. *)
Definition verified_row_0 : Fields :=
  attestation_row 0 verified 0 (Some 125) 0 5.

(** A later verified record of the same boot. *)
Definition verified_row_1 : Fields :=
  attestation_row 1 verified 125 (Some 10) 100 105.

(** A record of agent [a1] under creation, with its index and the boot time
    the agent reported. *)
Definition new_attestation (i : Z) (bt : Timestamp) : PushAttestation :=
  {| committed := None;
     changes := set_time boottime bt
                  (set_int index (Some i)
                     (set_str agent_id "a1" no_fields));
     errors := [] |}.

(** A record that has received its evidence at time 3. *)
Definition received_row (quote : string) : Fields :=
  set_str tpm_quote quote
    (set_str ima_entries "10 0000 ima-ng sha256:0000 boot_aggregate"
       (set_str mb_entries "AAAA"
          (set_time evidence_received_at 3
             (attestation_row 0 received 0 None 0 5)))).

(** A stand-in for the TPM adapter, with keyrings that are their own JSON
    text: the quote ["quote"] is genuine, the quote ["other-log"] does not
    match the IMA log sent with it, any other fails the validation of the
    quote; three IMA entries are consumed and a keyring is learned. *)
Definition toy_check_quote (st : AgentAttestState string)
    (_ : option Nonce) (quote : option string) (_ _ : string)
    (_ : option string) (_ : option RuntimePolicy) (_ : option string)
    (_ : string) (_ _ : option string) (_ : option Z)
    : Failure * AgentAttestState string :=
  ((match quote with
    | Some q =>
        if String.eqb q "quote" then []
        else if String.eqb q "other-log"
        then [mkEvent "ima.pcr_mismatch" "log"]
        else [mkEvent "quote_validation.quote_validation" "forged"]
    | None => [mkEvent "quote_validation.quote_validation" "forged"]
    end),
   {| st_boottime := st_boottime st;
      st_ima_dm_state := st_ima_dm_state st;
      st_ima_keyrings := "learned-keys";
      st_next_ima_ml_entry := Some 3;
      st_tpm_clockinfo := st_tpm_clockinfo st;
      st_ima_pcrs := st_ima_pcrs st;
      st_quote_progress := st_quote_progress st;
      st_tpm_state := st_tpm_state st |}).

(** [verify_evidence] and its call of [check_quote] with that stand-in. *)
Abbreviation toy_verify_evidence policy db agent att :=
  (verify_evidence policy "" (fun j => j) (fun k => k) (fun _ k => k)
     (fun q => q) (fun _ => []) toy_check_quote db (Some runtime_policy_0)
     None agent att).

Abbreviation toy_run_check_quote db agent att :=
  (run_check_quote "" (fun j => j) (fun _ k => k) (fun q => q) (fun _ => [])
     toy_check_quote db (Some runtime_policy_0) None agent att).

(** * The selection of PCRs *)

(** The events that decide the failure type in [_set_failure_type]: a quote
    validation event, an invalid measured boot PCR, an IMA PCR mismatch. *)
Definition deciding (e : Event) : bool :=
  String.eqb (event_id e) "quote_validation.quote_validation"
  || String.prefix "measured_boot.invalid_pcr_" (event_id e)
  || String.eqb (event_id e) "ima.pcr_mismatch".

(** [x] added to a strictly increasing list. *)
Fixpoint insert_pcr (x : Z) (l : list Z) : list Z :=
  match l with
  | [] => [x]
  | y :: rest =>
      if x <? y then x :: l
      else if x =? y then l
      else y :: insert_pcr x rest
  end.

(** [sorted(list(set(l)))] *)
Definition sorted_set (l : list Z) : list Z := fold_right insert_pcr [] l.

Section PcrSelection.

(** The keys of the object that [json.loads(agent.tpm_policy)] returns, in
    their order, or the exception it raises. *)
Variable json_object_keys : string -> result (list string).
(** [int(key)] *)
Variable int_of_key : string -> result Z.
(** [config.MEASUREDBOOT_PCRS] and [config.IMA_PCR] *)
Variable MEASUREDBOOT_PCRS : list Z.
Variable IMA_PCR : Z.

(** [[int(pcr) for pcr in keys]] *)
Fixpoint ints_of_keys (keys : list string) : result (list Z) :=
  match keys with
  | [] => ret []
  | key :: rest =>
      n <- int_of_key key ;;
      ns <- ints_of_keys rest ;;
      ret (n :: ns)
  end.

(** [pcr_selection(agent)] *)
Definition pcr_selection (agent : VerifierAgent.t) : result (list Z) :=
  keys <- json_object_keys (VerifierAgent.tpm_policy agent) ;;
  lockdown_pcrs <-
    ints_of_keys (filter (fun key => negb (String.eqb key "mask")) keys) ;;
  ret (sorted_set (lockdown_pcrs ++ MEASUREDBOOT_PCRS ++ [IMA_PCR])%list).

End PcrSelection.

(** A stand-in for the JSON decoder and for [int] on the policy of the
    scenarios, whose object has the keys ["mask"], ["15"] and ["10"]. *)
Definition toy_json_object_keys (_ : string) : result (list string) :=
  ret ["mask"; "15"; "10"].

Definition toy_int_of_key (key : string) : result Z :=
  if String.eqb key "15" then ret 15
  else if String.eqb key "10" then ret 10
  else raise (ValueError "invalid literal for int() with base 10").

(** * Frames

    What a step that assigns other fields keeps of a record: its
    committed values, its integer fields, its agent, and the errors
    recorded on the field [name]. *)
Definition keeps (name : string) (a b : PushAttestation) : Prop :=
  committed b = committed a /\
  ints (changes b) = ints (changes a) /\
  strs (changes b) agent_id = strs (changes a) agent_id /\
  forall msg, In (name, msg) (errors a) -> In (name, msg) (errors b).

(** * Properties *)

(** ** Reading a field after assignments *)

Lemma values_change_time policy name f v att g :
  times (values (change policy name (set_time f v) att)) g =
  if time_field_eqb f g then Some v else times (values att) g.
Proof.
  unfold values, change, overlay, committed_fields; cbn; unfold upd.
  destruct (time_field_eqb f g); reflexivity.
Qed.

Lemma values_change_time_other policy f v att :
  let a := change_time policy f v att in
  ints (values a) = ints (values att) /\
  strs (values a) = strs (values att) /\
  lists (values a) = lists (values att) /\
  status (values a) = status (values att) /\
  failure_type (values a) = failure_type (values att) /\
  nonce (values a) = nonce (values att).
Proof. repeat split. Qed.

Lemma values_change_status policy s att :
  let a := change_status policy s att in
  ints (values a) = ints (values att) /\
  times (values a) = times (values att) /\
  strs (values a) = strs (values att) /\
  lists (values a) = lists (values att) /\
  status (values a) = Some s /\
  failure_type (values a) = failure_type (values att) /\
  nonce (values a) = nonce (values att).
Proof. repeat split. Qed.

(** What [_set_status] leaves of the other fields. *)
Lemma _set_status_frame policy att :
  let a := _set_status policy att in
  ints (values a) = ints (values att) /\
  times (values a) = times (values att) /\
  strs (values a) = strs (values att) /\
  failure_type (values a) = failure_type (values att) /\
  committed a = committed att.
Proof.
  unfold _set_status.
  destruct (is_some (status (values att)));
    [ destruct (truthy_str (strs (changes att) tpm_quote))
    | destruct (truthy_str (strs (changes (change_status policy waiting att))
                              tpm_quote)) ];
    repeat split.
Qed.

(** What [_set_timestamps] leaves of the other fields. *)
Lemma _set_timestamps_frame policy cfg now att :
  let a := _set_timestamps policy cfg now att in
  ints (values a) = ints (values att) /\
  strs (values a) = strs (values att) /\
  strs (changes a) = strs (changes att) /\
  status (values a) = status (values att) /\
  failure_type (values a) = failure_type (values att) /\
  committed a = committed att.
Proof.
  unfold _set_timestamps.
  destruct (truthy_nonce (nonce (changes att))); simpl;
    match goal with
    | |- context [if ?c then _ else _] => destruct c
    end; repeat split.
Qed.

(** ** C1: the lifetime of a nonce *)

(** C1. When a nonce has been generated, [_set_timestamps] sets
    [nonce_created_at] to the current time and [nonce_expires_at] to that
    time plus [nonce_lifetime] days: [timedelta(nonce_lifetime)] takes its
    argument as days, 86400 seconds each, not as seconds. *)
Theorem nonce_expires_after_lifetime_days policy cfg now att :
  truthy_nonce (nonce (changes att)) = true ->
  let a := _set_timestamps policy cfg now att in
  times (values a) nonce_created_at = Some now /\
  times (values a) nonce_expires_at = Some (now + 86400 * nonce_lifetime cfg).
Proof.
  intros Hnonce a; subst a; unfold _set_timestamps; rewrite Hnonce.
  assert (Hdays : now + timedelta (nonce_lifetime cfg) 0
                  = now + 86400 * nonce_lifetime cfg)
    by (unfold timedelta; lia).
  rewrite Hdays.
  match goal with
  | |- context [if ?c then _ else _] => destruct c
  end; unfold change_time; rewrite ?values_change_time; simpl; split;
    reflexivity.
Qed.

(** A nonce minted at time 0 under [nonce_lifetime = 5] expires at 432000. *)
Lemma nonce_expires_after_lifetime_days_witness :
  truthy_nonce (nonce (changes (_set_nonce KeepErrors zero_bytes empty))) = true
  /\ times (values (_set_timestamps KeepErrors config_5 0
                      (_set_nonce KeepErrors zero_bytes empty)))
        nonce_expires_at = Some (0 + 86400 * 5).
Proof.
  split; [reflexivity|].
  apply (nonce_expires_after_lifetime_days KeepErrors config_5 0
           (_set_nonce KeepErrors zero_bytes empty)).
  reflexivity.
Defined.

(** Scenario 1 under [nonce_lifetime = 5]: the nonce minted at time 0
    expires at 432000, five days later, and not at 5. *)
Example create_nonce_lifetime_5 policy :
  match create policy config_5 [] 0 zero_bytes "a1" agent_a1
          capabilities_1000 with
  | inr a =>
      times (values a) nonce_created_at = Some 0 /\
      times (values a) nonce_expires_at = Some 432000
  | inl _ => False
  end.
Proof. destruct policy; vm_compute; split; reflexivity. Qed.

(** ** Results *)

Lemma ret_inj {A : Type} (x y : A) : ret x = inr y -> x = y.
Proof. intros H; injection H as ->; reflexivity. Qed.

(** ** Recorded errors *)

Lemma errors_on_errs name att : errors_on name att = errs name (errors att).
Proof. reflexivity. Qed.

Lemma errs_app name es es' :
  errs name (es ++ es')%list = (errs name es ++ errs name es')%list.
Proof. unfold errs; rewrite filter_app, map_app; reflexivity. Qed.

Lemma errs_clear_same name es : errs name (clear_errors name es) = [].
Proof.
  unfold errs, clear_errors; induction es as [|e es IH]; simpl; [reflexivity|].
  destruct (String.eqb (fst e) name) eqn:E; simpl; [exact IH|].
  rewrite E; exact IH.
Qed.

Lemma errs_clear_nil name other es :
  errs name es = [] -> errs name (clear_errors other es) = [].
Proof.
  unfold errs, clear_errors; induction es as [|e es IH]; simpl; [reflexivity|].
  destruct (String.eqb (fst e) name) eqn:E; simpl; [discriminate|].
  intros H; destruct (String.eqb (fst e) other); simpl; [auto|].
  rewrite E; auto.
Qed.

Lemma errs_on_change_nil policy name other es :
  errs name es = [] -> errs name (on_change policy other es) = [].
Proof.
  destruct policy; simpl; [apply errs_clear_nil | exact (fun H => H)].
Qed.

Lemma errs_add_other name other msg es :
  String.eqb other name = false ->
  errs name (es ++ [(other, msg)])%list = errs name es.
Proof.
  intros H; rewrite errs_app; unfold errs at 2; simpl; rewrite H; simpl.
  apply app_nil_r.
Qed.

(** [_add_error] touches the recorded errors only, and there the list of
    its field only. *)
Lemma committed_add_error name msg att :
  committed (_add_error name msg att) = committed att.
Proof. unfold _add_error; destruct (recorded _ _ _); reflexivity. Qed.

Lemma changes_add_error name msg att :
  changes (_add_error name msg att) = changes att.
Proof. unfold _add_error; destruct (recorded _ _ _); reflexivity. Qed.

Lemma values_add_error name msg att :
  values (_add_error name msg att) = values att.
Proof. unfold _add_error; destruct (recorded _ _ _); reflexivity. Qed.

Lemma committed_fields_add_error name msg att :
  committed_fields (_add_error name msg att) = committed_fields att.
Proof. unfold _add_error; destruct (recorded _ _ _); reflexivity. Qed.

Lemma recorded_In name msg es :
  recorded name msg es = true <-> In (name, msg) es.
Proof.
  unfold recorded; rewrite existsb_exists; split.
  - intros [[n m] [Hin Heq]]; simpl in Heq.
    apply andb_true_iff in Heq; destruct Heq as [Hn Hm].
    apply String.eqb_eq in Hn, Hm; subst; exact Hin.
  - intros Hin; exists (name, msg); split; [exact Hin|].
    simpl; rewrite !String.eqb_refl; reflexivity.
Qed.

Lemma errs_add_error_other name other msg att :
  String.eqb other name = false ->
  errs name (errors (_add_error other msg att)) = errs name (errors att).
Proof.
  intros H; unfold _add_error; destruct (recorded _ _ _); [reflexivity|].
  cbn [errors]; apply errs_add_other; exact H.
Qed.

Lemma In_add_error e name msg att :
  In e (errors att) -> In e (errors (_add_error name msg att)).
Proof.
  intros H; unfold _add_error; destruct (recorded _ _ _); [exact H|].
  cbn [errors]; apply in_or_app; left; exact H.
Qed.

Lemma In_add_error_new name msg att :
  In (name, msg) (errors (_add_error name msg att)).
Proof.
  unfold _add_error; destruct (recorded name msg (errors att)) eqn:E.
  - apply recorded_In; exact E.
  - cbn [errors]; apply in_or_app; right; left; reflexivity.
Qed.

Lemma In_add_error_inv e name msg att :
  In e (errors (_add_error name msg att)) ->
  In e (errors att) \/ e = (name, msg).
Proof.
  unfold _add_error; destruct (recorded _ _ _); [left; assumption|].
  cbn [errors]; intros H; apply in_app_or in H.
  destruct H as [H | [H | []]]; [left; exact H | right; symmetry; exact H].
Qed.

Lemma In_errs name msg es : In (name, msg) es -> In msg (errs name es).
Proof.
  intros H; unfold errs.
  change msg with (snd (name, msg)); apply in_map.
  apply filter_In; split; [exact H|]; simpl; apply String.eqb_refl.
Qed.

Lemma errs_add_error_same name msg att :
  errs name (errors (_add_error name msg att)) <> [].
Proof.
  intros H; pose proof (In_errs _ _ _ (In_add_error_new name msg att)) as Hin.
  rewrite H in Hin; exact Hin.
Qed.

Lemma changes_valid_add_error name msg att :
  changes_valid (_add_error name msg att) = false.
Proof.
  pose proof (In_add_error_new name msg att) as Hin; unfold changes_valid.
  destruct (errors (_add_error name msg att)); [destruct Hin | reflexivity].
Qed.

(** An error stays recorded under an assignment to another field. *)
Lemma In_on_change policy name other msg es :
  String.eqb name other = false ->
  In (name, msg) es -> In (name, msg) (on_change policy other es).
Proof.
  intros Hne Hin; destruct policy; simpl; [|exact Hin].
  unfold clear_errors; apply filter_In; split; [exact Hin|].
  simpl; rewrite Hne; reflexivity.
Qed.

(** ** C2: negotiation of the algorithms *)

Lemma first_match_found accept supported :
  (exists x, In x accept /\ In x supported) ->
  exists alg, first_match accept supported = Some alg.
Proof.
  intros [x [Ha Hs]]; unfold first_match.
  destruct (find _ accept) as [alg|] eqn:E; [eauto|].
  exfalso.
  pose proof (find_none _ _ E x Ha) as Hnone; simpl in Hnone.
  assert (Htrue : existsb (String.eqb x) supported = true).
  { apply existsb_exists; exists x; split; [exact Hs | apply String.eqb_refl]. }
  congruence.
Qed.

Lemma first_match_none accept supported :
  first_match accept supported = None ->
  forall x, In x accept -> ~ In x supported.
Proof.
  intros E x Ha Hs.
  destruct (first_match_found accept supported) as [alg Halg]; [eauto|].
  congruence.
Qed.

(** The first match is the earliest element of the accept list that the
    supported list contains. *)
Lemma first_match_earliest accept supported alg :
  first_match accept supported = Some alg ->
  exists before after,
    accept = (before ++ alg :: after)%list /\
    In alg supported /\
    forall x, In x before -> ~ In x supported.
Proof.
  unfold first_match; induction accept as [|a rest IH]; simpl; [discriminate|].
  destruct (existsb (String.eqb a) supported) eqn:E.
  - intros H; injection H as <-.
    exists [], rest; repeat split; [|intros x []].
    apply existsb_exists in E; destruct E as [y [Hy Heq]].
    apply String.eqb_eq in Heq; subst y; exact Hy.
  - intros H; destruct (IH H) as [before [after [-> [Hin Hnot]]]].
    exists (a :: before), after; repeat split; [exact Hin|].
    intros x [<-|Hx]; [|auto].
    intros Hs.
    assert (Htrue : existsb (String.eqb a) supported = true).
    { apply existsb_exists; exists a; split; [exact Hs|apply String.eqb_refl]. }
    congruence.
Qed.

Lemma str_field_name_inj f g :
  String.eqb (str_field_name f) (str_field_name g) = str_field_eqb f g.
Proof. destruct f, g; reflexivity. Qed.

Lemma str_field_eqb_refl f : str_field_eqb f f = true.
Proof. destruct f; reflexivity. Qed.

(** One loop of [_set_algs] when an assignment resets the errors of its
    field: the loop returns; the other fields and their empty error lists
    are left alone; with a match the field holds the first match and has no
    error. *)
Lemma select_alg_reset f msg supported accept :
  forall att,
  exists a,
    select_alg ResetFieldErrors f msg accept (Some supported) att = inr a /\
    (forall g, str_field_eqb f g = false ->
               strs (changes a) g = strs (changes att) g) /\
    (forall name, String.eqb (str_field_name f) name = false ->
                  errs name (errors att) = [] -> errs name (errors a) = []) /\
    (forall alg, first_match accept supported = Some alg ->
                 strs (changes a) f = Some alg /\
                 errs (str_field_name f) (errors a) = []).
Proof.
  unfold first_match; induction accept as [|x rest IH]; intros att; simpl.
  - exists att; repeat split; auto; discriminate.
  - destruct (existsb (String.eqb x) supported) eqn:E.
    + exists (change_str ResetFieldErrors f x att); repeat split.
      * intros g Hg; simpl; unfold upd; rewrite Hg; reflexivity.
      * intros name _ H; simpl; apply errs_clear_nil; exact H.
      * injection H as <-; simpl; unfold upd.
        rewrite str_field_eqb_refl; reflexivity.
      * simpl; apply errs_clear_same.
    + destruct (IH (_add_error (str_field_name f) msg att))
        as [a [Hrun [Hother [Herrs Hfound]]]].
      rewrite changes_add_error in Hother.
      exists a; split; [exact Hrun|]; split; [exact Hother|].
      split; [|exact Hfound].
      intros name Hne H; apply Herrs; [exact Hne|].
      rewrite errs_add_error_other; assumption.
Qed.

(** ** Queries over the table *)

Lemma first_desc_index_In rows r :
  first_desc_index rows = Some r -> In r rows.
Proof.
  revert r; induction rows as [|x rest IH]; simpl; [discriminate|].
  intros r; destruct (first_desc_index rest) as [best|].
  - destruct (index_above best x); intros H; injection H as <-; auto.
  - intros H; injection H as <-; auto.
Qed.

Lemma first_desc_index_None rows :
  first_desc_index rows = None -> rows = [].
Proof.
  destruct rows as [|r rest]; [reflexivity|]; simpl.
  destruct (first_desc_index rest) as [best|]; [|discriminate].
  destruct (index_above best r); discriminate.
Qed.

Lemma get_In criteria db r :
  get criteria db = Some r -> In r db /\ criteria r = true.
Proof.
  unfold get; intros H; apply first_desc_index_In in H.
  apply filter_In in H; exact H.
Qed.

(** The first row in descending order of [index] has the greatest index. *)
Lemma first_desc_index_max rows r j :
  In r rows -> row_index r = Some j ->
  exists best k,
    first_desc_index rows = Some best /\ row_index best = Some k /\ j <= k.
Proof.
  induction rows as [|x rest IH]; simpl; [intros []|].
  intros [->|Hin] Hj.
  - destruct (first_desc_index rest) as [best|].
    + unfold index_above; rewrite Hj.
      destruct (row_index best) as [k|] eqn:Hk.
      * destruct (j <? k) eqn:E.
        -- exists best, k; repeat split; auto; apply Z.ltb_lt in E; lia.
        -- exists r, j; repeat split; auto; lia.
      * exists r, j; repeat split; auto; lia.
    + exists r, j; repeat split; auto; lia.
  - destruct (IH Hin Hj) as [best [k [-> [Hk Hle]]]].
    unfold index_above; rewrite Hk.
    destruct (row_index x) as [i|] eqn:Hi.
    + destruct (i <? k) eqn:E.
      * exists best, k; auto.
      * exists x, i; repeat split; auto; apply Z.ltb_ge in E; lia.
    + exists best, k; auto.
Qed.

Lemma get_last_max db id r j :
  In r db -> agent_is id r = true -> row_index r = Some j ->
  exists last k,
    get_last db id = Some last /\ row_index last = Some k /\ j <= k.
Proof.
  intros Hin Hag Hj; unfold get_last, get.
  apply first_desc_index_max with (r := r); [|exact Hj].
  apply filter_In; auto.
Qed.

(** ** Steps of the creation *)

(** [_set_ima_offset] returns when every stored row has a boot time. *)
Lemma _set_ima_offset_returns policy db att :
  (forall row, In row db -> times row boottime <> None) ->
  exists a, _set_ima_offset policy db att = inr a.
Proof.
  intros Hdb; unfold _set_ima_offset.
  destruct (times (values att) boottime) as [bt|]; [|eauto].
  destruct (previous_authenticated_attestation db att) as [prev|] eqn:E;
    [|eauto].
  assert (Hin : In prev db).
  { unfold previous_authenticated_attestation in E.
    destruct (negb (truthy_str (strs (values att) agent_id)));
      [discriminate|].
    apply get_In in E; tauto. }
  destruct (times prev boottime) as [pbt|] eqn:Hb;
    [|exfalso; exact (Hdb prev Hin Hb)].
  destruct (pbt <? bt); [eauto|].
  destruct (bt =? pbt); [eauto|].
  destruct (bt <? pbt); eauto.
Qed.

Lemma errs_change_nil policy other set name att :
  errs name (errors att) = [] ->
  errs name (errors (change policy other set att)) = [].
Proof. simpl; apply errs_on_change_nil. Qed.

Lemma _set_timestamps_errs_nil policy cfg now name att :
  errs name (errors att) = [] ->
  errs name (errors (_set_timestamps policy cfg now att)) = [].
Proof.
  intros H; unfold _set_timestamps.
  destruct (truthy_nonce (nonce (changes att)));
    match goal with
    | |- context [if ?c then _ else _] => destruct c
    end; unfold change_time; repeat apply errs_change_nil; exact H.
Qed.

Lemma _set_status_errs_nil policy name att :
  errs name (errors att) = [] ->
  errs name (errors (_set_status policy att)) = [].
Proof.
  intros H; unfold _set_status.
  destruct (is_some (status (values att)));
    match goal with
    | |- context [if ?c then _ else _] => destruct c
    end; unfold change_status; repeat apply errs_change_nil; exact H.
Qed.

Lemma negotiated_intro accept supported f a :
  (forall alg, first_match accept supported = Some alg ->
               strs (values a) f = Some alg /\
               errors_on (str_field_name f) a = []) ->
  negotiated accept supported f a.
Proof.
  intros H; split.
  - intros Hshared.
    destruct (first_match_found accept supported Hshared) as [alg Halg].
    exists alg; split; [exact Halg | apply H; exact Halg].
  - intros Herr.
    destruct (first_match accept supported) as [alg|] eqn:E.
    + destruct (H alg eq_refl) as [_ Hnil]; contradiction.
    + apply first_match_none; exact E.
Qed.

Lemma changes_then_values att f v :
  strs (changes att) f = Some v -> strs (values att) f = Some v.
Proof. intros H; unfold values, overlay; simpl; rewrite H; reflexivity. Qed.

(** The metadata updates that end [receive_capabilities] keep a selected
    algorithm and the absence of errors on its field. *)
Lemma selected_until_the_end policy cfg now a f alg :
  strs (changes a) f = Some alg ->
  errs (str_field_name f) (errors a) = [] ->
  let a' := _set_status policy (_set_timestamps policy cfg now a) in
  strs (values a') f = Some alg /\ errors_on (str_field_name f) a' = [].
Proof.
  intros Hval Herr a'; subst a'; split.
  - destruct (_set_status_frame policy (_set_timestamps policy cfg now a))
      as [_ [_ [-> _]]].
    destruct (_set_timestamps_frame policy cfg now a) as [_ [-> _]].
    apply changes_then_values; exact Hval.
  - unfold errors_on.
    apply _set_status_errs_nil, _set_timestamps_errs_nil; exact Herr.
Qed.

(** C2. When an assignment to a field resets the errors recorded for it,
    [receive_capabilities] returns a record on which, for each of the
    hashing, encryption and signing families, a common algorithm between the
    agent's accept list and the submitted supported list leads to the first
    element of the accept list that the supported list contains and to no
    error on the field; an error on the field is left only when the two
    lists have no common algorithm. *)
Theorem receive_capabilities_first_match cfg db now rnd data agent att
    sh se ss :
  status_is waiting (committed_fields att) = false ->
  (forall row, In row db -> times row boottime <> None) ->
  lists data supported_hash_algs = Some sh ->
  lists data supported_enc_algs = Some se ->
  lists data supported_sign_algs = Some ss ->
  exists a,
    receive_capabilities ResetFieldErrors cfg db now rnd data agent att
      = inr a /\
    negotiated (VerifierAgent.accept_tpm_hash_algs agent) sh hash_alg a /\
    negotiated (VerifierAgent.accept_tpm_encryption_algs agent) se enc_alg a /\
    negotiated (VerifierAgent.accept_tpm_signing_algs agent) ss sign_alg a.
Proof.
  intros Hfresh Hdb Hsh Hse Hss.
  unfold receive_capabilities; rewrite Hfresh.
  match goal with
  | |- context [_set_ima_offset _ db ?x] =>
      destruct (_set_ima_offset_returns ResetFieldErrors db x Hdb) as [a1 E1]
  end.
  rewrite E1; cbn [bind].
  unfold _set_algs; rewrite Hsh, Hse, Hss.
  match goal with
  | |- context [select_alg _ hash_alg ?msg ?acc (Some sh) a1] =>
      destruct (select_alg_reset hash_alg msg sh acc a1)
        as [a2 [R2 [O2 [N2 F2]]]]
  end.
  rewrite R2; cbn [bind].
  match goal with
  | |- context [select_alg _ enc_alg ?msg ?acc (Some se) a2] =>
      destruct (select_alg_reset enc_alg msg se acc a2)
        as [a3 [R3 [O3 [N3 F3]]]]
  end.
  rewrite R3; cbn [bind].
  match goal with
  | |- context [select_alg _ sign_alg ?msg ?acc (Some ss) a3] =>
      destruct (select_alg_reset sign_alg msg ss acc a3)
        as [a4 [R4 [O4 [N4 F4]]]]
  end.
  rewrite R4; cbn [bind].
  eexists; split; [reflexivity|].
  split; [|split]; apply negotiated_intro; intros alg Halg;
    apply selected_until_the_end.
  - rewrite (O4 hash_alg eq_refl), (O3 hash_alg eq_refl).
    apply (F2 alg Halg).
  - apply (N4 "hash_alg" eq_refl), (N3 "hash_alg" eq_refl), (F2 alg Halg).
  - rewrite (O4 enc_alg eq_refl); apply (F3 alg Halg).
  - apply (N4 "enc_alg" eq_refl), (F3 alg Halg).
  - apply (F4 alg Halg).
  - apply (F4 alg Halg).
Qed.

(** Scenario 1: the agent accepts SHA-512 and SHA-256 in this order, the TPM
    supports SHA-256 and SHA-1; SHA-256 is selected and no error is left. *)
Lemma receive_capabilities_first_match_witness :
  exists a,
    receive_capabilities ResetFieldErrors config_5 [] 0 zero_bytes
      capabilities_1000 agent_a1 empty = inr a /\
    negotiated ["sha512"; "sha256"] ["sha256"; "sha1"] hash_alg a /\
    negotiated ["rsa"] ["rsa"] enc_alg a /\
    negotiated ["rsassa"] ["rsassa"] sign_alg a.
Proof.
  apply (receive_capabilities_first_match config_5 [] 0 zero_bytes
           capabilities_1000 agent_a1 empty
           ["sha256"; "sha1"] ["rsa"] ["rsassa"]).
  - reflexivity.
  - intros row [].
  - reflexivity.
  - reflexivity.
  - reflexivity.
Defined.

(** Scenario 1 from the empty table: the record is created with SHA-256,
    without any error, and is committed. *)
Example create_scenario_1 :
  match create ResetFieldErrors config_5 [] 0 zero_bytes "a1" agent_a1
          capabilities_1000 with
  | inr a =>
      strs (values a) hash_alg = Some "sha256" /\
      ints (values a) index = Some 0 /\
      ints (values a) starting_ima_offset = Some 0 /\
      errors a = [] /\
      (exists db' a', commit_changes [] a = inr (db', a'))
  | inl _ => False
  end.
Proof. vm_compute; repeat split; eauto. Qed.

(** Without that reset the error recorded for SHA-512, which the TPM does
    not support, stays on the record of scenario 1. *)
Example create_scenario_1_keeping_errors :
  match create KeepErrors config_5 [] 0 zero_bytes "a1" agent_a1
          capabilities_1000 with
  | inr a =>
      strs (values a) hash_alg = Some "sha256" /\
      errors a =
        [("hash_alg",
          "does not contain any accepted hashing algorithm for agent 'a1'")]
  | inl _ => False
  end.
Proof. vm_compute; split; reflexivity. Qed.

(** ** C3: reception of evidence and the expiry of the nonce *)

Lemma validate_required_frame required :
  forall att,
    changes (validate_required required att) = changes att /\
    committed (validate_required required att) = committed att.
Proof.
  unfold validate_required; induction required as [|fld rest IH]; intros att;
    simpl; [split; reflexivity|].
  destruct (missing (values att) fld);
    match goal with
    | |- context [fold_left _ rest ?x] => destruct (IH x) as [-> ->]
    end; rewrite ?changes_add_error, ?committed_add_error; split;
    reflexivity.
Qed.

Lemma _validate_ima_entries_frame offset rp att :
  changes (_validate_ima_entries offset rp att) = changes att /\
  committed (_validate_ima_entries offset rp att) = committed att.
Proof.
  unfold _validate_ima_entries.
  repeat match goal with
         | |- context [if ?c then _ else _] => destruct c
         end; rewrite ?changes_add_error, ?committed_add_error; split;
    reflexivity.
Qed.

Lemma cast_changes_tpm_quote policy data att q :
  strs data tpm_quote = Some q ->
  strs (changes (cast_changes policy data evidence_fields att)) tpm_quote
  = Some q.
Proof.
  intros H; unfold cast_changes, evidence_fields; simpl; rewrite H.
  destruct (strs data ima_entries), (strs data mb_entries); reflexivity.
Qed.

Lemma _set_status_congruence policy x y :
  errors x = errors y ->
  status (values x) = status (values y) ->
  strs (changes x) tpm_quote = strs (changes y) tpm_quote ->
  errors (_set_status policy x) = errors (_set_status policy y) /\
  status (values (_set_status policy x))
  = status (values (_set_status policy y)).
Proof.
  intros He Hs Hq; unfold _set_status; rewrite Hs.
  destruct (is_some (status (values y))).
  - rewrite Hq; destruct (truthy_str (strs (changes y) tpm_quote)); cbn;
      [rewrite He; split; reflexivity | split; assumption].
  - change (strs (changes (change_status policy waiting x)) tpm_quote)
      with (strs (changes x) tpm_quote).
    change (strs (changes (change_status policy waiting y)) tpm_quote)
      with (strs (changes y) tpm_quote).
    rewrite Hq; destruct (truthy_str (strs (changes y) tpm_quote)); cbn;
      rewrite He; split; reflexivity.
Qed.

Lemma _set_timestamps_errors policy cfg now now' att :
  errors (_set_timestamps policy cfg now' att)
  = errors (_set_timestamps policy cfg now att).
Proof.
  unfold _set_timestamps.
  destruct (truthy_nonce (nonce (changes att))).
  - change (strs (changes (change_time policy nonce_expires_at
              (now + timedelta (nonce_lifetime cfg) 0)
              (change_time policy nonce_created_at now att))) tpm_quote)
      with (strs (changes att) tpm_quote).
    change (strs (changes (change_time policy nonce_expires_at
              (now' + timedelta (nonce_lifetime cfg) 0)
              (change_time policy nonce_created_at now' att))) tpm_quote)
      with (strs (changes att) tpm_quote).
    destruct (truthy_str (strs (changes att) tpm_quote)); reflexivity.
  - destruct (truthy_str (strs (changes att) tpm_quote)); reflexivity.
Qed.

(** The time of the call enters [_set_timestamps] and [_set_status] only as
    the value of the timestamps they assign. *)
Lemma metadata_whatever_the_time policy cfg now now' att :
  let a := _set_status policy (_set_timestamps policy cfg now att) in
  let a' := _set_status policy (_set_timestamps policy cfg now' att) in
  errors a' = errors a /\ status (values a') = status (values a).
Proof.
  apply _set_status_congruence.
  - apply _set_timestamps_errors.
  - destruct (_set_timestamps_frame policy cfg now att)
      as [_ [_ [_ [-> _]]]].
    destruct (_set_timestamps_frame policy cfg now' att)
      as [_ [_ [_ [-> _]]]].
    reflexivity.
  - destruct (_set_timestamps_frame policy cfg now att) as [_ [_ [-> _]]].
    destruct (_set_timestamps_frame policy cfg now' att) as [_ [_ [-> _]]].
    reflexivity.
Qed.

(** C3, as the code has it.  [receive_evidence] does not compare the time of
    the submission with [nonce_expires_at]: on a record that has not yet
    received evidence, a submission that carries a TPM quote returns with the
    status [received] and [evidence_received_at] set to the time of the
    call, and the errors it records and the status are the same at every
    time of submission. *)
Theorem receive_evidence_ignores_nonce_expiry policy cfg now data rp att :
  status_is received (committed_fields att) = false ->
  truthy_str (strs data tpm_quote) = true ->
  exists a,
    receive_evidence policy cfg now data rp att = inr a /\
    status (values a) = Some received /\
    times (values a) evidence_received_at = Some now /\
    forall now',
    exists a',
      receive_evidence policy cfg now' data rp att = inr a' /\
      errors a' = errors a /\
      status (values a') = status (values a).
Proof.
  intros Hfresh Hquote; unfold receive_evidence; rewrite Hfresh.
  destruct (strs data tpm_quote) as [q|] eqn:Hq; [|discriminate].
  set (a0 := _validate_ima_entries _ _ _).
  assert (Hch : strs (changes a0) tpm_quote = Some q).
  { subst a0.
    destruct (_validate_ima_entries_frame (ints data starting_ima_offset) rp
      (validate_required
         [StrF tpm_quote; StrF hash_alg; StrF enc_alg; StrF sign_alg]
         (cast_changes policy data evidence_fields att))) as [-> _].
    destruct (validate_required_frame
      [StrF tpm_quote; StrF hash_alg; StrF enc_alg; StrF sign_alg]
      (cast_changes policy data evidence_fields att)) as [-> _].
    apply cast_changes_tpm_quote; exact Hq. }
  exists (_set_status policy (_set_timestamps policy cfg now a0)).
  split; [reflexivity|].
  assert (Hts : strs (changes (_set_timestamps policy cfg now a0)) tpm_quote
                = Some q).
  { destruct (_set_timestamps_frame policy cfg now a0) as [_ [_ [-> _]]].
    exact Hch. }
  split; [|split].
  - unfold _set_status.
    destruct (is_some (status (values (_set_timestamps policy cfg now a0)))).
    + rewrite Hts, Hquote; reflexivity.
    + change (strs (changes (change_status policy waiting
                (_set_timestamps policy cfg now a0))) tpm_quote)
        with (strs (changes (_set_timestamps policy cfg now a0)) tpm_quote).
      rewrite Hts, Hquote; reflexivity.
  - destruct (_set_status_frame policy (_set_timestamps policy cfg now a0))
      as [_ [-> _]].
    unfold _set_timestamps.
    assert (Htq : forall x, strs (changes x) tpm_quote = Some q ->
                            truthy_str (strs (changes x) tpm_quote) = true).
    { intros x Hx; rewrite Hx; exact Hquote. }
    destruct (truthy_nonce (nonce (changes a0))).
    + rewrite Htq by exact Hch.
      unfold change_time; rewrite values_change_time; reflexivity.
    + rewrite Htq by exact Hch.
      unfold change_time; rewrite values_change_time; reflexivity.
  - intros now'.
    exists (_set_status policy (_set_timestamps policy cfg now' a0)).
    split; [reflexivity|].
    apply (metadata_whatever_the_time policy cfg now now' a0).
Qed.


(** Scenario 6 at time 10: the theorem applies to the record whose nonce
    expired at 5. *)
Lemma receive_evidence_ignores_nonce_expiry_witness :
  exists a,
    receive_evidence KeepErrors config_5 10 evidence_0 (Some runtime_policy_0)
      (fetched waiting_row) = inr a /\
    status (values a) = Some received /\
    times (values a) evidence_received_at = Some 10 /\
    forall now',
    exists a',
      receive_evidence KeepErrors config_5 now' evidence_0
        (Some runtime_policy_0) (fetched waiting_row) = inr a' /\
      errors a' = errors a /\
      status (values a') = status (values a).
Proof.
  apply (receive_evidence_ignores_nonce_expiry KeepErrors config_5 10
           evidence_0 (Some runtime_policy_0) (fetched waiting_row)).
  - reflexivity.
  - reflexivity.
Defined.

(** Scenario 6: the nonce of the waiting record expired at 5, the evidence
    arrives at 10; it is received without any error and the status does not
    remain [waiting]. *)
Lemma receive_evidence_after_expiry :
  times waiting_row nonce_expires_at = Some 5 /\
  status waiting_row = Some waiting /\
  match receive_evidence ResetFieldErrors config_5 10 evidence_0
          (Some runtime_policy_0) (fetched waiting_row),
        receive_evidence KeepErrors config_5 10 evidence_0
          (Some runtime_policy_0) (fetched waiting_row) with
  | inr a, inr a' =>
      errors a = [] /\ status (values a) = Some received /\
      errors a' = [] /\ status (values a') = Some received
  | _, _ => False
  end.
Proof. vm_compute; repeat split; reflexivity. Qed.

(** ** C4: the scheduler and the agent's gate *)

(** C4, as the code has it.  [accept_new_attestations_in] takes the agent's
    id and reads the attestation table only: whatever the agent's
    [accept_attestations] flag, it returns 0 when the agent has no
    attestation, the remaining gap when the call comes before the last
    attestation's [next_attestation_expected_after], and 0 when that time
    has passed and the last attestation is not in status [received]. *)
Theorem accept_new_attestations_in_ignores_gate cfg db now
    (agent : VerifierAgent.t) :
  let id := VerifierAgent.agent_id agent in
  (get_last db (Some id) = None ->
   accept_new_attestations_in cfg db now id = inr 0) /\
  (forall last expected,
     get_last db (Some id) = Some last ->
     next_attestation_expected_after cfg last = inr expected ->
     (now < expected ->
      accept_new_attestations_in cfg db now id = inr (expected - now)) /\
     (expected <= now -> status_is received last = false ->
      accept_new_attestations_in cfg db now id = inr 0)).
Proof.
  intros id; unfold accept_new_attestations_in; split.
  - intros ->; reflexivity.
  - intros last expected -> ->; cbn [bind]; split.
    + intros H; apply Z.ltb_lt in H; rewrite H; reflexivity.
    + intros H Hst; apply Z.ltb_ge in H; rewrite H, Hst; reflexivity.
Qed.

(** The gated agent of the scenarios, ten seconds after its last nonce was
    minted under a quote interval of 60: the wait is the remaining 50. *)
Lemma accept_new_attestations_in_ignores_gate_witness :
  VerifierAgent.accept_attestations agent_gated = false /\
  accept_new_attestations_in config_5 [waiting_row] 10 "a1" = inr 50.
Proof.
  split; [reflexivity|].
  destruct (proj2 (accept_new_attestations_in_ignores_gate config_5
                     [waiting_row] 10 agent_gated)
              waiting_row 60 eq_refl eq_refl) as [Hgap _].
  apply Hgap; lia.
Defined.

(** An agent that is gated off and has no attestation is told to wait 0,
    and one whose last attestation is recent a finite 50. *)
Lemma accept_new_attestations_in_gated_agent :
  VerifierAgent.accept_attestations agent_gated = false /\
  accept_new_attestations_in config_5 [] 10
    (VerifierAgent.agent_id agent_gated) = inr 0 /\
  accept_new_attestations_in config_5 [waiting_row] 10
    (VerifierAgent.agent_id agent_gated) = inr 50.
Proof. vm_compute; repeat split; reflexivity. Qed.

(** The remaining case: the last attestation has received its evidence,
    the quote interval has passed and the decision is still awaited.  The
    source then adds two timestamps, and the call raises.  Under a
    verification timeout of 100, at time 70 for evidence received at 3: *)
Example accept_new_attestations_in_pending_decision :
  exists msg,
    accept_new_attestations_in
      {| nonce_lifetime := 5; quote_interval := 60;
         verification_timeout := 100 |}
      [received_row "quote"] 70 "a1" = inl (TypeError msg).
Proof. eexists; vm_compute; reflexivity. Qed.

(** ** C6: the starting IMA offset *)

Lemma ints_values_new att f :
  committed att = None -> ints (values att) f = ints (changes att) f.
Proof.
  intros H; unfold values, committed_fields, overlay; rewrite H; simpl.
  destruct (ints (changes att) f); reflexivity.
Qed.

Lemma times_values_changes att f v :
  times (changes att) f = Some v -> times (values att) f = Some v.
Proof. intros H; unfold values, overlay; simpl; rewrite H; reflexivity. Qed.

Lemma strs_values_changes att f v :
  strs (changes att) f = Some v -> strs (values att) f = Some v.
Proof. intros H; unfold values, overlay; simpl; rewrite H; reflexivity. Qed.

(** *** What the other steps of a creation keep *)

Lemma keeps_refl name a : keeps name a a.
Proof. split; [|split; [|split]]; auto. Qed.

Lemma keeps_trans name a b c :
  keeps name a b -> keeps name b c -> keeps name a c.
Proof.
  intros [H1 [H2 [H3 H4]]] [K1 [K2 [K3 K4]]]; split; [|split; [|split]].
  - congruence.
  - congruence.
  - congruence.
  - intros msg H; apply K4, H4, H.
Qed.

Lemma keeps_change policy name other set att :
  String.eqb name other = false ->
  (forall d, ints (set d) = ints d) ->
  (forall d, strs (set d) agent_id = strs d agent_id) ->
  keeps name att (change policy other set att).
Proof.
  intros Hne Hi Hs; split; [|split; [|split]]; simpl; auto.
  intros msg H; apply In_on_change; assumption.
Qed.

Lemma keeps_add_error name other msg att :
  keeps name att (_add_error other msg att).
Proof.
  split; [|split; [|split]].
  - apply committed_add_error.
  - rewrite changes_add_error; reflexivity.
  - rewrite changes_add_error; reflexivity.
  - intros m H; apply In_add_error; exact H.
Qed.

Lemma keeps_change_str policy name f v att :
  String.eqb name (str_field_name f) = false ->
  str_field_eqb f agent_id = false ->
  keeps name att (change_str policy f v att).
Proof.
  intros Hn Hf; apply keeps_change; [exact Hn | reflexivity |].
  intros d; simpl; unfold upd; rewrite Hf; reflexivity.
Qed.

Lemma keeps_change_time policy name f v att :
  String.eqb name (time_field_name f) = false ->
  keeps name att (change_time policy f v att).
Proof. intros Hn; apply keeps_change; [exact Hn | reflexivity | reflexivity]. Qed.

Lemma keeps_change_list policy name f v att :
  String.eqb name (list_field_name f) = false ->
  keeps name att (change_list policy f v att).
Proof. intros Hn; apply keeps_change; [exact Hn | reflexivity | reflexivity]. Qed.

Lemma keeps_validate_required name required :
  forall att, keeps name att (validate_required required att).
Proof.
  unfold validate_required; induction required as [|fld rest IH]; intros att;
    simpl; [apply keeps_refl|].
  destruct (missing (values att) fld); [|apply IH].
  eapply keeps_trans; [apply keeps_add_error | apply IH].
Qed.

Lemma keeps__set_nonce policy name rnd att :
  String.eqb name "nonce" = false ->
  keeps name att (_set_nonce policy rnd att).
Proof.
  intros Hn; unfold _set_nonce; destruct (nonce (values att));
    [apply keeps_refl|].
  apply keeps_change; [exact Hn | reflexivity | reflexivity].
Qed.

Lemma keeps__set_timestamps policy cfg name now att :
  name = "boottime" \/ name = "starting_ima_offset" ->
  keeps name att (_set_timestamps policy cfg now att).
Proof.
  intros Hname; unfold _set_timestamps.
  destruct (truthy_nonce (nonce (changes att)));
    match goal with
    | |- context [if ?c then _ else _] => destruct c
    end;
    repeat first
      [ apply keeps_refl
      | eapply keeps_trans;
        [|apply keeps_change_time; destruct Hname; subst; reflexivity] ].
Qed.

Lemma keeps__set_status policy name att :
  name = "boottime" \/ name = "starting_ima_offset" ->
  keeps name att (_set_status policy att).
Proof.
  intros Hname.
  assert (Hs : forall s a, keeps name a (change_status policy s a)).
  { intros s a; apply keeps_change;
      [destruct Hname; subst; reflexivity | reflexivity | reflexivity]. }
  unfold _set_status.
  destruct (is_some (status (values att)));
    match goal with
    | |- context [if ?c then _ else _] => destruct c
    end;
    repeat first [ apply keeps_refl | eapply keeps_trans; [|apply Hs] ].
Qed.

(** A loop of [_set_algs] returns when the agent sent the list. *)
Lemma keeps_select_alg policy f msg sup accept :
  str_field_eqb f agent_id = false ->
  forall att,
  exists a,
    select_alg policy f msg accept (Some sup) att = inr a /\
    forall name, String.eqb name (str_field_name f) = false ->
                 keeps name att a.
Proof.
  intros Hf; induction accept as [|x rest IH]; intros att; simpl.
  - exists att; split; [reflexivity | intros; apply keeps_refl].
  - destruct (existsb (String.eqb x) sup).
    + eexists; split; [reflexivity|].
      intros name Hn; apply keeps_change_str; assumption.
    + destruct (IH (_add_error (str_field_name f) msg att)) as [a [Hrun Hk]].
      exists a; split; [exact Hrun|].
      intros name Hn; eapply keeps_trans; [apply keeps_add_error|].
      apply Hk; exact Hn.
Qed.

Lemma keeps__set_algs policy data agent att hs es ss :
  lists data supported_hash_algs = Some hs ->
  lists data supported_enc_algs = Some es ->
  lists data supported_sign_algs = Some ss ->
  exists a,
    _set_algs policy data agent att = inr a /\
    forall name, name = "boottime" \/ name = "starting_ima_offset" ->
                 keeps name att a.
Proof.
  intros Hhs Hes Hss; unfold _set_algs; rewrite Hhs, Hes, Hss.
  match goal with
  | |- context [select_alg policy hash_alg ?m ?acc (Some hs) att] =>
      destruct (keeps_select_alg policy hash_alg m hs acc eq_refl att)
        as [a1 [-> K1]]
  end; cbn [bind].
  match goal with
  | |- context [select_alg policy enc_alg ?m ?acc (Some es) a1] =>
      destruct (keeps_select_alg policy enc_alg m es acc eq_refl a1)
        as [a2 [-> K2]]
  end; cbn [bind].
  match goal with
  | |- context [select_alg policy sign_alg ?m ?acc (Some ss) a2] =>
      destruct (keeps_select_alg policy sign_alg m ss acc eq_refl a2)
        as [a3 [-> K3]]
  end.
  exists a3; split; [reflexivity|].
  intros name Hname.
  eapply keeps_trans; [|eapply keeps_trans];
    [apply K1 | apply K2 | apply K3]; destruct Hname; subst; reflexivity.
Qed.

(** The end of [receive_capabilities], after [_set_ima_offset]. *)
Lemma creation_tail policy cfg now data agent att hs es ss :
  lists data supported_hash_algs = Some hs ->
  lists data supported_enc_algs = Some es ->
  lists data supported_sign_algs = Some ss ->
  exists a,
    (a5 <- _set_algs policy data agent att ;;
     ret (_set_status policy (_set_timestamps policy cfg now a5))) = inr a /\
    forall name, name = "boottime" \/ name = "starting_ima_offset" ->
                 keeps name att a.
Proof.
  intros Hhs Hes Hss.
  destruct (keeps__set_algs policy data agent att hs es ss Hhs Hes Hss)
    as [a5 [-> K5]]; cbn [bind].
  eexists; split; [reflexivity|].
  intros name Hname.
  eapply keeps_trans; [apply K5, Hname|].
  eapply keeps_trans;
    [apply keeps__set_timestamps | apply keeps__set_status]; exact Hname.
Qed.

(** The previous authenticated attestation of a record depends on its
    agent and its index only. *)
Lemma previous_authenticated_attestation_ext db a b :
  committed b = committed a ->
  ints (changes b) index = ints (changes a) index ->
  strs (changes b) agent_id = strs (changes a) agent_id ->
  previous_authenticated_attestation db b
  = previous_authenticated_attestation db a.
Proof.
  intros Hc Hi Hs; unfold previous_authenticated_attestation; cbv zeta.
  assert (Hid : strs (values b) agent_id = strs (values a) agent_id).
  { unfold values, committed_fields, overlay; simpl; rewrite Hc, Hs.
    reflexivity. }
  assert (Hidx : ints (values b) index = ints (values a) index).
  { unfold values, committed_fields, overlay; simpl; rewrite Hc, Hi.
    reflexivity. }
  rewrite Hid, Hidx; reflexivity.
Qed.

Lemma previous_authenticated_attestation_In db att prev :
  previous_authenticated_attestation db att = Some prev ->
  In prev db /\ agent_is (strs (values att) agent_id) prev = true.
Proof.
  unfold previous_authenticated_attestation; cbv zeta.
  destruct (negb (truthy_str (strs (values att) agent_id)));
    [discriminate|].
  intros H; apply get_In in H; destruct H as [Hin Hcrit].
  split; [exact Hin|].
  apply andb_true_iff in Hcrit; destruct Hcrit as [Hcrit _].
  apply andb_true_iff in Hcrit; destruct Hcrit as [Hcrit _].
  apply andb_true_iff in Hcrit; destruct Hcrit as [Hcrit _].
  exact Hcrit.
Qed.

(** An agent without a last attestation has no previous authenticated
    attestation. *)
Lemma no_previous_without_last db att :
  get_last db (strs (values att) agent_id) = None ->
  previous_authenticated_attestation db att = None.
Proof.
  intros Hlast.
  destruct (previous_authenticated_attestation db att) as [prev|] eqn:Hprev;
    [|reflexivity].
  apply previous_authenticated_attestation_In in Hprev.
  destruct Hprev as [Hin Hagent].
  unfold get_last, get in Hlast; apply first_desc_index_None in Hlast.
  assert (Hf : In prev (filter (agent_is (strs (values att) agent_id)) db))
    by (apply filter_In; split; assumption).
  rewrite Hlast in Hf; destruct Hf.
Qed.

(** A record with an error is not committed. *)
Lemma super_commit_changes_invalid att db :
  changes_valid att = false -> exists e, super_commit_changes att db = inl e.
Proof.
  intros H; unfold super_commit_changes; rewrite H; simpl.
  eexists; reflexivity.
Qed.

Lemma commit_changes_invalid db att :
  changes_valid att = false -> exists e, commit_changes db att = inl e.
Proof.
  intros H; unfold commit_changes.
  destruct (status_is waiting (values att));
    [|apply super_commit_changes_invalid, H].
  destruct (get_last db (strs (values att) agent_id)) as [last|];
    [|apply super_commit_changes_invalid, H].
  destruct (row_index last) as [li|]; [|eexists; reflexivity].
  destruct (ints (values att) index) as [i|]; [|eexists; reflexivity].
  destruct (i <=? li); [eexists; reflexivity|].
  apply super_commit_changes_invalid, H.
Qed.

Lemma In_invalid e att : In e (errors att) -> changes_valid att = false.
Proof.
  unfold changes_valid; destruct (errors att); [intros []|reflexivity].
Qed.

Lemma In_errors_on name msg att :
  In (name, msg) (errors att) -> errors_on name att <> [].
Proof.
  intros H Hnil; apply In_errs in H; unfold errors_on in Hnil.
  rewrite Hnil in H; exact H.
Qed.

(** The request body of a creation, as [cast_changes] reads it. *)
Lemma cast_capabilities policy data att bt hs es ss :
  times data boottime = Some bt ->
  lists data supported_hash_algs = Some hs ->
  lists data supported_enc_algs = Some es ->
  lists data supported_sign_algs = Some ss ->
  cast_changes policy data capability_fields att
  = change_list policy supported_sign_algs ss
      (change_list policy supported_hash_algs hs
         (change_list policy supported_enc_algs es
            (change_time policy boottime bt att))).
Proof.
  intros Hbt Hhs Hes Hss; unfold cast_changes, capability_fields.
  cbn [fold_left cast_change]; rewrite Hbt, Hes, Hhs, Hss; reflexivity.
Qed.

(** [initialise] on an empty record, when the rows of the table have an
    index. *)
Lemma initialise_empty policy cfg db now id :
  (forall row, In row db -> row_index row <> None) ->
  exists a,
    initialise policy cfg db now id empty = inr a /\
    committed a = None /\
    strs (changes a) agent_id = Some id /\
    ints (changes a) starting_ima_offset = None.
Proof.
  intros Hrows; unfold initialise; cbn [empty committed is_some].
  unfold _set_index.
  change (truthy_int
            (ints (committed_fields (change_str policy agent_id id empty))
               index)) with false.
  change (strs (values (change_str policy agent_id id empty)) agent_id)
    with (Some id).
  cbv iota.
  destruct (get_last db (Some id)) as [last|] eqn:Hlast.
  - apply get_In in Hlast; destruct Hlast as [Hin _].
    destruct (row_index last) as [i|] eqn:Hi;
      [|exfalso; exact (Hrows last Hin Hi)].
    cbn [bind ret]; eexists; split; [reflexivity|].
    split; [|split]; reflexivity.
  - cbn [bind ret]; eexists; split; [reflexivity|].
    split; [|split]; reflexivity.
Qed.

(** [receive_capabilities] on a record under creation: it returns, it
    keeps the agent and the index of the record, and it leaves the offset
    that [_set_ima_offset] computed, or the error that it recorded. *)
Lemma receive_capabilities_offset policy cfg db now rnd data agent att
    bt hs es ss :
  committed att = None ->
  ints (changes att) starting_ima_offset = None ->
  times data boottime = Some bt ->
  lists data supported_hash_algs = Some hs ->
  lists data supported_enc_algs = Some es ->
  lists data supported_sign_algs = Some ss ->
  (forall row, In row db -> times row boottime <> None) ->
  exists a,
    receive_capabilities policy cfg db now rnd data agent att = inr a /\
    committed a = None /\
    strs (changes a) agent_id = strs (changes att) agent_id /\
    ints (changes a) index = ints (changes att) index /\
    match previous_authenticated_attestation db att with
    | None => ints (changes a) starting_ima_offset = Some 0
    | Some prev =>
        exists pbt,
          times prev boottime = Some pbt /\
          (pbt < bt -> ints (changes a) starting_ima_offset = Some 0) /\
          (bt = pbt ->
           match next_ima_offset prev with
           | Some n => ints (changes a) starting_ima_offset = Some n
           | None =>
               ints (changes a) starting_ima_offset = None /\
               In ("starting_ima_offset", "cannot be null") (errors a)
           end) /\
          (bt < pbt ->
           ints (changes a) starting_ima_offset = None /\
           In ("boottime",
               "must be equal to or greater than the boot time of last attestation")
              (errors a))
    end.
Proof.
  intros Hc Hoff Hbt Hhs Hes Hss Hrows; unfold receive_capabilities.
  assert (Hw : status_is waiting (committed_fields att) = false)
    by (unfold committed_fields; rewrite Hc; reflexivity).
  rewrite Hw; cbv zeta.
  rewrite (cast_capabilities policy data att bt hs es ss Hbt Hhs Hes Hss).
  set (a1 := change_list policy supported_sign_algs ss _).
  set (a3 := _set_nonce policy rnd (validate_required capability_fields a1)).
  assert (K1 : keeps "starting_ima_offset" att a1).
  { subst a1.
    repeat first
      [ apply keeps_refl
      | eapply keeps_trans; [|apply keeps_change_list; reflexivity]
      | eapply keeps_trans; [|apply keeps_change_time; reflexivity] ]. }
  assert (K3 : keeps "starting_ima_offset" att a3).
  { eapply keeps_trans; [exact K1|].
    eapply keeps_trans;
      [apply keeps_validate_required | apply keeps__set_nonce; reflexivity]. }
  assert (Hbt3 : times (values a3) boottime = Some bt).
  { apply times_values_changes; subst a3; unfold _set_nonce.
    destruct (nonce (values (validate_required capability_fields a1)));
      [|cbn [change_nonce change changes set_nonce times]];
      rewrite (proj1 (validate_required_frame capability_fields a1));
      reflexivity. }
  destruct K3 as [Hc3 [Hi3 [Hs3 _]]].
  assert (Hoff3 : ints (changes a3) starting_ima_offset = None)
    by (rewrite Hi3; exact Hoff).
  assert (Hprev3 : previous_authenticated_attestation db a3
                   = previous_authenticated_attestation db att).
  { apply previous_authenticated_attestation_ext;
      [exact Hc3 | rewrite Hi3; reflexivity | exact Hs3]. }
  clearbody a3; clear a1 K1.
  unfold _set_ima_offset; rewrite Hbt3, Hprev3.
  assert (Hend : forall a4 (P : PushAttestation -> Prop),
    committed a4 = committed a3 ->
    strs (changes a4) agent_id = strs (changes a3) agent_id ->
    ints (changes a4) index = ints (changes a3) index ->
    (forall a, ints (changes a) = ints (changes a4) ->
               (forall name msg,
                  name = "boottime" \/ name = "starting_ima_offset" ->
                  In (name, msg) (errors a4) -> In (name, msg) (errors a)) ->
               P a) ->
    exists a,
      (a <- ret a4 ;;
       a5 <- _set_algs policy data agent a ;;
       ret (_set_status policy (_set_timestamps policy cfg now a5)))
      = inr a /\
      committed a = None /\
      strs (changes a) agent_id = strs (changes att) agent_id /\
      ints (changes a) index = ints (changes att) index /\
      P a).
  { intros a4 P Hc4 Hs4 Hi4 HP; cbn [bind ret].
    destruct (creation_tail policy cfg now data agent a4 hs es ss
                Hhs Hes Hss) as [a [Hrun K]].
    exists a; split; [exact Hrun|].
    destruct (K "boottime" (or_introl eq_refl)) as [Kc [Ki [Ks Kb]]].
    destruct (K "starting_ima_offset" (or_intror eq_refl))
      as [_ [_ [_ Ko]]].
    split; [congruence|]; split; [congruence|]; split;
      [rewrite Ki, Hi4, Hi3; reflexivity|].
    apply HP; [exact Ki|].
    intros name msg [-> | ->]; [apply Kb | apply Ko]. }
  assert (Hset : forall v,
    ints (changes (change_int policy starting_ima_offset (Some v) a3))
      starting_ima_offset = Some v) by reflexivity.
  destruct (previous_authenticated_attestation db att) as [prev|] eqn:Hprev.
  - apply previous_authenticated_attestation_In in Hprev.
    destruct Hprev as [Hin _].
    destruct (times prev boottime) as [pbt|] eqn:Hpbt;
      [|exfalso; exact (Hrows prev Hin Hpbt)].
    destruct (pbt <? bt) eqn:E1.
    + apply Z.ltb_lt in E1.
      apply Hend; [reflexivity | reflexivity | reflexivity |].
      intros a Hi _; exists pbt; split; [reflexivity|].
      split; [|split]; [intros _ | (intros; lia) | (intros; lia)].
      rewrite Hi; reflexivity.
    + apply Z.ltb_ge in E1.
      destruct (bt =? pbt) eqn:E2.
      * apply Z.eqb_eq in E2.
        destruct (next_ima_offset prev) as [n|] eqn:Hnext.
        -- apply Hend; [reflexivity | reflexivity | reflexivity |].
           intros a Hi _; exists pbt; split; [reflexivity|].
           split; [|split]; [(intros; lia) | intros _ | (intros; lia)].
           rewrite Hi; reflexivity.
        -- unfold change_int.
           apply Hend;
             [ rewrite committed_add_error; reflexivity
             | rewrite changes_add_error; reflexivity
             | rewrite changes_add_error; reflexivity |].
           intros a Hi He; exists pbt; split; [reflexivity|].
           split; [|split]; [(intros; lia) | intros _ | (intros; lia)].
           split.
           ++ rewrite Hi, changes_add_error; reflexivity.
           ++ apply He; [right; reflexivity | apply In_add_error_new].
      * apply Z.eqb_neq in E2.
        assert (Hlt : (bt <? pbt) = true) by (apply Z.ltb_lt; lia).
        rewrite Hlt.
        apply Hend;
          [ rewrite committed_add_error; reflexivity
          | rewrite changes_add_error; reflexivity
          | rewrite changes_add_error; reflexivity |].
        intros a Hi He; exists pbt; split; [reflexivity|].
        split; [|split]; [(intros; lia) | (intros; lia) | intros _].
        split.
        -- rewrite Hi, changes_add_error; exact Hoff3.
        -- apply He; [left; reflexivity | apply In_add_error_new].
  - apply Hend; [reflexivity | reflexivity | reflexivity |].
    intros a Hi _; rewrite Hi; reflexivity.
Qed.

(** C6, as the code has it.  [create] returns, for a request that carries
    a boot time and the three lists of supported algorithms, on a table
    whose rows have an index and a boot time.  The [starting_ima_offset]
    of the new record follows from its previous authenticated
    attestation.  Without one it is 0, except for the first attestation
    of an agent, which has no attestation stored: it starts at the
    agent's [next_ima_ml_entry] when that is set.  With a boot time
    strictly greater than that of the previous authenticated attestation
    it is 0.  With the same boot time it is the sum of that attestation's
    [starting_ima_offset] and [quoted_ima_entries_count]; should one of
    the two be missing, no offset is assigned and the record is
    rejected.  With a boot time strictly less, no offset is assigned, an
    error is recorded on [boottime] and the creation is rejected: no
    table accepts the record. *)
Theorem starting_ima_offset_of_new_attestation
    policy cfg db now rnd id agent data bt hs es ss :
  VerifierAgent.agent_id agent = id ->
  times data boottime = Some bt ->
  lists data supported_hash_algs = Some hs ->
  lists data supported_enc_algs = Some es ->
  lists data supported_sign_algs = Some ss ->
  (forall row, In row db ->
               row_index row <> None /\ times row boottime <> None) ->
  exists a,
    create policy cfg db now rnd id agent data = inr a /\
    match previous_authenticated_attestation db a with
    | None =>
        ints (values a) starting_ima_offset =
          match get_last db (Some id),
                VerifierAgent.next_ima_ml_entry agent with
          | None, Some n => Some n
          | _, _ => Some 0
          end
    | Some prev =>
        exists pbt,
          times prev boottime = Some pbt /\
          (pbt < bt -> ints (values a) starting_ima_offset = Some 0) /\
          (bt = pbt ->
           match ints prev starting_ima_offset,
                 ints prev quoted_ima_entries_count with
           | Some s, Some c =>
               ints (values a) starting_ima_offset = Some (s + c)
           | _, _ =>
               ints (values a) starting_ima_offset = None /\
               errors_on "starting_ima_offset" a <> [] /\
               forall db', exists e, commit_changes db' a = inl e
           end) /\
          (bt < pbt ->
           ints (values a) starting_ima_offset = None /\
           errors_on "boottime" a <> [] /\
           forall db', exists e, commit_changes db' a = inl e)
    end.
Proof.
  intros Hid Hbt Hhs Hes Hss Hrows.
  destruct (initialise_empty policy cfg db now id)
    as [a0 [Hinit [Hc0 [Hid0 Hoff0]]]];
    [intros row Hin; apply (Hrows row Hin)|].
  destruct (receive_capabilities_offset policy cfg db now rnd data agent a0
              bt hs es ss Hc0 Hoff0 Hbt Hhs Hes Hss)
    as [a [Hrun [Hc [Hag [Hidx Hcases]]]]];
    [intros row Hin; apply (Hrows row Hin)|].
  assert (Hprev : previous_authenticated_attestation db a
                  = previous_authenticated_attestation db a0).
  { apply previous_authenticated_attestation_ext;
      [rewrite Hc, Hc0; reflexivity | exact Hidx | exact Hag]. }
  assert (Hrejected : forall msg name,
    In (name, msg) (errors a) ->
    errors_on name a <> [] /\
    forall db', exists e, commit_changes db' a = inl e).
  { intros msg name Hin; split; [exact (In_errors_on _ _ _ Hin)|].
    intros db'; apply commit_changes_invalid.
    exact (In_invalid _ _ Hin). }
  assert (Hsome : match previous_authenticated_attestation db a0 with
                  | None => True
                  | Some prev =>
                      exists pbt,
                        times prev boottime = Some pbt /\
                        (pbt < bt ->
                         ints (values a) starting_ima_offset = Some 0) /\
                        (bt = pbt ->
                         match ints prev starting_ima_offset,
                               ints prev quoted_ima_entries_count with
                         | Some s, Some c =>
                             ints (values a) starting_ima_offset
                             = Some (s + c)
                         | _, _ =>
                             ints (values a) starting_ima_offset = None /\
                             errors_on "starting_ima_offset" a <> [] /\
                             forall db',
                               exists e, commit_changes db' a = inl e
                         end) /\
                        (bt < pbt ->
                         ints (values a) starting_ima_offset = None /\
                         errors_on "boottime" a <> [] /\
                         forall db', exists e, commit_changes db' a = inl e)
                  end).
  { destruct (previous_authenticated_attestation db a0) as [prev|];
      [|exact I].
    destruct Hcases as [pbt [Hpbt [H1 [H2 H3]]]].
    exists pbt; split; [exact Hpbt|].
    rewrite (ints_values_new a starting_ima_offset Hc).
    split; [exact H1|]; split.
    - intros Heq; specialize (H2 Heq); unfold next_ima_offset in H2.
      destruct (ints prev starting_ima_offset) as [s|];
        [destruct (ints prev quoted_ima_entries_count) as [c|]|];
        [ exact H2
        | destruct H2 as [Hn He]; split; [exact Hn | exact (Hrejected _ _ He)]
        | destruct H2 as [Hn He]; split; [exact Hn | exact (Hrejected _ _ He)] ].
    - intros Hlt; destruct (H3 Hlt) as [Hn He].
      split; [exact Hn | exact (Hrejected _ _ He)]. }
  unfold create.
  destruct (get_last db (Some id)) as [last|] eqn:Hlast.
  - rewrite Hinit; cbn [bind]; rewrite Hrun.
    exists a; split; [reflexivity|]; rewrite Hprev.
    destruct (previous_authenticated_attestation db a0) as [prev|];
      [exact Hsome|].
    rewrite (ints_values_new a starting_ima_offset Hc).
    destruct (VerifierAgent.next_ima_ml_entry agent); exact Hcases.
  - assert (Hnone : previous_authenticated_attestation db a0 = None).
    { apply no_previous_without_last.
      rewrite (strs_values_changes a0 agent_id id Hid0); exact Hlast. }
    rewrite Hnone in Hcases, Hprev.
    unfold create_from_agent; rewrite Hid, Hinit; cbn [bind]; rewrite Hrun;
      cbn [bind].
    destruct (VerifierAgent.next_ima_ml_entry agent) as [n|].
    + destruct (truthy_int (Some n)) eqn:Hn.
      * eexists; split; [reflexivity|].
        rewrite (previous_authenticated_attestation_ext db a
                   (change_int policy starting_ima_offset (Some n) a)
                   eq_refl eq_refl eq_refl), Hprev.
        rewrite ints_values_new by exact Hc; reflexivity.
      * exists a; split; [reflexivity|]; rewrite Hprev.
        rewrite ints_values_new by exact Hc; rewrite Hcases.
        unfold truthy_int in Hn; apply negb_false_iff, Z.eqb_eq in Hn.
        rewrite Hn; reflexivity.
    + exists a; split; [reflexivity|]; rewrite Hprev.
      rewrite ints_values_new by exact Hc; exact Hcases.
Qed.

(** Scenario 3: record 0 was verified with 125 IMA entries from offset 0;
    the next record of the same boot starts at 125. *)
Lemma starting_ima_offset_of_new_attestation_witness :
  exists a,
    create KeepErrors config_5 [verified_row_0] 100 zero_bytes "a1" agent_a1
      capabilities_1000 = inr a /\
    ints (values a) starting_ima_offset = Some (0 + 125).
Proof.
  destruct (starting_ima_offset_of_new_attestation KeepErrors config_5
              [verified_row_0] 100 zero_bytes "a1" agent_a1
              capabilities_1000 1000 ["sha256"; "sha1"] ["rsa"] ["rsassa"]
              eq_refl eq_refl eq_refl eq_refl eq_refl)
    as [a [Hrun H]].
  - intros row [<- | []]; split; discriminate.
  - exists a; split; [exact Hrun|].
    vm_compute in Hrun; apply ret_inj in Hrun; subst a.
    vm_compute in H; destruct H as [pbt [Hpbt [_ [Hsame _]]]].
    injection Hpbt as <-.
    exact (Hsame eq_refl).
Defined.

(** A record that reports a boot time before that of the previous
    authenticated attestation is created with an error, and no table
    accepts it. *)
Example creation_with_earlier_boottime policy :
  match create policy config_5 [verified_row_0] 100 zero_bytes "a1" agent_a1
          (set_time boottime 999 capabilities_1000) with
  | inr a =>
      ints (values a) starting_ima_offset = None /\
      errors_on "boottime" a =
        ["must be equal to or greater than the boot time of last attestation"] /\
      (exists e, commit_changes [verified_row_0] a = inl e) /\
      (exists e, commit_changes [] a = inl e)
  | inl _ => False
  end.
Proof.
  destruct policy; vm_compute;
    (split; [reflexivity|]; split; [reflexivity|]; split; eexists;
     reflexivity).
Qed.

(** The first attestation of an agent that comes from pull mode with
    [next_ima_ml_entry = 125]: no previous authenticated attestation
    exists, and the record starts at 125, not at 0. *)
Lemma first_attestation_of_migrated_agent :
  VerifierAgent.next_ima_ml_entry agent_migrated = Some 125 /\
  match create KeepErrors config_5 [] 0 zero_bytes "a1" agent_migrated
          capabilities_1000,
        create ResetFieldErrors config_5 [] 0 zero_bytes "a1" agent_migrated
          capabilities_1000 with
  | inr a, inr a' =>
      previous_authenticated_attestation [] a = None /\
      ints (values a) index = Some 0 /\
      ints (values a) starting_ima_offset = Some 125 /\
      ints (values a') starting_ima_offset = Some 125 /\
      errors a' = []
  | _, _ => False
  end.
Proof. vm_compute; repeat split; reflexivity. Qed.

(** ** C7: the previous successful attestation *)

(** C7.  With records 0 and 1 of an agent both verified, the query for the
    previous successful attestation returns record 1 for record 0, a later
    record, and record 1 for record 1, the record itself: it has no
    criterion on the index.  The query for the previous authenticated
    attestation, which has the criterion [index < self.index], returns
    record 0 for record 1 and nothing for record 0. *)
Theorem previous_successful_attestation_ignores_index :
  let db := [verified_row_0; verified_row_1] in
  option_map row_index
    (previous_successful_attestation db (fetched verified_row_0))
  = Some (Some 1) /\
  option_map row_index
    (previous_successful_attestation db (fetched verified_row_1))
  = Some (Some 1) /\
  option_map row_index
    (previous_authenticated_attestation db (fetched verified_row_1))
  = Some (Some 0) /\
  option_map row_index
    (previous_authenticated_attestation db (fetched verified_row_0))
  = None.
Proof. vm_compute; repeat split; reflexivity. Qed.

(** ** C5: the failure type *)

(** The first event that is an invalid measured boot PCR or an IMA PCR
    mismatch, with no quote validation event before it, makes the failure
    a [log_authentication]. *)
Lemma classify_log_authentication before e rest :
  (forall x, In x before ->
             event_id x <> "quote_validation.quote_validation") ->
  (String.prefix "measured_boot.invalid_pcr_" (event_id e) = true \/
   event_id e = "ima.pcr_mismatch") ->
  classify (before ++ e :: rest)%list = log_authentication.
Proof.
  intros Hbefore He; induction before as [|x before IH]; cbn [app classify].
  - destruct (String.eqb (event_id e) "quote_validation.quote_validation")
      eqn:E.
    + apply String.eqb_eq in E; destruct He as [He|He]; rewrite E in He;
        [vm_compute in He|]; discriminate.
    + destruct He as [He|He]; rewrite He; reflexivity.
  - destruct (String.eqb (event_id x) "quote_validation.quote_validation")
      eqn:E.
    + apply String.eqb_eq in E; exfalso.
      exact (Hbefore x (or_introl eq_refl) E).
    + destruct (String.prefix "measured_boot.invalid_pcr_" (event_id x));
        [reflexivity|].
      destruct (String.eqb (event_id x) "ima.pcr_mismatch"); [reflexivity|].
      apply IH; intros y Hy; apply Hbefore; right; exact Hy.
Qed.

(** C5, as the code has it.  For a failure whose events include an
    invalid measured boot PCR or an IMA PCR mismatch with no quote
    validation event before it, [_set_failure_type] assigns
    [log_authentication].  The schema does not admit that value for the
    field: on a record without a failure type the field stays unset, an
    error is recorded on it, and no table accepts the record. *)
Theorem log_authentication_outside_schema policy att before e rest :
  (forall x, In x before ->
             event_id x <> "quote_validation.quote_validation") ->
  (String.prefix "measured_boot.invalid_pcr_" (event_id e) = true \/
   event_id e = "ima.pcr_mismatch") ->
  failure_type (values att) = None ->
  let failure := (before ++ e :: rest)%list in
  let a := _set_failure_type policy failure att in
  classify failure = log_authentication /\
  ~ In log_authentication failure_type_permitted /\
  failure_type (values a) = None /\
  errors_on "failure_type" a <> [] /\
  forall db, exists err, commit_changes db a = inl err.
Proof.
  intros Hbefore He Hunset failure a.
  assert (Hclass : classify failure = log_authentication)
    by (apply classify_log_authentication; assumption).
  assert (Ha : a = _add_error "failure_type" "is not a permitted value"
                     (change policy "failure_type" (fun d => d) att)).
  { subst a; unfold _set_failure_type; rewrite Hclass; subst failure.
    destruct before; reflexivity. }
  split; [exact Hclass|]; split; [|rewrite Ha; split; [|split]].
  - unfold failure_type_permitted; simpl.
    intros [H|[H|[]]]; discriminate.
  - rewrite values_add_error; exact Hunset.
  - apply errs_add_error_same.
  - intros db; apply commit_changes_invalid, changes_valid_add_error.
Qed.

(** A record that received its evidence, and the failure of an IMA log
    that does not match the quote. *)
Lemma log_authentication_outside_schema_witness :
  let a := _set_failure_type KeepErrors [mkEvent "ima.pcr_mismatch" "log"]
             (fetched (received_row "other-log")) in
  failure_type (values a) = None /\
  errors_on "failure_type" a <> [] /\
  forall db, exists err, commit_changes db a = inl err.
Proof.
  destruct (log_authentication_outside_schema KeepErrors
              (fetched (received_row "other-log")) []
              (mkEvent "ima.pcr_mismatch" "log") [])
    as [_ [_ H]].
  - intros x [].
  - right; reflexivity.
  - reflexivity.
  - exact H.
Defined.

(** The run of [verify_evidence] on such evidence: the commit at its end
    raises, and the record is not stored as failed. *)
Example verify_evidence_log_mismatch policy :
  exists err,
    toy_verify_evidence policy [received_row "other-log"] agent_a1
      (fetched (received_row "other-log")) = inl err.
Proof. destruct policy; vm_compute; eexists; reflexivity. Qed.

(** ** C9: committing a record that waits for evidence *)

(** C9.  Committing a record in status [waiting] raises an error, and so
    inserts nothing, whenever the table holds a record of the same agent
    whose index is greater than or equal to the index of the record. *)
Theorem commit_changes_rejects_taken_index db att row i j :
  status_is waiting (values att) = true ->
  ints (values att) index = Some i ->
  In row db ->
  agent_is (strs (values att) agent_id) row = true ->
  row_index row = Some j ->
  i <= j ->
  commit_changes db att
  = inl (ValueError (mid_creation_message (strs (values att) agent_id))).
Proof.
  intros Hw Hi Hin Hagent Hj Hle; unfold commit_changes; rewrite Hw.
  destruct (get_last_max db (strs (values att) agent_id) row j Hin Hagent Hj)
    as [last [k [-> [Hk Hjk]]]].
  rewrite Hk, Hi.
  assert (Hik : (i <=? k) = true) by (apply Z.leb_le; lia).
  rewrite Hik; reflexivity.
Qed.

(** Record 0 of agent [a1] is in the table; a second record with index 0,
    under creation at the same time, is not committed. *)
Lemma commit_changes_rejects_taken_index_witness :
  commit_changes [verified_row_0]
    (change_status KeepErrors waiting (new_attestation 0 1000))
  = inl (ValueError
           "An attestation for agent 'a1' was created while another was mid-creation").
Proof.
  apply (commit_changes_rejects_taken_index [verified_row_0]
           (change_status KeepErrors waiting (new_attestation 0 1000))
           verified_row_0 0 0).
  - reflexivity.
  - reflexivity.
  - left; reflexivity.
  - reflexivity.
  - reflexivity.
  - lia.
Defined.

(** ** C10: IMA entries without a runtime policy *)

Lemma In_change policy other set name msg att :
  String.eqb name other = false ->
  In (name, msg) (errors att) ->
  In (name, msg) (errors (change policy other set att)).
Proof. intros Hne Hin; simpl; apply In_on_change; assumption. Qed.

Lemma _set_timestamps_keeps_not_expected policy cfg now att :
  In not_expected (errors att) ->
  In not_expected (errors (_set_timestamps policy cfg now att)).
Proof.
  intros H; unfold _set_timestamps, not_expected in *.
  destruct (truthy_nonce (nonce (changes att)));
    match goal with
    | |- context [if ?c then _ else _] => destruct c
    end; unfold change_time;
    repeat (apply In_change; [reflexivity|]); exact H.
Qed.

Lemma _set_status_keeps_not_expected policy att :
  In not_expected (errors att) ->
  In not_expected (errors (_set_status policy att)).
Proof.
  intros H; unfold _set_status, not_expected in *.
  destruct (is_some (status (values att)));
    match goal with
    | |- context [if ?c then _ else _] => destruct c
    end; unfold change_status;
    repeat (apply In_change; [reflexivity|]); exact H.
Qed.

Lemma _validate_ima_entries_not_expected offset att :
  truthy_str (strs (values att) ima_entries) = true ->
  In not_expected (errors (_validate_ima_entries offset None att)).
Proof.
  intros H; unfold _validate_ima_entries, not_expected.
  cbn [is_some andb negb]; rewrite H; cbn [andb].
  repeat match goal with
         | |- context [if ?c then _ else _] => destruct c
         end;
    repeat first [apply In_add_error_new | apply In_add_error].
Qed.

(** C10.  When [receive_evidence] is given IMA entries for an agent that
    has no runtime policy, on a record that has not already received
    evidence, it returns a record with the error "is not expected according
    to agent policy" on [ima_entries], whose changes are not valid. *)
Theorem unexpected_ima_entries_rejected policy cfg now data att ima :
  status_is received (committed_fields att) = false ->
  strs data ima_entries = Some ima ->
  ima <> "" ->
  exists a,
    receive_evidence policy cfg now data None att = inr a /\
    In "is not expected according to agent policy"
       (errors_on "ima_entries" a) /\
    changes_valid a = false.
Proof.
  intros Hfresh Hima Hne; unfold receive_evidence; rewrite Hfresh.
  eexists; split; [reflexivity|].
  match goal with
  | |- context [_validate_ima_entries ?off None ?a0] =>
      assert (Hin : In not_expected
                      (errors (_validate_ima_entries off None a0)))
  end.
  { apply _validate_ima_entries_not_expected.
    match goal with
    | |- context [validate_required ?l ?a] =>
        assert (Hch : strs (changes (validate_required l a)) ima_entries
                      = Some ima)
    end.
    { destruct (validate_required_frame
        [StrF tpm_quote; StrF hash_alg; StrF enc_alg; StrF sign_alg]
        (cast_changes policy data evidence_fields att)) as [-> _].
      unfold cast_changes, evidence_fields; simpl; rewrite Hima.
      destruct (strs data tpm_quote), (strs data mb_entries); reflexivity. }
    rewrite (changes_then_values _ _ _ Hch).
    unfold truthy_str.
    destruct (String.eqb ima "") eqn:E; [|reflexivity].
    apply String.eqb_eq in E; contradiction. }
  apply _set_timestamps_keeps_not_expected with (policy := policy)
    (cfg := cfg) (now := now) in Hin.
  apply _set_status_keeps_not_expected with (policy := policy) in Hin.
  split.
  - unfold errors_on; apply In_errs; exact Hin.
  - unfold changes_valid.
    destruct (errors (_set_status policy _)); [destruct Hin | reflexivity].
Qed.

(** Evidence with an IMA log for a record of an agent without a runtime
    policy. *)
Lemma unexpected_ima_entries_rejected_witness :
  exists a,
    receive_evidence KeepErrors config_5 1 evidence_0 None
      (fetched waiting_row) = inr a /\
    In "is not expected according to agent policy"
       (errors_on "ima_entries" a) /\
    changes_valid a = false.
Proof.
  apply (unexpected_ima_entries_rejected KeepErrors config_5 1 evidence_0
           (fetched waiting_row)
           "10 0000 ima-ng sha256:0000 boot_aggregate").
  - reflexivity.
  - reflexivity.
  - discriminate.
Defined.

(** ** C8: the learned keyrings after a verification *)

Lemma super_commit_changes_object att db db' a :
  super_commit_changes att db = inr (db', a) -> a = fetched (values att).
Proof.
  unfold super_commit_changes.
  destruct (negb (changes_valid att)); [discriminate|].
  destruct (committed att); [|destruct (existsb _ db)]; intros H;
    try discriminate; injection H as _ <-; reflexivity.
Qed.

(** Only a record without errors is committed. *)
Lemma commit_changes_valid db att db' a :
  commit_changes db att = inr (db', a) -> changes_valid att = true.
Proof.
  intros H; destruct (changes_valid att) eqn:E; [reflexivity|].
  destruct (commit_changes_invalid db att E) as [e He].
  rewrite He in H; discriminate.
Qed.

Lemma commit_changes_object db att db' a :
  commit_changes db att = inr (db', a) ->
  status (values a) = status (values att) /\
  failure_type (values a) = failure_type (values att).
Proof.
  intros H.
  assert (Hobj : a = fetched (values att)).
  { unfold commit_changes in H.
    destruct (status_is waiting (values att));
      [|exact (super_commit_changes_object _ _ _ _ H)].
    destruct (get_last db (strs (values att) agent_id)) as [last|];
      [|exact (super_commit_changes_object _ _ _ _ H)].
    destruct (row_index last); [|discriminate].
    destruct (ints (values att) index) as [i|]; [|discriminate].
    destruct (i <=? z); [discriminate|].
    exact (super_commit_changes_object _ _ _ _ H). }
  subst a; unfold values, or_else, committed_fields; cbn.
  destruct (status (changes att)), (failure_type (changes att));
    split; reflexivity.
Qed.

Lemma _clear_agent_fields_learned db att agent :
  VerifierAgent.learned_ima_keyrings (_clear_agent_fields db att agent)
  = VerifierAgent.learned_ima_keyrings agent.
Proof.
  unfold _clear_agent_fields.
  destruct (get_last db (strs (values att) agent_id)); reflexivity.
Qed.

Lemma is_quote_authentication_spec v :
  is_quote_authentication v = true <->
  failure_type v = Some quote_authentication.
Proof.
  unfold is_quote_authentication.
  destruct (failure_type v) as [[]|]; simpl; split; intros H;
    try reflexivity; discriminate.
Qed.

Section LearnedKeyrings.

Variable policy : ChangePolicy.
Variable ImaKeyrings : Type.
Variable new_keyrings : ImaKeyrings.
Variable keyrings_from_json : option string -> option ImaKeyrings.
Variable keyrings_to_json : ImaKeyrings -> string.
Variable set_tenant_keyring : string -> ImaKeyrings -> ImaKeyrings.
Variable clock_info_from_quote : string -> string.
Variable get_pcrs_from_quote : string -> list (Z * string).
Variable check_quote :
  AgentAttestState ImaKeyrings -> option Nonce -> option string ->
  string -> string -> option string -> option RuntimePolicy ->
  option string -> ImaKeyrings -> option string -> option string ->
  option Z -> Failure * AgentAttestState ImaKeyrings.

(** C8.  For every run of [verify_evidence] that ends, with the failure
    and the attestation state that [check_quote] produced: a run ending
    with [failure_type = quote_authentication] leaves the agent's
    [learned_ima_keyrings] as it was; a run ending with any other failure
    type, or with none, sets it to the JSON form of the keyrings of the
    attestation state.  A failure gives the status [failed] and the
    failure type of its first deciding event, which is one that the
    schema admits; no failure gives the status [verified] and leaves the
    failure type of the record, which is unset on a record that has not
    been verified before. *)
Theorem learned_keyrings_after_verification db rp mb_policy agent att
    db' a agent' failure st :
  verify_evidence policy new_keyrings keyrings_from_json keyrings_to_json
    set_tenant_keyring clock_info_from_quote get_pcrs_from_quote
    check_quote db rp mb_policy agent att = inr (db', a, agent') ->
  run_check_quote new_keyrings keyrings_from_json set_tenant_keyring
    clock_info_from_quote get_pcrs_from_quote check_quote db rp mb_policy
    agent att = inr (failure, st) ->
  (failure_type (values a) = Some quote_authentication ->
   VerifierAgent.learned_ima_keyrings agent'
   = VerifierAgent.learned_ima_keyrings agent) /\
  (failure_type (values a) <> Some quote_authentication ->
   VerifierAgent.learned_ima_keyrings agent'
   = Some (keyrings_to_json (st_ima_keyrings st))) /\
  (failure <> [] ->
   status (values a) = Some failed /\
   failure_type (values a) = Some (classify failure) /\
   In (classify failure) failure_type_permitted) /\
  (failure = [] ->
   status (values a) = Some verified /\
   failure_type (values a) = failure_type (values att)).
Proof.
  intros Hrun Hcheck; unfold verify_evidence in Hrun.
  destruct (Binary_render (strs (values att) mb_entries)) as [e|rendered];
    cbn [bind] in Hrun; [discriminate|].
  destruct (negb (changes_valid att)); [discriminate|].
  destruct (decided (values att)); [discriminate|].
  rewrite Hcheck in Hrun; cbn [bind] in Hrun.
  destruct (st_next_ima_ml_entry st) as [next|]; [|discriminate].
  destruct (ints (values att) starting_ima_offset) as [start|];
    [|discriminate].
  match type of Hrun with
  | context [commit_changes ?d ?x] =>
      destruct (commit_changes d x) as [e|[dbc ac]] eqn:Hcommit;
        cbn [bind] in Hrun; [discriminate|];
        set (rec := x) in *
  end.
  pose proof (commit_changes_valid _ _ _ _ Hcommit) as Hvalid.
  apply commit_changes_object in Hcommit; destruct Hcommit as [Hst Hft].
  unfold ret in Hrun; cbn [fst snd] in Hrun.
  injection Hrun as <- <- <-.
  rewrite Hst, Hft.
  assert (Hlearned : forall b,
    VerifierAgent.learned_ima_keyrings
      (set_accept_attestations b (_clear_agent_fields db att agent))
    = VerifierAgent.learned_ima_keyrings agent).
  { intros b; cbn; apply _clear_agent_fields_learned. }
  split; [|split; [|split]].
  - intros Hqa; apply is_quote_authentication_spec in Hqa.
    rewrite Hqa; cbn [negb]; apply Hlearned.
  - intros Hother.
    destruct (is_quote_authentication (values rec)) eqn:E.
    + apply is_quote_authentication_spec in E; contradiction.
    + reflexivity.
  - intros Hfail; subst rec; destruct failure as [|ev rest]; [contradiction|].
    unfold _set_failure_type, change_failure_type in *.
    destruct (existsb (FailureType_eqb (classify (ev :: rest)))
                failure_type_permitted) eqn:Hperm;
      [|rewrite changes_valid_add_error in Hvalid; discriminate].
    split; [reflexivity|]; split; [reflexivity|].
    destruct (classify (ev :: rest)); simpl in Hperm; try discriminate;
      simpl; auto.
  - intros ->; subst rec; split; [reflexivity|].
    unfold _set_failure_type, values, or_else; cbn.
    destruct (failure_type (changes att)); reflexivity.
Qed.

End LearnedKeyrings.

(** A record that received a genuine quote is verified, and the keyring
    learned during the verification is stored on the agent. *)
Lemma learned_keyrings_after_verification_witness :
  exists db' a agent',
    toy_verify_evidence KeepErrors [received_row "quote"] agent_a1
      (fetched (received_row "quote")) = inr (db', a, agent') /\
    status (values a) = Some verified /\
    VerifierAgent.learned_ima_keyrings agent' = Some "learned-keys".
Proof.
  destruct (toy_verify_evidence KeepErrors [received_row "quote"] agent_a1
              (fetched (received_row "quote")))
    as [e|[[db' a] agent']] eqn:Hrun; [vm_compute in Hrun; discriminate|].
  destruct (toy_run_check_quote [received_row "quote"] agent_a1
              (fetched (received_row "quote")))
    as [e|[failure st]] eqn:Hcheck; [vm_compute in Hcheck; discriminate|].
  destruct (learned_keyrings_after_verification KeepErrors string ""
              (fun j => j) (fun k => k) (fun _ k => k) (fun q => q)
              (fun _ => []) toy_check_quote [received_row "quote"]
              (Some runtime_policy_0) None agent_a1
              (fetched (received_row "quote")) db' a agent' failure st
              Hrun Hcheck)
    as [_ [Hother [_ Hverified]]].
  assert (Hst : failure = [] /\ st_ima_keyrings st = "learned-keys").
  { cbv in Hcheck; injection Hcheck as <- <-; split; reflexivity. }
  destruct Hst as [Hnone Hkeys].
  destruct (Hverified Hnone) as [Hstatus Hft].
  exists db', a, agent'; split; [reflexivity|]; split; [exact Hstatus|].
  rewrite <- Hkeys; apply Hother.
  rewrite Hft; discriminate.
Defined.

(** A forged quote: the record fails with [quote_authentication] and the
    agent's learned keyrings stay unset; a genuine quote: the record is
    verified and the learned keyring is stored. *)
Example verify_evidence_forged_and_genuine policy :
  match toy_verify_evidence policy [received_row "forged"] agent_a1
          (fetched (received_row "forged")),
        toy_verify_evidence policy [received_row "quote"] agent_a1
          (fetched (received_row "quote")) with
  | inr (_, a, agent'), inr (_, b, agent'') =>
      status (values a) = Some failed /\
      failure_type (values a) = Some quote_authentication /\
      VerifierAgent.learned_ima_keyrings agent' = None /\
      VerifierAgent.accept_attestations agent' = false /\
      status (values b) = Some verified /\
      failure_type (values b) = None /\
      ints (values b) quoted_ima_entries_count = Some 3 /\
      VerifierAgent.learned_ima_keyrings agent'' = Some "learned-keys" /\
      VerifierAgent.accept_attestations agent'' = true
  | _, _ => False
  end.
Proof. destruct policy; vm_compute; repeat split; reflexivity. Qed.

(** A record that received a quote and no measured boot log: the
    rendering of the log raises before anything is verified. *)
Example verify_evidence_without_measured_boot_log policy :
  let row :=
    set_str tpm_quote "quote"
      (set_time evidence_received_at 3
         (attestation_row 0 received 0 None 0 5)) in
  exists msg,
    toy_verify_evidence policy [row] agent_a1 (fetched row)
    = inl (TypeError msg).
Proof. destruct policy; eexists; vm_compute; reflexivity. Qed.

(** * Further properties of the operations *)

(** ** The last attestation of an agent *)

Lemma get_last_spec db id :
  match get_last db id with
  | Some last =>
      In last db /\ agent_is id last = true /\
      forall row j,
        In row db -> agent_is id row = true -> row_index row = Some j ->
        exists k, row_index last = Some k /\ j <= k
  | None => forall row, In row db -> agent_is id row = false
  end.
Proof.
  destruct (get_last db id) as [last|] eqn:E.
  - unfold get_last in E; destruct (get_In _ _ _ E) as [Hin Hag].
    repeat split; [exact Hin | exact Hag |].
    intros row j Hrow Hagent Hj.
    destruct (get_last_max db id row j Hrow Hagent Hj)
      as [last' [k [E' [Hk Hle]]]].
    unfold get_last in E'; rewrite E in E'; injection E' as <-.
    exists k; split; assumption.
  - intros row Hin.
    destruct (agent_is id row) eqn:Hag; [|reflexivity].
    unfold get_last, get in E; apply first_desc_index_None in E.
    assert (Hf : In row (filter (agent_is id) db))
      by (apply filter_In; split; assumption).
    rewrite E in Hf; destruct Hf.
Qed.

(** [get_last] returns a row that meets the criterion on the agent and
    whose index is at least the index of every row that meets it, and
    nothing exactly when no row of the table meets it.  With an id the
    rows that meet the criterion are the rows of that agent; without one
    the criterion is dropped and they are all the rows of the table. *)
Theorem get_last_greatest db id :
  match get_last db id with
  | Some last =>
      In last db /\ agent_is id last = true /\
      forall row j,
        In row db -> agent_is id row = true -> row_index row = Some j ->
        exists k, row_index last = Some k /\ j <= k
  | None => forall row, In row db -> agent_is id row = false
  end.
Proof. exact (get_last_spec db id). Qed.

(** ** The previous authenticated attestation *)

(** The previous authenticated attestation of a record is a stored record
    of the same agent that is verified or failed, did not fail the
    authentication of its quote, and has a strictly smaller index; among
    the stored records of that kind it has the greatest index. *)
Theorem previous_authenticated_attestation_sound db att prev :
  previous_authenticated_attestation db att = Some prev ->
  In prev db /\
  agent_is (strs (values att) agent_id) prev = true /\
  (status prev = Some verified \/ status prev = Some failed) /\
  failure_type prev <> Some quote_authentication /\
  exists i k,
    ints (values att) index = Some i /\ row_index prev = Some k /\ k < i /\
    forall row j,
      In row db ->
      agent_is (strs (values att) agent_id) row = true ->
      (status row = Some verified \/ status row = Some failed) ->
      failure_type row <> Some quote_authentication ->
      row_index row = Some j -> j < i ->
      j <= k.
Proof.
  unfold previous_authenticated_attestation.
  destruct (negb (truthy_str (strs (values att) agent_id))); [discriminate|].
  intros E; pose proof E as Hget; apply get_In in E; destruct E as [Hin Hc].
  apply andb_prop in Hc; destruct Hc as [Hc Hidx].
  apply andb_prop in Hc; destruct Hc as [Hc Hnq].
  apply andb_prop in Hc; destruct Hc as [Hag Hst].
  split; [exact Hin|]; split; [exact Hag|]; split; [|split].
  - apply orb_prop in Hst; unfold status_is in Hst.
    destruct (status prev) as [[]|]; simpl in Hst; destruct Hst;
      try discriminate; auto.
  - unfold not_quote_authentication in Hnq.
    destruct (failure_type prev) as [[]|]; simpl in Hnq;
      try discriminate; intros H; discriminate.
  - unfold index_below in Hidx.
    destruct (row_index prev) as [k|] eqn:Hk; [|discriminate].
    destruct (ints (values att) index) as [i|] eqn:Hi; [|discriminate].
    apply Z.ltb_lt in Hidx.
    exists i, k; repeat split; auto.
    intros row j Hrow Hagr Hstr Hftr Hj Hji.
    assert (Hcrit :
      agent_is (strs (values att) agent_id) row
      && (status_is verified row || status_is failed row)
      && not_quote_authentication row
      && index_below (Some i) row = true).
    { rewrite Hagr; unfold status_is, not_quote_authentication,
        index_below; rewrite Hj.
      assert (Hlt : (j <? i) = true) by (apply Z.ltb_lt; exact Hji).
      rewrite Hlt.
      destruct (status row) as [[]|], (failure_type row) as [[]|];
        destruct Hstr; try discriminate; try congruence; reflexivity. }
    unfold get in Hget.
    match type of Hget with
    | first_desc_index ?l = _ =>
        assert (Hf : In row l)
          by (apply filter_In; split; [exact Hrow | exact Hcrit]);
        destruct (first_desc_index_max l row j Hf Hj)
          as [best [k' [Hbest [Hk' Hle]]]]
    end.
    rewrite Hget in Hbest; injection Hbest as <-.
    rewrite Hk in Hk'; injection Hk' as <-; exact Hle.
Qed.

(** With records 0 and 1 verified, the previous authenticated attestation
    of a record 2 under creation is record 1. *)
Lemma previous_authenticated_attestation_sound_witness :
  In verified_row_1 [verified_row_0; verified_row_1] /\
  agent_is (strs (values (new_attestation 2 1000)) agent_id) verified_row_1
  = true /\
  (status verified_row_1 = Some verified \/
   status verified_row_1 = Some failed) /\
  failure_type verified_row_1 <> Some quote_authentication /\
  exists i k,
    ints (values (new_attestation 2 1000)) index = Some i /\
    row_index verified_row_1 = Some k /\ k < i /\
    forall row j,
      In row [verified_row_0; verified_row_1] ->
      agent_is (strs (values (new_attestation 2 1000)) agent_id) row = true ->
      (status row = Some verified \/ status row = Some failed) ->
      failure_type row <> Some quote_authentication ->
      row_index row = Some j -> j < i ->
      j <= k.
Proof.
  apply (previous_authenticated_attestation_sound
           [verified_row_0; verified_row_1] (new_attestation 2 1000)
           verified_row_1).
  reflexivity.
Defined.

(** ** Initialisation of a record *)

Lemma _set_status_waiting policy att :
  status (values att) = None ->
  strs (changes att) tpm_quote = None ->
  status (values (_set_status policy att)) = Some waiting.
Proof.
  intros Hst Hq; unfold _set_status; rewrite Hst; cbn [is_some].
  change (strs (changes (change_status policy waiting att)) tpm_quote)
    with (strs (changes att) tpm_quote).
  rewrite Hq; reflexivity.
Qed.

(** Initialising an empty record for an agent, on a table whose rows all
    have an index, returns a record in status [waiting] that carries the
    agent's id and an index greater than the index of every stored record
    of the agent, 0 when the agent has none; committing this record on the
    same table passes the check against records created meanwhile. *)
Theorem initialise_next_index policy cfg db now id :
  (forall row, In row db -> row_index row <> None) ->
  exists a i,
    initialise policy cfg db now id empty = inr a /\
    strs (values a) agent_id = Some id /\
    status (values a) = Some waiting /\
    ints (values a) index = Some i /\
    (get_last db (Some id) = None -> i = 0) /\
    (forall row j,
       In row db -> agent_is (Some id) row = true ->
       row_index row = Some j -> j < i) /\
    commit_changes db a = super_commit_changes a db.
Proof.
  intros Hidx; unfold initialise; cbn [committed empty is_some].
  unfold _set_index; cbn [committed_fields change_str change committed
                          no_fields ints truthy_int].
  change (strs (values (change_str policy agent_id id empty)) agent_id)
    with (Some id).
  pose proof (get_last_spec db (Some id)) as Hlast.
  destruct (get_last db (Some id)) as [last|] eqn:E.
  - destruct Hlast as [Hin [Hag Hmax]].
    destruct (row_index last) as [k|] eqn:Hk;
      [|exfalso; exact (Hidx last Hin Hk)].
    cbn [bind ret].
    eexists; exists (k + 1); split; [reflexivity|].
    match goal with
    | |- context [_set_timestamps policy cfg now ?x] => set (a0 := x)
    end.
    assert (Hts : _set_timestamps policy cfg now a0 = a0) by reflexivity.
    rewrite Hts.
    assert (Hst : status (values (_set_status policy a0)) = Some waiting)
      by (apply _set_status_waiting; reflexivity).
    destruct (_set_status_frame policy a0) as [Hints [_ [Hstrs _]]].
    split; [rewrite Hstrs; reflexivity|].
    split; [exact Hst|].
    split; [rewrite Hints; reflexivity|].
    split; [discriminate|].
    split.
    + intros row j Hrow Hagr Hj.
      destruct (Hmax row j Hrow Hagr Hj) as [k' [Hk' Hle]].
      injection Hk' as <-; lia.
    + unfold commit_changes.
      unfold status_is; rewrite Hst; cbn [Status_eqb].
      rewrite Hstrs, Hints.
      change (strs (values a0) agent_id) with (Some id).
      change (ints (values a0) index) with (Some (k + 1)).
      rewrite E, Hk.
      assert (Hle : (k + 1 <=? k) = false) by (apply Z.leb_gt; lia).
      rewrite Hle; reflexivity.
  - cbn [bind ret].
    eexists; exists 0; split; [reflexivity|].
    match goal with
    | |- context [_set_timestamps policy cfg now ?x] => set (a0 := x)
    end.
    assert (Hts : _set_timestamps policy cfg now a0 = a0) by reflexivity.
    rewrite Hts.
    assert (Hst : status (values (_set_status policy a0)) = Some waiting)
      by (apply _set_status_waiting; reflexivity).
    destruct (_set_status_frame policy a0) as [Hints [_ [Hstrs _]]].
    split; [rewrite Hstrs; reflexivity|].
    split; [exact Hst|].
    split; [rewrite Hints; reflexivity|].
    split; [reflexivity|].
    split.
    + intros row j Hrow Hagr Hj.
      rewrite (Hlast row Hrow) in Hagr; discriminate.
    + unfold commit_changes.
      unfold status_is; rewrite Hst; cbn [Status_eqb].
      rewrite Hstrs.
      change (strs (values a0) agent_id) with (Some id).
      rewrite E; reflexivity.
Qed.

(** The first record of agent [a1] after record 0. *)
Lemma initialise_next_index_witness :
  exists a i,
    initialise KeepErrors config_5 [verified_row_0] 7 "a1" empty = inr a /\
    strs (values a) agent_id = Some "a1" /\
    status (values a) = Some waiting /\
    ints (values a) index = Some i /\
    (get_last [verified_row_0] (Some "a1") = None -> i = 0) /\
    (forall row j,
       In row [verified_row_0] -> agent_is (Some "a1") row = true ->
       row_index row = Some j -> j < i) /\
    commit_changes [verified_row_0] a
    = super_commit_changes a [verified_row_0].
Proof.
  apply (initialise_next_index KeepErrors config_5 [verified_row_0] 7 "a1").
  intros row [<-|[]]; discriminate.
Defined.

(** ** The nonce of a new record *)

Lemma cast_changes_nonce policy data permitted :
  forall att,
    nonce (changes (cast_changes policy data permitted att))
    = nonce (changes att) /\
    committed (cast_changes policy data permitted att) = committed att.
Proof.
  unfold cast_changes; induction permitted as [|fld rest IH]; intros att;
    simpl; [split; reflexivity|].
  destruct (IH (cast_change policy data fld att)) as [-> ->].
  unfold cast_change; destruct fld as [f|f|f|f];
    [ destruct (ints data f) | destruct (times data f)
    | destruct (strs data f) | destruct (lists data f) ];
    split; reflexivity.
Qed.

Lemma _set_ima_offset_nonce policy db att a :
  _set_ima_offset policy db att = inr a ->
  nonce (changes a) = nonce (changes att) /\ committed a = committed att.
Proof.
  unfold _set_ima_offset.
  destruct (times (values att) boottime) as [bt|];
    [|intros H; injection H as <-; split; reflexivity].
  destruct (previous_authenticated_attestation db att) as [prev|];
    [|intros H; injection H as <-; split; reflexivity].
  destruct (times prev boottime) as [pbt|]; [|discriminate].
  destruct (pbt <? bt); [intros H; injection H as <-; split; reflexivity|].
  destruct (bt =? pbt);
    [intros H; injection H as <-; destruct (next_ima_offset prev);
     unfold change_int; rewrite ?changes_add_error, ?committed_add_error;
     split; reflexivity|].
  destruct (bt <? pbt); intros H; injection H as <-;
    rewrite ?changes_add_error, ?committed_add_error; split; reflexivity.
Qed.

Lemma select_alg_nonce policy f msg supported accept :
  forall att a,
    select_alg policy f msg accept supported att = inr a ->
    nonce (changes a) = nonce (changes att) /\ committed a = committed att.
Proof.
  induction accept as [|x rest IH]; intros att a; simpl.
  - intros H; injection H as <-; split; reflexivity.
  - destruct supported as [sup|]; [|discriminate].
    destruct (existsb (String.eqb x) sup).
    + intros H; injection H as <-; split; reflexivity.
    + intros H; apply IH in H.
      rewrite changes_add_error, committed_add_error in H; exact H.
Qed.

Lemma _set_algs_nonce policy data agent att a :
  _set_algs policy data agent att = inr a ->
  nonce (changes a) = nonce (changes att) /\ committed a = committed att.
Proof.
  unfold _set_algs.
  destruct (select_alg policy hash_alg _ _ _ att) as [e|a1] eqn:E1;
    cbn [bind]; [discriminate|].
  destruct (select_alg policy enc_alg _ _ _ a1) as [e|a2] eqn:E2;
    cbn [bind]; [discriminate|].
  intros E3.
  apply select_alg_nonce in E1; apply select_alg_nonce in E2;
    apply select_alg_nonce in E3.
  destruct E1 as [<- <-], E2 as [<- <-], E3 as [<- <-]; split; reflexivity.
Qed.

Lemma values_nonce att :
  nonce (values att)
  = or_else (nonce (changes att)) (nonce (committed_fields att)).
Proof. reflexivity. Qed.

Lemma _set_status_nonce policy att :
  nonce (values (_set_status policy att)) = nonce (values att).
Proof.
  unfold _set_status.
  destruct (is_some (status (values att)));
    match goal with
    | |- context [if ?c then _ else _] => destruct c
    end; reflexivity.
Qed.

Lemma _set_timestamps_nonce policy cfg now att :
  nonce (values (_set_timestamps policy cfg now att)) = nonce (values att).
Proof.
  unfold _set_timestamps.
  destruct (truthy_nonce (nonce (changes att)));
    match goal with
    | |- context [if ?c then _ else _] => destruct c
    end; reflexivity.
Qed.

Lemma _set_timestamps_created policy cfg now att :
  truthy_nonce (nonce (changes att)) = true ->
  times (values (_set_timestamps policy cfg now att)) nonce_created_at
  = Some now.
Proof.
  intros H; unfold _set_timestamps; rewrite H.
  match goal with
  | |- context [if ?c then _ else _] => destruct c
  end; unfold change_time; rewrite ?values_change_time; reflexivity.
Qed.

(** When [receive_capabilities] returns for a record that had no nonce, the
    record carries a nonce of 16 bytes, 128 bits, drawn from the random
    source, and [nonce_created_at] is the time of the call. *)
Theorem receive_capabilities_mints_nonce policy cfg db now rnd data agent
    att a :
  nonce (values att) = None ->
  receive_capabilities policy cfg db now rnd data agent att = inr a ->
  nonce (values a) = Some (map rnd (seq 0 16)) /\
  (forall n, nonce (values a) = Some n -> length n = 16%nat) /\
  times (values a) nonce_created_at = Some now.
Proof.
  intros Hnone; unfold receive_capabilities.
  destruct (status_is waiting (committed_fields att)); [discriminate|].
  set (a0 := validate_required capability_fields
               (cast_changes policy data capability_fields att)).
  assert (H0 : nonce (changes a0) = nonce (changes att) /\
               committed a0 = committed att).
  { subst a0.
    destruct (validate_required_frame capability_fields
                (cast_changes policy data capability_fields att)) as [-> ->].
    apply cast_changes_nonce. }
  destruct H0 as [Hn0 Hc0].
  assert (Hv0 : nonce (values a0) = None).
  { rewrite values_nonce in *; unfold committed_fields in *.
    rewrite Hn0, Hc0; exact Hnone. }
  unfold _set_nonce; rewrite Hv0.
  set (a1 := change_nonce policy (Nonce_generate 128 rnd) a0).
  assert (Hn1 : nonce (changes a1) = Some (map rnd (seq 0 16)))
    by reflexivity.
  destruct (_set_ima_offset policy db a1) as [e|a2] eqn:E2; cbn [bind];
    [discriminate|].
  destruct (_set_algs policy data agent a2) as [e|a3] eqn:E3; cbn [bind];
    [discriminate|].
  intros H; injection H as <-.
  apply _set_ima_offset_nonce in E2; destruct E2 as [Hn2 _].
  apply _set_algs_nonce in E3; destruct E3 as [Hn3 _].
  assert (Hn : nonce (changes a3) = Some (map rnd (seq 0 16)))
    by (rewrite Hn3, Hn2; exact Hn1).
  assert (Hval : nonce (values (_set_status policy
                                  (_set_timestamps policy cfg now a3)))
                 = Some (map rnd (seq 0 16))).
  { rewrite _set_status_nonce, _set_timestamps_nonce, values_nonce, Hn.
    reflexivity. }
  split; [exact Hval|]; split.
  - intros n Hn'; rewrite Hval in Hn'; injection Hn' as <-.
    reflexivity.
  - destruct (_set_status_frame policy (_set_timestamps policy cfg now a3))
      as [_ [-> _]].
    apply _set_timestamps_created; rewrite Hn; reflexivity.
Qed.

(** Scenario 1: the nonce of the first record. *)
Lemma receive_capabilities_mints_nonce_witness :
  exists a,
    receive_capabilities KeepErrors config_5 [] 3 zero_bytes
      capabilities_1000 agent_a1 empty = inr a /\
    nonce (values a) = Some (map zero_bytes (seq 0 16)) /\
    (forall n, nonce (values a) = Some n -> length n = 16%nat) /\
    times (values a) nonce_created_at = Some 3.
Proof.
  destruct (receive_capabilities KeepErrors config_5 [] 3 zero_bytes
              capabilities_1000 agent_a1 empty) as [e|a] eqn:E;
    [vm_compute in E; discriminate|].
  exists a; split; [reflexivity|].
  apply (receive_capabilities_mints_nonce KeepErrors config_5 [] 3
           zero_bytes capabilities_1000 agent_a1 empty a);
    [reflexivity | exact E].
Defined.

(** ** A request without a list of supported algorithms *)

(** When the request carries no [supported_hash_algs] and the agent accepts
    at least one hashing algorithm, [receive_capabilities] raises the
    [TypeError] of the membership test on [None]; no record is returned. *)
Theorem receive_capabilities_without_supported_hash_algs policy cfg db now
    rnd data agent att :
  status_is waiting (committed_fields att) = false ->
  (forall row, In row db -> times row boottime <> None) ->
  lists data supported_hash_algs = None ->
  VerifierAgent.accept_tpm_hash_algs agent <> [] ->
  receive_capabilities policy cfg db now rnd data agent att
  = inl (TypeError "argument of type 'NoneType' is not iterable").
Proof.
  intros Hfresh Hdb Hnone Haccept; unfold receive_capabilities.
  rewrite Hfresh.
  match goal with
  | |- context [_set_ima_offset _ db ?x] =>
      destruct (_set_ima_offset_returns policy db x Hdb) as [a1 E1]
  end.
  rewrite E1; cbn [bind].
  unfold _set_algs; rewrite Hnone.
  destruct (VerifierAgent.accept_tpm_hash_algs agent) as [|alg rest];
    [contradiction|].
  reflexivity.
Qed.

(** Scenario 1 without the list of supported hashing algorithms. *)
Lemma receive_capabilities_without_supported_hash_algs_witness :
  receive_capabilities KeepErrors config_5 [] 0 zero_bytes
    (set_time boottime 1000
       (set_list supported_enc_algs ["rsa"]
          (set_list supported_sign_algs ["rsassa"] no_fields)))
    agent_a1 empty
  = inl (TypeError "argument of type 'NoneType' is not iterable").
Proof.
  apply receive_capabilities_without_supported_hash_algs.
  - reflexivity.
  - intros row [].
  - reflexivity.
  - discriminate.
Defined.

(** ** What the submission of evidence leaves alone *)

Lemma cast_changes_evidence policy data row :
  let a := cast_changes policy data evidence_fields (fetched row) in
  ints (changes a) = ints no_fields /\
  times (changes a) = times no_fields /\
  nonce (changes a) = None /\
  (forall f,
     str_field_eqb f tpm_quote = false ->
     str_field_eqb f ima_entries = false ->
     str_field_eqb f mb_entries = false ->
     strs (changes a) f = None) /\
  committed a = Some row.
Proof.
  unfold cast_changes, evidence_fields; simpl.
  destruct (strs data tpm_quote), (strs data ima_entries),
    (strs data mb_entries); simpl;
    (split; [reflexivity|]; split; [reflexivity|]; split; [reflexivity|];
     split; [|reflexivity]);
    intros f H1 H2 H3; unfold upd;
    destruct f; try discriminate; reflexivity.
Qed.

(** When [receive_evidence] returns for a record read from the table, the
    record still has the agent id, the index, the boot time, the nonce with
    its two timestamps, the three selected algorithms and the starting IMA
    offset of the stored row, whatever the request body carries. *)
Theorem receive_evidence_keeps_negotiated_values policy cfg now data rp row
    a :
  receive_evidence policy cfg now data rp (fetched row) = inr a ->
  strs (values a) agent_id = strs row agent_id /\
  ints (values a) index = ints row index /\
  times (values a) boottime = times row boottime /\
  nonce (values a) = nonce row /\
  times (values a) nonce_created_at = times row nonce_created_at /\
  times (values a) nonce_expires_at = times row nonce_expires_at /\
  strs (values a) hash_alg = strs row hash_alg /\
  strs (values a) enc_alg = strs row enc_alg /\
  strs (values a) sign_alg = strs row sign_alg /\
  ints (values a) starting_ima_offset = ints row starting_ima_offset.
Proof.
  unfold receive_evidence.
  destruct (status_is received (committed_fields (fetched row)));
    [discriminate|].
  intros H; apply ret_inj in H; subst a; cbv zeta.
  set (a0 := cast_changes policy data evidence_fields (fetched row)).
  destruct (cast_changes_evidence policy data row)
    as [Hi [Ht [Hn [Hs Hc]]]]; fold a0 in Hi, Ht, Hn, Hs, Hc.
  set (a1 := validate_required
               [StrF tpm_quote; StrF hash_alg; StrF enc_alg; StrF sign_alg]
               a0).
  destruct (validate_required_frame
              [StrF tpm_quote; StrF hash_alg; StrF enc_alg; StrF sign_alg]
              a0) as [Hch1 Hco1]; fold a1 in Hch1, Hco1.
  set (a2 := _validate_ima_entries (ints data starting_ima_offset) rp a1).
  destruct (_validate_ima_entries_frame (ints data starting_ima_offset) rp a1)
    as [Hch2 Hco2]; fold a2 in Hch2, Hco2.
  assert (Hchanges : changes a2 = changes a0) by (rewrite Hch2; exact Hch1).
  assert (Hcommitted : committed a2 = Some row)
    by (rewrite Hco2, Hco1; exact Hc).
  assert (Hnn : truthy_nonce (nonce (changes a2)) = false)
    by (rewrite Hchanges, Hn; reflexivity).
  clearbody a2 a1 a0.
  destruct (_set_status_frame policy (_set_timestamps policy cfg now a2))
    as [Hsi [Hst [Hss _]]].
  destruct (_set_timestamps_frame policy cfg now a2) as [Hti [Hts _]].
  rewrite _set_status_nonce, _set_timestamps_nonce, Hsi, Hst, Hss, Hti, Hts.
  assert (Hints : ints (values a2) = ints row).
  { unfold values, committed_fields; rewrite Hchanges, Hcommitted; cbn.
    rewrite Hi; reflexivity. }
  assert (Hstrs : forall f,
            str_field_eqb f tpm_quote = false ->
            str_field_eqb f ima_entries = false ->
            str_field_eqb f mb_entries = false ->
            strs (values a2) f = strs row f).
  { intros f H1 H2 H3; unfold values, committed_fields, overlay.
    rewrite Hchanges, Hcommitted; cbn; rewrite (Hs f H1 H2 H3); reflexivity. }
  assert (Htimes : forall f,
            time_field_eqb evidence_received_at f = false ->
            times (values (_set_timestamps policy cfg now a2)) f
            = times row f).
  { intros f Hf; unfold _set_timestamps; rewrite Hnn.
    assert (Hbase : times (values a2) f = times row f).
    { unfold values, committed_fields, overlay.
      rewrite Hchanges, Hcommitted; cbn; rewrite Ht; reflexivity. }
    destruct (truthy_str (strs (changes a2) tpm_quote)); [|exact Hbase].
    unfold change_time; rewrite values_change_time, Hf; exact Hbase. }
  rewrite Hints, !Hstrs, !Htimes by reflexivity.
  rewrite values_nonce; unfold committed_fields.
  rewrite Hchanges, Hcommitted, Hn.
  repeat split; reflexivity.
Qed.

(** Evidence that also carries a nonce expiry, an index and an algorithm
    does not change those of the stored record. *)
Lemma receive_evidence_keeps_negotiated_values_witness :
  exists a,
    receive_evidence KeepErrors config_5 10
      (set_time nonce_expires_at 1000000
         (set_int index (Some 7) (set_str hash_alg "sha1" evidence_0)))
      (Some runtime_policy_0) (fetched waiting_row) = inr a /\
    times (values a) nonce_expires_at = Some 5 /\
    ints (values a) index = Some 0 /\
    strs (values a) hash_alg = Some "sha256".
Proof.
  eexists; split; [reflexivity|].
  match goal with
  | |- times (values ?a) _ = _ /\ _ =>
      destruct (receive_evidence_keeps_negotiated_values KeepErrors config_5
                  10
                  (set_time nonce_expires_at 1000000
                     (set_int index (Some 7)
                        (set_str hash_alg "sha1" evidence_0)))
                  (Some runtime_policy_0) waiting_row a eq_refl)
        as [_ [Hidx [_ [_ [_ [Hexp [Hhash _]]]]]]]
  end.
  split; [exact Hexp|]; split; [exact Hidx | exact Hhash].
Defined.

(** ** The checks on the IMA entries *)

Lemma option_Z_eqb_Some_0 off : option_Z_eqb off (Some 0) = true <-> off = Some 0.
Proof.
  destruct off as [z|]; simpl; split; intros H; try discriminate.
  - apply Z.eqb_eq in H; subst; reflexivity.
  - injection H as ->; reflexivity.
Qed.

Lemma errors_grow (es extra : list (string * string)) :
  (es ++ extra)%list = es -> extra = [].
Proof.
  intros H; apply (f_equal (@Datatypes.length _)) in H.
  rewrite length_app in H; destruct extra; [reflexivity|simpl in H; lia].
Qed.

Lemma recorded_app name msg es es' :
  recorded name msg (es ++ es')%list
  = recorded name msg es || recorded name msg es'.
Proof. unfold recorded; apply existsb_app. Qed.

Lemma recorded_none name msg es : errs name es = [] -> recorded name msg es = false.
Proof.
  intros H; destruct (recorded name msg es) eqn:E; [|reflexivity].
  apply recorded_In, In_errs in E; rewrite H in E; destruct E.
Qed.

Lemma _add_error_fresh name msg att :
  recorded name msg (errors att) = false ->
  errors (_add_error name msg att) = (errors att ++ [(name, msg)])%list.
Proof. intros H; unfold _add_error; rewrite H; reflexivity. Qed.

(** The errors after a chain of [_add_error] on a record that has none of
    the messages, given that for the fields [ima_entries] and
    [starting_ima_offset]. *)
Ltac fresh_errors Hima Hoff :=
  repeat (rewrite _add_error_fresh by fresh_errors Hima Hoff);
  rewrite ?recorded_app, ?Hima, ?Hoff; try reflexivity.

(** On a record without an error on [ima_entries] and on
    [starting_ima_offset], [_validate_ima_entries] records no error
    exactly when IMA entries come with a runtime policy and only with one,
    the starting offset received is the one of the record, and, for the
    offset 0, the first line of the entries contains [boot_aggregate]. *)
Theorem _validate_ima_entries_accepts offset rp att :
  errors_on "ima_entries" att = [] ->
  errors_on "starting_ima_offset" att = [] ->
  errors (_validate_ima_entries offset rp att) = errors att <->
  is_some rp = truthy_str (strs (values att) ima_entries) /\
  option_Z_eqb offset (ints (values att) starting_ima_offset) = true /\
  (offset = Some 0 ->
   contains "boot_aggregate"
     (first_line (or_empty (strs (values att) ima_entries))) = true).
Proof.
  intros Hnone_ima Hnone_off.
  assert (Hima_rec : forall msg,
            recorded "ima_entries" msg (errors att) = false)
    by (intros msg; apply recorded_none; exact Hnone_ima).
  assert (Hoff_rec : forall msg,
            recorded "starting_ima_offset" msg (errors att) = false)
    by (intros msg; apply recorded_none; exact Hnone_off).
  unfold _validate_ima_entries.
  destruct (is_some rp) eqn:Hrp;
    destruct (truthy_str (strs (values att) ima_entries)) eqn:Hima;
    cbn [andb negb]; rewrite ?values_add_error, ?Hima; cbn [andb negb];
    rewrite ?values_add_error;
    destruct (option_Z_eqb offset (ints (values att) starting_ima_offset))
      eqn:Hoff; cbn [negb];
    destruct (option_Z_eqb offset (Some 0)) eqn:Hzero;
    rewrite ?values_add_error;
    try (destruct (contains "boot_aggregate"
                     (first_line (or_empty (strs (values att) ima_entries))))
           eqn:Hboot; cbn [negb]);
    fresh_errors Hima_rec Hoff_rec;
    rewrite <- ?app_assoc;
    (split;
     [ intros H; try (apply errors_grow in H; discriminate);
       repeat split; try reflexivity;
       intros Hz; apply option_Z_eqb_Some_0 in Hz; congruence
     | intros [H1 [H2 H3]]; try discriminate; try reflexivity;
       apply option_Z_eqb_Some_0 in Hzero; specialize (H3 Hzero);
       congruence ]).
Qed.

(** Valid evidence for the waiting record of scenario 6. *)
Lemma _validate_ima_entries_accepts_witness :
  errors (_validate_ima_entries (Some 0) (Some runtime_policy_0)
            (cast_changes KeepErrors evidence_0 evidence_fields
               (fetched waiting_row)))
  = errors (cast_changes KeepErrors evidence_0 evidence_fields
              (fetched waiting_row)).
Proof.
  apply (proj2 (_validate_ima_entries_accepts (Some 0)
                  (Some runtime_policy_0)
                  (cast_changes KeepErrors evidence_0 evidence_fields
                     (fetched waiting_row)) eq_refl eq_refl)).
  split; [reflexivity|]; split; [reflexivity|].
  intros _; reflexivity.
Defined.

(** ** The run of a verification *)

Lemma commit_changes_fetched db att db' a :
  commit_changes db att = inr (db', a) -> a = fetched (values att).
Proof.
  unfold commit_changes; intros H.
  destruct (status_is waiting (values att));
    [|exact (super_commit_changes_object _ _ _ _ H)].
  destruct (get_last db (strs (values att) agent_id)) as [last|];
    [|exact (super_commit_changes_object _ _ _ _ H)].
  destruct (row_index last) as [k|]; [|discriminate].
  destruct (ints (values att) index) as [i|]; [|discriminate].
  destruct (i <=? k); [discriminate|].
  exact (super_commit_changes_object _ _ _ _ H).
Qed.

Lemma values_fetched_values att :
  ints (values (fetched (values att))) = ints (values att) /\
  status (values (fetched (values att))) = status (values att) /\
  failure_type (values (fetched (values att))) = failure_type (values att).
Proof.
  unfold values, fetched, committed_fields, overlay, or_else; cbn.
  repeat split.
Qed.

Lemma strs_fetched_values att :
  strs (values (fetched (values att))) = strs (values att).
Proof. unfold values, fetched, committed_fields, overlay; cbn; reflexivity. Qed.

Section VerificationRun.

Variable policy : ChangePolicy.
Variable ImaKeyrings : Type.
Variable new_keyrings : ImaKeyrings.
Variable keyrings_from_json : option string -> option ImaKeyrings.
Variable keyrings_to_json : ImaKeyrings -> string.
Variable set_tenant_keyring : string -> ImaKeyrings -> ImaKeyrings.
Variable clock_info_from_quote : string -> string.
Variable get_pcrs_from_quote : string -> list (Z * string).
Variable check_quote :
  AgentAttestState ImaKeyrings -> option Nonce -> option string ->
  string -> string -> option string -> option RuntimePolicy ->
  option string -> ImaKeyrings -> option string -> option string ->
  option Z -> Failure * AgentAttestState ImaKeyrings.

Local Abbreviation verify :=
  (verify_evidence policy new_keyrings keyrings_from_json keyrings_to_json
     set_tenant_keyring clock_info_from_quote get_pcrs_from_quote
     check_quote).

Local Abbreviation check :=
  (run_check_quote new_keyrings keyrings_from_json set_tenant_keyring
     clock_info_from_quote get_pcrs_from_quote check_quote).

(** The shape of a run of [verify_evidence] that ends. *)
Lemma verify_evidence_ends db rp mb_policy agent att db' a agent' failure
    st :
  verify db rp mb_policy agent att = inr (db', a, agent') ->
  check db rp mb_policy agent att = inr (failure, st) ->
  changes_valid att = true /\
  decided (values att) = false /\
  exists next start,
    st_next_ima_ml_entry st = Some next /\
    ints (values att) starting_ima_offset = Some start /\
    let counted :=
      change_status policy
        (match failure with [] => verified | _ :: _ => failed end)
        (change_int policy quoted_ima_entries_count
           (Some (next - start)) att) in
    let rec := _set_failure_type policy failure counted in
    a = fetched (values rec) /\
    agent' =
      (if negb (is_quote_authentication (values rec))
       then set_learned_ima_keyrings
              (Some (keyrings_to_json (st_ima_keyrings st)))
       else fun x => x)
        (set_accept_attestations (status_is verified (values counted))
           (_clear_agent_fields db att agent)).
Proof.
  intros Hrun Hcheck; unfold verify_evidence in Hrun.
  destruct (Binary_render (strs (values att) mb_entries)) as [e|rendered];
    cbn [bind] in Hrun; [discriminate|].
  destruct (changes_valid att); [|discriminate].
  destruct (decided (values att)); [discriminate|].
  cbn [negb] in Hrun.
  rewrite Hcheck in Hrun; cbn [bind] in Hrun.
  destruct (st_next_ima_ml_entry st) as [next|]; [|discriminate].
  destruct (ints (values att) starting_ima_offset) as [start|];
    [|discriminate].
  split; [reflexivity|]; split; [reflexivity|].
  exists next, start; split; [reflexivity|]; split; [reflexivity|].
  cbv zeta in *.
  match type of Hrun with
  | context [commit_changes ?d ?x] =>
      destruct (commit_changes d x) as [e|[dbc ac]] eqn:Hcommit;
        cbn [bind] in Hrun; [discriminate|]
  end.
  apply commit_changes_fetched in Hcommit.
  apply ret_inj in Hrun; cbn [fst snd] in Hrun.
  injection Hrun as _ <- <-.
  split; [exact Hcommit|].
  unfold change_int; cbn [int_field_name].
  match goal with
  | |- context [is_quote_authentication ?v] =>
      destruct (is_quote_authentication v)
  end; reflexivity.
Qed.

Lemma verify_evidence_checked db rp mb_policy agent att out :
  verify db rp mb_policy agent att = inr out ->
  exists failure st, check db rp mb_policy agent att = inr (failure, st).
Proof.
  unfold verify_evidence.
  destruct (Binary_render (strs (values att) mb_entries)) as [e|rendered];
    cbn [bind]; [discriminate|].
  destruct (negb (changes_valid att)); [discriminate|].
  destruct (decided (values att)); [discriminate|].
  destruct (check db rp mb_policy agent att) as [e|[failure st]];
    cbn [bind]; [discriminate|].
  intros _; exists failure, st; reflexivity.
Qed.

(** A run that ends has rendered the measured boot log of the record. *)
Lemma verify_evidence_rendered db rp mb_policy agent att out :
  verify db rp mb_policy agent att = inr out ->
  exists log, strs (values att) mb_entries = Some log.
Proof.
  unfold verify_evidence, Binary_render.
  destruct (strs (values att) mb_entries) as [log|];
    cbn [bind]; [|discriminate].
  intros _; exists log; reflexivity.
Qed.

Lemma _set_failure_type_values failure att :
  ints (values (_set_failure_type policy failure att)) = ints (values att) /\
  strs (values (_set_failure_type policy failure att)) = strs (values att) /\
  status (values (_set_failure_type policy failure att))
  = status (values att).
Proof.
  unfold _set_failure_type, change_failure_type.
  destruct failure as [|e rest]; [repeat split|].
  destruct (existsb _ failure_type_permitted);
    rewrite ?values_add_error; repeat split.
Qed.

Lemma status_after_verification failure att q :
  let counted :=
    change_status policy
      (match failure with [] => verified | _ :: _ => failed end)
      (change_int policy quoted_ima_entries_count q att) in
  status (values (_set_failure_type policy failure counted))
  = Some (match failure with [] => verified | _ :: _ => failed end) /\
  status (values counted)
  = Some (match failure with [] => verified | _ :: _ => failed end) /\
  ints (values (_set_failure_type policy failure counted))
  = ints (values counted).
Proof.
  cbv zeta.
  match goal with
  | |- context [_set_failure_type policy failure ?c] =>
      destruct (_set_failure_type_values failure c) as [-> [_ ->]]
  end.
  destruct failure; repeat split.
Qed.

(** A record that a run of [verify_evidence] has left is not verified a
    second time: any further call on it raises the [ValueError] "has
    already undergone verification". *)
Theorem verify_evidence_only_once db rp mb_policy agent att db' a agent' :
  verify_evidence policy new_keyrings keyrings_from_json keyrings_to_json
    set_tenant_keyring clock_info_from_quote get_pcrs_from_quote check_quote
    db rp mb_policy agent att = inr (db', a, agent') ->
  forall db2 rp2 mb_policy2 agent2,
    verify_evidence policy new_keyrings keyrings_from_json keyrings_to_json
      set_tenant_keyring clock_info_from_quote get_pcrs_from_quote
      check_quote db2 rp2 mb_policy2 agent2 a
    = inl (ValueError
             "Attestation object has already undergone verification").
Proof.
  intros Hrun db2 rp2 mb_policy2 agent2.
  destruct (verify_evidence_checked _ _ _ _ _ _ Hrun) as [failure [st Hc]].
  destruct (verify_evidence_ends _ _ _ _ _ _ _ _ _ _ Hrun Hc)
    as [_ [_ [next [start [_ [_ [Ha _]]]]]]].
  cbv zeta in Ha.
  match type of Ha with
  | a = fetched (values ?r) => set (rec := r) in *
  end.
  assert (Hst : status (values a)
                = Some (match failure with [] => verified | _ :: _ => failed end)).
  { rewrite Ha.
    destruct (values_fetched_values rec) as [_ [-> _]].
    subst rec; apply status_after_verification. }
  destruct (verify_evidence_rendered _ _ _ _ _ _ Hrun) as [log Hlog].
  assert (Hlog' : strs (values a) mb_entries = Some log).
  { rewrite Ha, strs_fetched_values; subst rec.
    match goal with
    | |- context [_set_failure_type policy failure ?c] =>
        destruct (_set_failure_type_values failure c) as [_ [-> _]]
    end.
    exact Hlog. }
  unfold verify_evidence; rewrite Hlog'; cbn [Binary_render bind ret].
  assert (Hvalid : changes_valid a = true) by (rewrite Ha; reflexivity).
  rewrite Hvalid; cbn [negb].
  assert (Hdecided : decided (values a) = true).
  { unfold decided, status_is; rewrite Hst; destruct failure; reflexivity. }
  rewrite Hdecided; reflexivity.
Qed.

(** A run of [verify_evidence] that ends leaves the agent's
    [accept_attestations] flag true exactly when [check_quote] reported no
    failure, which is exactly when the record is [verified]; otherwise the
    record is [failed] and the flag is false. *)
Theorem verify_evidence_sets_the_gate db rp mb_policy agent att db' a agent'
    failure st :
  verify db rp mb_policy agent att = inr (db', a, agent') ->
  check db rp mb_policy agent att = inr (failure, st) ->
  (VerifierAgent.accept_attestations agent' = true <-> failure = []) /\
  (status (values a) = Some verified <-> failure = []) /\
  (status (values a) = Some failed <-> failure <> []).
Proof.
  intros Hrun Hc.
  destruct (verify_evidence_ends _ _ _ _ _ _ _ _ _ _ Hrun Hc)
    as [_ [_ [next [start [_ [_ [Ha Hagent]]]]]]].
  cbv zeta in Ha, Hagent.
  destruct (status_after_verification failure att (Some (next - start)))
    as [Hrec [Hcounted _]]; cbv zeta in Hrec, Hcounted.
  assert (Hst : status (values a)
                = Some (match failure with [] => verified | _ :: _ => failed end)).
  { rewrite Ha.
    match goal with
    | |- status (values (fetched (values ?r))) = _ =>
        destruct (values_fetched_values r) as [_ [-> _]]
    end.
    exact Hrec. }
  assert (Hgate : VerifierAgent.accept_attestations agent'
                  = match failure with [] => true | _ :: _ => false end).
  { rewrite Hagent.
    match goal with
    | |- context [is_quote_authentication ?v] =>
        destruct (is_quote_authentication v)
    end; cbn [negb VerifierAgent.accept_attestations
              set_learned_ima_keyrings set_accept_attestations];
      unfold status_is; rewrite Hcounted; destruct failure; reflexivity. }
  rewrite Hst, Hgate.
  destruct failure; repeat split; intros H; try reflexivity;
    try discriminate; try congruence.
Qed.

(** A run of [verify_evidence] that ends records as
    [quoted_ima_entries_count] the distance from the record's
    [starting_ima_offset] to the next IMA entry of the attestation state
    that [check_quote] left, so that the record's [next_ima_offset] is that
    next entry. *)
Theorem verify_evidence_counts_ima_entries db rp mb_policy agent att db' a
    agent' failure st :
  verify db rp mb_policy agent att = inr (db', a, agent') ->
  check db rp mb_policy agent att = inr (failure, st) ->
  exists next start,
    st_next_ima_ml_entry st = Some next /\
    ints (values att) starting_ima_offset = Some start /\
    ints (values a) starting_ima_offset = Some start /\
    ints (values a) quoted_ima_entries_count = Some (next - start) /\
    next_ima_offset (values a) = Some next.
Proof.
  intros Hrun Hc.
  destruct (verify_evidence_ends _ _ _ _ _ _ _ _ _ _ Hrun Hc)
    as [_ [_ [next [start [Hnext [Hstart [Ha _]]]]]]].
  cbv zeta in Ha.
  exists next, start; split; [exact Hnext|]; split; [exact Hstart|].
  destruct (status_after_verification failure att (Some (next - start)))
    as [_ [_ Hints]]; cbv zeta in Hints.
  assert (Hs : ints (values a) starting_ima_offset = Some start).
  { rewrite Ha.
    match goal with
    | |- ints (values (fetched (values ?r))) _ = _ =>
        destruct (values_fetched_values r) as [-> _]
    end.
    rewrite Hints, <- Hstart; reflexivity. }
  assert (Hq : ints (values a) quoted_ima_entries_count
               = Some (next - start)).
  { rewrite Ha.
    match goal with
    | |- ints (values (fetched (values ?r))) _ = _ =>
        destruct (values_fetched_values r) as [-> _]
    end.
    rewrite Hints; reflexivity. }
  split; [exact Hs|]; split; [exact Hq|].
  unfold next_ima_offset; rewrite Hs, Hq; f_equal; lia.
Qed.

(** A run of [verify_evidence] that ends leaves the agent's id, its three
    lists of accepted algorithms, its attestation key, its TPM policy and
    its IMA PCRs as they were; when the table holds a record of the agent,
    it also leaves the fields carried over from pull mode. *)
Theorem verify_evidence_keeps_the_agent db rp mb_policy agent att db' a
    agent' :
  verify db rp mb_policy agent att = inr (db', a, agent') ->
  VerifierAgent.agent_id agent' = VerifierAgent.agent_id agent /\
  VerifierAgent.accept_tpm_hash_algs agent'
  = VerifierAgent.accept_tpm_hash_algs agent /\
  VerifierAgent.accept_tpm_encryption_algs agent'
  = VerifierAgent.accept_tpm_encryption_algs agent /\
  VerifierAgent.accept_tpm_signing_algs agent'
  = VerifierAgent.accept_tpm_signing_algs agent /\
  VerifierAgent.ak_tpm agent' = VerifierAgent.ak_tpm agent /\
  VerifierAgent.tpm_policy agent' = VerifierAgent.tpm_policy agent /\
  VerifierAgent.ima_pcrs agent' = VerifierAgent.ima_pcrs agent /\
  (get_last db (strs (values att) agent_id) <> None ->
   VerifierAgent.next_ima_ml_entry agent'
   = VerifierAgent.next_ima_ml_entry agent /\
   VerifierAgent.tpm_clockinfo agent' = VerifierAgent.tpm_clockinfo agent /\
   VerifierAgent.pcr10 agent' = VerifierAgent.pcr10 agent /\
   VerifierAgent.attestation_count agent'
   = VerifierAgent.attestation_count agent /\
   VerifierAgent.legacy agent' = VerifierAgent.legacy agent).
Proof.
  intros Hrun.
  destruct (verify_evidence_checked _ _ _ _ _ _ Hrun) as [failure [st Hc]].
  destruct (verify_evidence_ends _ _ _ _ _ _ _ _ _ _ Hrun Hc)
    as [_ [_ [next [start [_ [_ [_ Hagent]]]]]]].
  cbv zeta in Hagent; rewrite Hagent.
  match goal with
  | |- context [is_quote_authentication ?v] =>
      destruct (is_quote_authentication v)
  end; cbn [negb]; unfold _clear_agent_fields;
    destruct (get_last db (strs (values att) agent_id));
    repeat split; try reflexivity; congruence.
Qed.

End VerificationRun.

(** The record verified with a genuine quote is refused a second
    verification. *)
Lemma verify_evidence_only_once_witness :
  exists db' a agent',
    toy_verify_evidence KeepErrors [received_row "quote"] agent_a1
      (fetched (received_row "quote")) = inr (db', a, agent') /\
    toy_verify_evidence KeepErrors db' agent' a
    = inl (ValueError
             "Attestation object has already undergone verification").
Proof.
  destruct (toy_verify_evidence KeepErrors [received_row "quote"] agent_a1
              (fetched (received_row "quote")))
    as [e|[[db' a] agent']] eqn:Hrun; [vm_compute in Hrun; discriminate|].
  exists db', a, agent'; split; [reflexivity|].
  exact (verify_evidence_only_once KeepErrors string "" (fun j => j)
           (fun k => k) (fun _ k => k) (fun q => q) (fun _ => [])
           toy_check_quote [received_row "quote"] (Some runtime_policy_0)
           None agent_a1 (fetched (received_row "quote")) db' a agent' Hrun
           db' (Some runtime_policy_0) None agent').
Defined.

(** A forged quote closes the gate of the agent and fails the record. *)
Lemma verify_evidence_sets_the_gate_witness :
  exists db' a agent',
    toy_verify_evidence KeepErrors [received_row "forged"] agent_a1
      (fetched (received_row "forged")) = inr (db', a, agent') /\
    VerifierAgent.accept_attestations agent' <> true /\
    status (values a) = Some failed.
Proof.
  destruct (toy_verify_evidence KeepErrors [received_row "forged"] agent_a1
              (fetched (received_row "forged")))
    as [e|[[db' a] agent']] eqn:Hrun; [vm_compute in Hrun; discriminate|].
  destruct (toy_run_check_quote [received_row "forged"] agent_a1
              (fetched (received_row "forged")))
    as [e|[failure st]] eqn:Hcheck; [vm_compute in Hcheck; discriminate|].
  destruct (verify_evidence_sets_the_gate KeepErrors string ""
              (fun j => j) (fun k => k) (fun _ k => k) (fun q => q)
              (fun _ => []) toy_check_quote [received_row "forged"]
              (Some runtime_policy_0) None agent_a1
              (fetched (received_row "forged")) db' a agent' failure st
              Hrun Hcheck)
    as [Hgate [_ Hfailed]].
  assert (Hf : failure <> []).
  { cbv in Hcheck; injection Hcheck as <- _; discriminate. }
  exists db', a, agent'; split; [reflexivity|]; split.
  - intros Htrue; apply Hgate in Htrue; contradiction.
  - apply Hfailed; exact Hf.
Defined.

(** The verified record of the scenarios consumed three IMA entries from
    offset 0. *)
Lemma verify_evidence_counts_ima_entries_witness :
  exists db' a agent',
    toy_verify_evidence KeepErrors [received_row "quote"] agent_a1
      (fetched (received_row "quote")) = inr (db', a, agent') /\
    next_ima_offset (values a) = Some 3.
Proof.
  destruct (toy_verify_evidence KeepErrors [received_row "quote"] agent_a1
              (fetched (received_row "quote")))
    as [e|[[db' a] agent']] eqn:Hrun; [vm_compute in Hrun; discriminate|].
  destruct (toy_run_check_quote [received_row "quote"] agent_a1
              (fetched (received_row "quote")))
    as [e|[failure st]] eqn:Hcheck; [vm_compute in Hcheck; discriminate|].
  destruct (verify_evidence_counts_ima_entries KeepErrors string ""
              (fun j => j) (fun k => k) (fun _ k => k) (fun q => q)
              (fun _ => []) toy_check_quote [received_row "quote"]
              (Some runtime_policy_0) None agent_a1
              (fetched (received_row "quote")) db' a agent' failure st
              Hrun Hcheck)
    as [next [start [Hnext [_ [_ [_ Hoffset]]]]]].
  assert (Hthree : st_next_ima_ml_entry st = Some 3).
  { cbv in Hcheck; injection Hcheck as _ <-; reflexivity. }
  rewrite Hthree in Hnext; injection Hnext as <-.
  exists db', a, agent'; split; [reflexivity | exact Hoffset].
Defined.

(** The agent of the scenarios after a verification. *)
Lemma verify_evidence_keeps_the_agent_witness :
  exists db' a agent',
    toy_verify_evidence KeepErrors [received_row "quote"] agent_a1
      (fetched (received_row "quote")) = inr (db', a, agent') /\
    VerifierAgent.agent_id agent' = "a1" /\
    VerifierAgent.accept_tpm_hash_algs agent' = ["sha512"; "sha256"].
Proof.
  destruct (toy_verify_evidence KeepErrors [received_row "quote"] agent_a1
              (fetched (received_row "quote")))
    as [e|[[db' a] agent']] eqn:Hrun; [vm_compute in Hrun; discriminate|].
  destruct (verify_evidence_keeps_the_agent KeepErrors string ""
              (fun j => j) (fun k => k) (fun _ k => k) (fun q => q)
              (fun _ => []) toy_check_quote [received_row "quote"]
              (Some runtime_policy_0) None agent_a1
              (fetched (received_row "quote")) db' a agent' Hrun)
    as [Hid [Hhash _]].
  exists db', a, agent'; split; [reflexivity|]; split; assumption.
Defined.

(** ** The failure type of a failed record *)

Lemma classify_skips before :
  forall rest,
    (forall x, In x before -> deciding x = false) ->
    classify (before ++ rest)%list = classify rest.
Proof.
  induction before as [|x before IH]; intros rest Hnone; [reflexivity|].
  simpl.
  assert (Hx : deciding x = false) by (apply Hnone; left; reflexivity).
  unfold deciding in Hx.
  apply orb_false_elim in Hx; destruct Hx as [Hx Hima].
  apply orb_false_elim in Hx; destruct Hx as [Hquote Hboot].
  rewrite Hquote, Hboot, Hima.
  apply IH; intros y Hy; apply Hnone; right; exact Hy.
Qed.

Lemma classify_policy_violation events :
  classify events = policy_violation <->
  forall e, In e events -> deciding e = false.
Proof.
  induction events as [|x rest IH]; simpl.
  - split; [intros _ e [] | reflexivity].
  - unfold deciding at 1.
    destruct (String.eqb (event_id x) "quote_validation.quote_validation")
      eqn:Hq.
    + split; [discriminate|].
      intros H; specialize (H x (or_introl eq_refl)).
      unfold deciding in H; rewrite Hq in H; discriminate.
    + destruct (String.prefix "measured_boot.invalid_pcr_" (event_id x))
        eqn:Hb.
      * split; [discriminate|].
        intros H; specialize (H x (or_introl eq_refl)).
        unfold deciding in H; rewrite Hq, Hb in H; discriminate.
      * destruct (String.eqb (event_id x) "ima.pcr_mismatch") eqn:Hi.
        -- split; [discriminate|].
           intros H; specialize (H x (or_introl eq_refl)).
           unfold deciding in H; rewrite Hq, Hb, Hi in H; discriminate.
        -- rewrite IH; split.
           ++ intros H e [<-|He]; [|apply H; exact He].
              unfold deciding; rewrite Hq, Hb, Hi; reflexivity.
           ++ intros H e He; apply H; right; exact He.
Qed.

(** For a failure with at least one event, on a record without a failure
    type, [_set_failure_type] leaves [policy_violation] exactly when no
    event is a quote validation event, an invalid measured boot PCR or an
    IMA PCR mismatch; otherwise the first such event decides, whatever
    follows it.  A quote validation event leaves [quote_authentication].
    One of the two others makes the assignment of [log_authentication],
    which the schema refuses: the failure type stays unset and an error is
    recorded on it. *)
Theorem failure_type_of_first_deciding_event policy failure att :
  failure <> [] ->
  failure_type (values att) = None ->
  let a := _set_failure_type policy failure att in
  (failure_type (values a) = Some policy_violation <->
   forall e, In e failure -> deciding e = false) /\
  (forall before e after,
     failure = (before ++ e :: after)%list ->
     (forall x, In x before -> deciding x = false) ->
     deciding e = true ->
     if String.eqb (event_id e) "quote_validation.quote_validation"
     then failure_type (values a) = Some quote_authentication
     else failure_type (values a) = None /\
          errors_on "failure_type" a <> []).
Proof.
  intros Hne Hunset a.
  assert (Hcases :
    match classify failure with
    | log_authentication =>
        failure_type (values a) = None /\ errors_on "failure_type" a <> []
    | ft => failure_type (values a) = Some ft
    end).
  { subst a; destruct failure as [|e rest]; [contradiction|].
    unfold _set_failure_type, change_failure_type.
    destruct (classify (e :: rest));
      match goal with
      | |- context [existsb ?f ?l] =>
          let b := eval vm_compute in (existsb f l) in
          change (existsb f l) with b
      end; cbv iota.
    - reflexivity.
    - split; [rewrite values_add_error; exact Hunset|].
      apply errs_add_error_same.
    - reflexivity. }
  split.
  - rewrite <- classify_policy_violation.
    destruct (classify failure); split; intros H; try discriminate.
    + rewrite Hcases in H; discriminate.
    + rewrite (proj1 Hcases) in H; discriminate.
    + reflexivity.
    + exact Hcases.
  - intros before e after Hf Hbefore He.
    assert (Hclass : classify failure
                     = if String.eqb (event_id e)
                            "quote_validation.quote_validation"
                       then quote_authentication
                       else log_authentication).
    { rewrite Hf, classify_skips by exact Hbefore.
      simpl; unfold deciding in He.
      destruct (String.eqb (event_id e) "quote_validation.quote_validation");
        [reflexivity|].
      destruct (String.prefix "measured_boot.invalid_pcr_" (event_id e));
        [reflexivity|].
      destruct (String.eqb (event_id e) "ima.pcr_mismatch");
        [reflexivity | discriminate]. }
    rewrite Hclass in Hcases.
    destruct (String.eqb (event_id e) "quote_validation.quote_validation");
      exact Hcases.
Qed.

(** A signature mismatch followed by a quote validation event: the quote
    validation event decides. *)
Lemma failure_type_of_first_deciding_event_witness :
  failure_type
    (values (_set_failure_type KeepErrors
               [mkEvent "ima.signature_invalid" "";
                mkEvent "quote_validation.quote_validation" "";
                mkEvent "ima.pcr_mismatch" ""]
               (fetched (received_row "quote"))))
  = Some quote_authentication.
Proof.
  assert (Hne : [mkEvent "ima.signature_invalid" "";
                 mkEvent "quote_validation.quote_validation" "";
                 mkEvent "ima.pcr_mismatch" ""] <> []) by discriminate.
  assert (Hbefore : forall x,
            In x [mkEvent "ima.signature_invalid" ""] -> deciding x = false)
    by (intros x [<-|[]]; reflexivity).
  exact (proj2 (failure_type_of_first_deciding_event KeepErrors _
                  (fetched (received_row "quote")) Hne eq_refl)
           [mkEvent "ima.signature_invalid" ""]
           (mkEvent "quote_validation.quote_validation" "")
           [mkEvent "ima.pcr_mismatch" ""]
           eq_refl Hbefore eq_refl).
Defined.

(** ** Cleaning up the attestation before *)

(** When [cleanup_stale_priors] returns, every row it leaves was in the
    table, every row of another agent is still there, and the table is
    unchanged when the last record of the agent is verified or failed;
    when that record is waiting, exactly the rows with its key are gone. *)
Theorem cleanup_stale_priors_spares_decided cfg db now att db' :
  cleanup_stale_priors cfg db now att = inr db' ->
  (forall row, In row db' -> In row db) /\
  (forall row,
     In row db -> agent_is (strs (values att) agent_id) row = false ->
     In row db') /\
  (forall last,
     get_last db (strs (values att) agent_id) = Some last ->
     status last = Some verified \/ status last = Some failed ->
     db' = db) /\
  (forall last,
     truthy_str (strs (values att) agent_id) = true ->
     get_last db (strs (values att) agent_id) = Some last ->
     status last = Some waiting ->
     forall row, In row db' <-> In row db /\ same_key last row = false).
Proof.
  unfold cleanup_stale_priors, previous_attestation.
  change (get (agent_is (strs (values att) agent_id)) db)
    with (get_last db (strs (values att) agent_id)).
  pose proof (get_last_spec db (strs (values att) agent_id)) as Hlast.
  destruct (truthy_str (strs (values att) agent_id)) eqn:Hid; cbn [negb].
  - destruct (get_last db (strs (values att) agent_id)) as [prev|].
    + destruct Hlast as [_ [Hag _]].
      assert (Hdel : forall row,
                In row (delete (fetched prev) db) <->
                In row db /\ same_key prev row = false).
      { intros row; unfold delete.
        change (same_key (values (fetched prev)) row)
          with (same_key prev row).
        rewrite filter_In, negb_true_iff; reflexivity. }
      assert (Hother : forall row,
                agent_is (strs (values att) agent_id) row = false ->
                same_key prev row = false).
      { intros row Hrow; unfold same_key.
        unfold agent_is in Hag, Hrow |- *.
        destruct (strs (values att) agent_id) as [x|]; [|discriminate].
        destruct (strs prev agent_id) as [y|]; [|discriminate].
        apply String.eqb_eq in Hag; subst y; rewrite Hrow; reflexivity. }
      unfold status_is.
      destruct (status prev) as [[]|] eqn:Hst; cbn [Status_eqb].
      * intros H; injection H as <-.
        split; [intros row Hr; apply Hdel in Hr; tauto|].
        split; [intros row Hr Ho; apply Hdel; auto|].
        split; [intros last Hl [Hs|Hs]; injection Hl as Heq; subst; congruence|].
        intros last _ Hl _; injection Hl as Heq; subst; exact Hdel.
      * destruct (decision_expected_by cfg prev) as [e|decision];
          cbn [bind]; [discriminate|].
        destruct (decision <? now); intros H; injection H as <-.
        -- split; [intros row Hr; apply Hdel in Hr; tauto|].
           split; [intros row Hr Ho; apply Hdel; auto|].
           split; intros last; [intros Hl [Hs|Hs] | intros _ Hl Hs];
             injection Hl as Heq; subst; congruence.
        -- split; [auto|]; split; [auto|].
           split; intros last; [intros Hl [Hs|Hs] | intros _ Hl Hs];
             injection Hl as Heq; subst; congruence.
      * intros H; injection H as <-.
        split; [auto|]; split; [auto|].
        split; [reflexivity|].
        intros last _ Hl Hs; injection Hl as Heq; subst; congruence.
      * intros H; injection H as <-.
        split; [auto|]; split; [auto|].
        split; [reflexivity|].
        intros last _ Hl Hs; injection Hl as Heq; subst; congruence.
      * intros H; injection H as <-.
        split; [auto|]; split; [auto|].
        split; [reflexivity|].
        intros last _ Hl Hs; injection Hl as Heq; subst; congruence.
    + intros H; injection H as <-.
      split; [auto|]; split; [auto|].
      split; [reflexivity|]; intros last _ Hl; discriminate.
  - intros H; injection H as <-.
    split; [auto|]; split; [auto|].
    split; [reflexivity|]; intros last Habs; discriminate.
Qed.

(** A new record of agent [a1] after the waiting record of scenario 6: the
    waiting record is removed. *)
Lemma cleanup_stale_priors_spares_decided_witness :
  In waiting_row (delete (fetched waiting_row) [waiting_row]) <->
  In waiting_row [waiting_row] /\ same_key waiting_row waiting_row = false.
Proof.
  exact (proj2 (proj2 (proj2
           (cleanup_stale_priors_spares_decided config_5 [waiting_row] 10
              (new_attestation 1 1000)
              (delete (fetched waiting_row) [waiting_row]) eq_refl)))
           waiting_row eq_refl eq_refl eq_refl waiting_row).
Defined.

(** ** The keyrings of a fresh boot *)

Section FreshBoot.

Variable ImaKeyrings : Type.
Variable new_keyrings : ImaKeyrings.
Variable keyrings_from_json : option string -> option ImaKeyrings.
Variable set_tenant_keyring : string -> ImaKeyrings -> ImaKeyrings.
Variable clock_info_from_quote : string -> string.
Variable get_pcrs_from_quote : string -> list (Z * string).
Variable check_quote :
  AgentAttestState ImaKeyrings -> option Nonce -> option string ->
  string -> string -> option string -> option RuntimePolicy ->
  option string -> ImaKeyrings -> option string -> option string ->
  option Z -> Failure * AgentAttestState ImaKeyrings.

(** For a record whose [starting_ima_offset] is 0, the first of a boot, the
    call of [check_quote] does not depend on the agent's
    [learned_ima_keyrings]: the attestation state starts from new keyrings
    with the tenant keyring of the policy. *)
Theorem fresh_boot_drops_learned_keyrings db rp mb_policy agent att learned :
  ints (values att) starting_ima_offset = Some 0 ->
  run_check_quote new_keyrings keyrings_from_json set_tenant_keyring
    clock_info_from_quote get_pcrs_from_quote check_quote db rp mb_policy
    (set_learned_ima_keyrings learned agent) att
  = run_check_quote new_keyrings keyrings_from_json set_tenant_keyring
      clock_info_from_quote get_pcrs_from_quote check_quote db rp mb_policy
      agent att /\
  forall st,
    attest_state new_keyrings keyrings_from_json set_tenant_keyring
      clock_info_from_quote get_pcrs_from_quote db agent rp att = inr st ->
    exists policy_keys,
      option_map verification_keys rp = Some policy_keys /\
      st_ima_keyrings st = set_tenant_keyring policy_keys new_keyrings.
Proof.
  intros Hzero; split.
  - unfold run_check_quote, attest_state; rewrite Hzero.
    destruct rp; reflexivity.
  - intros st; unfold attest_state; rewrite Hzero.
    destruct rp as [p|]; [|discriminate].
    cbn [option_Z_eqb Z.eqb].
    destruct (decided (values att) && negb (is_quote_authentication (values att))).
    + destruct (tpm_pcrs get_pcrs_from_quote (values att)); [|discriminate].
      intros H; apply ret_inj in H; subst st.
      exists (verification_keys p); split; reflexivity.
    + intros H; apply ret_inj in H; subst st.
      exists (verification_keys p); split; reflexivity.
Qed.

End FreshBoot.

(** The received record of the scenarios starts at offset 0: keyrings
    learned before are not handed to the adapter. *)
Lemma fresh_boot_drops_learned_keyrings_witness :
  toy_run_check_quote [received_row "quote"]
    (set_learned_ima_keyrings (Some "old-keys") agent_a1)
    (fetched (received_row "quote"))
  = toy_run_check_quote [received_row "quote"] agent_a1
      (fetched (received_row "quote")).
Proof.
  exact (proj1 (fresh_boot_drops_learned_keyrings string ""
                  (fun j => j) (fun _ k => k) (fun q => q) (fun _ => [])
                  toy_check_quote [received_row "quote"]
                  (Some runtime_policy_0) None agent_a1
                  (fetched (received_row "quote")) (Some "old-keys")
                  eq_refl)).
Defined.

(** ** The selection of PCRs *)

Lemma insert_pcr_In x l p : In p (insert_pcr x l) <-> p = x \/ In p l.
Proof.
  induction l as [|y rest IH]; simpl.
  - split; intros [H|H]; auto.
  - destruct (x <? y); [simpl; split; intros [H|H]; auto|].
    destruct (x =? y) eqn:E.
    + apply Z.eqb_eq in E; subst y; simpl.
      split; [auto | intros [H|H]; auto].
    + simpl; rewrite IH; split; intros [H|[H|H]]; auto.
Qed.

Lemma insert_pcr_sorted x l :
  StronglySorted Z.lt l -> StronglySorted Z.lt (insert_pcr x l).
Proof.
  induction l as [|y rest IH]; intros Hs; simpl.
  - constructor; constructor.
  - inversion Hs as [|? ? Hrest Hall]; subst.
    destruct (x <? y) eqn:Elt.
    + apply Z.ltb_lt in Elt; constructor; [exact Hs|].
      constructor; [exact Elt|].
      apply Forall_forall; intros z Hz.
      rewrite Forall_forall in Hall; specialize (Hall z Hz); lia.
    + destruct (x =? y) eqn:Eeq; [exact Hs|].
      apply Z.ltb_ge in Elt; apply Z.eqb_neq in Eeq.
      constructor; [apply IH; exact Hrest|].
      apply Forall_forall; intros z Hz.
      apply insert_pcr_In in Hz; destruct Hz as [->|Hz]; [lia|].
      rewrite Forall_forall in Hall; apply Hall; exact Hz.
Qed.

Lemma sorted_set_In l p : In p (sorted_set l) <-> In p l.
Proof.
  unfold sorted_set; induction l as [|x rest IH]; simpl; [reflexivity|].
  rewrite insert_pcr_In, IH; split; intros [H|H]; auto.
Qed.

Lemma sorted_set_sorted l : StronglySorted Z.lt (sorted_set l).
Proof.
  unfold sorted_set; induction l as [|x rest IH]; simpl;
    [constructor | apply insert_pcr_sorted; exact IH].
Qed.

Lemma ints_of_keys_In int_of_key keys :
  forall ns,
    ints_of_keys int_of_key keys = inr ns ->
    forall n, In n ns <-> exists key, In key keys /\ int_of_key key = inr n.
Proof.
  induction keys as [|key rest IH]; simpl; intros ns H.
  - apply ret_inj in H; subst ns; intros n; split;
      [intros [] | intros [k [[] _]]].
  - destruct (int_of_key key) as [e|m] eqn:Ek; cbn [bind] in H;
      [discriminate|].
    destruct (ints_of_keys int_of_key rest) as [e|ms]; cbn [bind] in H;
      [discriminate|].
    apply ret_inj in H; subst ns; intros n; simpl.
    rewrite (IH ms eq_refl n); split.
    + intros [<-|[k [Hk Hn]]]; [exists key; auto | exists k; auto].
    + intros [k [[<-|Hk] Hn]]; [left; congruence | right; exists k; auto].
Qed.

(** When the agent's TPM policy decodes to an object whose keys other than
    ["mask"] are all integers, [pcr_selection] returns a strictly
    increasing list, hence one without duplicates, that holds exactly the
    PCRs of those keys, the measured boot PCRs and the IMA PCR; the key
    ["mask"] is never read as a PCR. *)
Theorem pcr_selection_sorted_union json_object_keys int_of_key
    MEASUREDBOOT_PCRS IMA_PCR agent keys lockdown_pcrs :
  json_object_keys (VerifierAgent.tpm_policy agent) = inr keys ->
  ints_of_keys int_of_key
    (filter (fun key => negb (String.eqb key "mask")) keys)
  = inr lockdown_pcrs ->
  exists selection,
    pcr_selection json_object_keys int_of_key MEASUREDBOOT_PCRS IMA_PCR agent
    = inr selection /\
    StronglySorted Z.lt selection /\
    forall p,
      In p selection <->
      (exists key,
         In key keys /\ key <> "mask" /\ int_of_key key = inr p) \/
      In p MEASUREDBOOT_PCRS \/ p = IMA_PCR.
Proof.
  intros Hkeys Hints; unfold pcr_selection.
  rewrite Hkeys; cbn [bind]; rewrite Hints; cbn [bind].
  eexists; split; [reflexivity|]; split; [apply sorted_set_sorted|].
  intros p; rewrite sorted_set_In, !in_app_iff.
  rewrite (ints_of_keys_In int_of_key _ lockdown_pcrs Hints p); simpl.
  split.
  - intros [[key [Hin Hp]]|[H|[H|[]]]]; auto.
    apply filter_In in Hin; destruct Hin as [Hin Hmask].
    left; exists key; repeat split; auto.
    intros ->; discriminate.
  - intros [[key [Hin [Hmask Hp]]]|[H|H]]; auto.
    left; exists key; split; [|exact Hp].
    apply filter_In; split; [exact Hin|].
    destruct (String.eqb key "mask") eqn:E; [|reflexivity].
    apply String.eqb_eq in E; contradiction.
Qed.

(** A policy on PCRs 15 and 10 with a mask, measured boot in PCRs 0 and 1,
    IMA in PCR 10. *)
Lemma pcr_selection_sorted_union_witness :
  exists selection,
    pcr_selection toy_json_object_keys toy_int_of_key [0; 1] 10 agent_a1
    = inr selection /\
    StronglySorted Z.lt selection /\
    forall p,
      In p selection <->
      (exists key,
         In key ["mask"; "15"; "10"] /\ key <> "mask" /\
         toy_int_of_key key = inr p) \/
      In p [0; 1] \/ p = 10.
Proof.
  apply (pcr_selection_sorted_union toy_json_object_keys toy_int_of_key
           [0; 1] 10 agent_a1 ["mask"; "15"; "10"] [15; 10]);
    reflexivity.
Defined.

Example pcr_selection_of_the_scenario :
  pcr_selection toy_json_object_keys toy_int_of_key [0; 1] 10 agent_a1
  = inr [0; 1; 10; 15].
Proof. reflexivity. Qed.

(** ** Creation for an agent that has attestations *)

(** When the table holds a record of the agent, [create] reads of the agent
    record only its three lists of accepted algorithms and its id: two agent
    records that agree on these give the same result, whatever their
    [next_ima_ml_entry]. *)
Theorem create_reads_accept_lists_only policy cfg db now rnd id agent agent'
    data :
  get_last db (Some id) <> None ->
  VerifierAgent.agent_id agent' = VerifierAgent.agent_id agent ->
  VerifierAgent.accept_tpm_hash_algs agent'
  = VerifierAgent.accept_tpm_hash_algs agent ->
  VerifierAgent.accept_tpm_encryption_algs agent'
  = VerifierAgent.accept_tpm_encryption_algs agent ->
  VerifierAgent.accept_tpm_signing_algs agent'
  = VerifierAgent.accept_tpm_signing_algs agent ->
  create policy cfg db now rnd id agent' data
  = create policy cfg db now rnd id agent data.
Proof.
  intros Hlast Hid Hh He Hs; unfold create.
  destruct (get_last db (Some id)); [|contradiction].
  destruct (initialise policy cfg db now id empty) as [e|a]; cbn [bind];
    [reflexivity|].
  unfold receive_capabilities, _set_algs, for_agent.
  rewrite Hid, Hh, He, Hs; reflexivity.
Qed.

(** After record 0, the agent that comes from pull mode is treated as the
    agent that does not. *)
Lemma create_reads_accept_lists_only_witness :
  create KeepErrors config_5 [verified_row_0] 9 zero_bytes "a1"
    agent_migrated capabilities_1000
  = create KeepErrors config_5 [verified_row_0] 9 zero_bytes "a1" agent_a1
      capabilities_1000.
Proof.
  apply create_reads_accept_lists_only;
    [discriminate | reflexivity | reflexivity | reflexivity | reflexivity].
Defined.

(** With records 0 and 1 of agent [a1] in the table, the last one is
    record 1. *)
Lemma get_last_greatest_witness :
  In verified_row_1 [verified_row_0; verified_row_1] /\
  agent_is (Some "a1") verified_row_1 = true /\
  forall row j,
    In row [verified_row_0; verified_row_1] ->
    agent_is (Some "a1") row = true -> row_index row = Some j ->
    exists k, row_index verified_row_1 = Some k /\ j <= k.
Proof.
  pose proof (get_last_greatest [verified_row_0; verified_row_1]
                (Some "a1")) as H.
  change (get_last [verified_row_0; verified_row_1] (Some "a1"))
    with (Some verified_row_1) in H.
  exact H.
Defined.
